(** * StellarTerm ticker: a shallow embedding of [functions/ticker.js]

    The ticker is produced by four phases chained with promises:
    phase 1 reconciles external prices, phase 2 ([loadAssets]) lists the
    assets of the directory, phase 3 derives the market metrics of every
    pair from the order book and the trade aggregations served by Horizon,
    and phase 4 scores and ranks the assets.

    Modelling choices.
    - A JavaScript number is an exact rational or [NaN] ([number]).  Floating
      point rounding, the two infinities and the negative zero are outside
      the model: a division by zero yields [NaN] here, where JavaScript
      yields an infinity for a nonzero dividend.  The statements on the
      prices and on the depth therefore give a stored value as the program's
      own expression ([_.round] of [_.mean] or of [_.sumBy] of the values
      that count) and not as a quantity computed in another way.
    - The activity score goes through [Math.log]; scores are real numbers or
      [NaN] ([rnumber]), and the logarithm is [ln] of the standard library.
    - The objects that the phases extend field by field (assets and pairs)
      are finite maps from field names to values; a field that was never
      assigned is [undefined], that is, absent from the map.
    - A promise is its outcome: [Resolved], [Rejected], or [Pending] when
      nothing ever settles it.  The callbacks run in a state monad over the
      ticker document and the [StepLogger] history.  The console output of
      [TickerLogger] is not modelled.
    - Everything that comes from the network is read from a [world]; every
      request ends, with an answer or with a failure.
    - [Promise.all] is rejected with the first rejection in the order of
      the array; which of several failures is the one reported depends on
      the order in which the requests end, which is outside the model.
    - The constructor of [StellarSdk.Asset] is taken to accept the legs of
      the directory; the statements on runs that succeed ask for it
      ([Asset_accepts]). *)

From Stdlib Require Import String Ascii List NArith ZArith QArith Qround Qreduction.
From Stdlib Require Import Reals Lra Lia DecimalString DecimalN OrderedTypeEx.
From Stdlib Require Import Sorted.
From stdpp Require Import base gmap strings pretty.
From Equations Require Import Equations.
Import ListNotations.

Set Default Proof Using "Type".

(** ** JavaScript numbers *)

Inductive num (F : Type) : Type :=
  | NaN : num F
  | Fin : F -> num F.
Arguments NaN {F}.
Arguments Fin {F} _.

(** Rational numbers: prices, amounts, volumes. *)
Abbreviation number := (num Q).
(** Real numbers: the activity score. *)
Abbreviation rnumber := (num R).

Definition lift1 {F} (f : F -> F) (x : num F) : num F :=
  match x with
  | Fin a => Fin (f a)
  | NaN => NaN
  end.

Definition lift2 {F} (f : F -> F -> F) (x y : num F) : num F :=
  match x, y with
  | Fin a, Fin b => Fin (f a b)
  | _, _ => NaN
  end.

Definition nadd : number -> number -> number := lift2 Qplus.
Definition nsub : number -> number -> number := lift2 Qminus.
Definition nmul : number -> number -> number := lift2 Qmult.

(** [x / y]; the quotient by zero is not finite. *)
Definition ndiv (x y : number) : number :=
  match x, y with
  | Fin a, Fin b => if Qeq_bool b 0 then NaN else Fin (a / b)%Q
  | _, _ => NaN
  end.

(** Comparisons are false as soon as one side is [NaN]. *)
Definition nle (x y : number) : bool :=
  match x, y with
  | Fin a, Fin b => Qle_bool a b
  | _, _ => false
  end.

Definition nlt (x y : number) : bool :=
  match x, y with
  | Fin a, Fin b => negb (Qle_bool b a)
  | _, _ => false
  end.

Definition nge (x y : number) : bool := nle y x.
Definition ngt (x y : number) : bool := nlt y x.

(** [Math.min(x, y)] *)
Definition Math_min (x y : number) : number :=
  match x, y with
  | Fin a, Fin b => if Qle_bool a b then Fin a else Fin b
  | _, _ => NaN
  end.

(** [Math.round]: the nearest integer, a tie going up. *)
Definition Math_round (x : number) : number :=
  lift1 (fun q => inject_Z (Qfloor (q + (1 # 2)))) x.

Definition pow10 (p : nat) : Z := Z.pow 10 (Z.of_nat p).

(** Lodash [_.round(x, precision)]: the decimal point is moved [precision]
    places to the right, the result is rounded with [Math.round], and the
    point is moved back. *)
Definition round_Q (precision : nat) (q : Q) : Q :=
  Qred (inject_Z (Qfloor (q * inject_Z (pow10 precision) + (1 # 2)))
        / inject_Z (pow10 precision)).

Definition _round (x : number) (precision : nat) : number :=
  lift1 (round_Q precision) x.

(** Equality of numbers up to the representation of the fraction. *)
Definition num_eq (x y : number) : Prop :=
  match x, y with
  | NaN, NaN => True
  | Fin a, Fin b => (a == b)%Q
  | _, _ => False
  end.

Infix "=n=" := num_eq (at level 70, no associativity).

(** ** Lodash collection helpers *)

(** [baseSum]: the running result is [undefined] until the first element. *)
Definition baseSum {A} (array : list A) (iteratee : A -> number)
  : option number :=
  fold_left
    (fun result x =>
       match result with
       | None => Some (iteratee x)
       | Some r => Some (nadd r (iteratee x))
       end)
    array None.

(** [_.sumBy(array, iteratee)] *)
Definition _sumBy {A} (array : list A) (iteratee : A -> number) : number :=
  match array with
  | [] => Fin 0%Q
  | _ => match baseSum array iteratee with
         | Some r => r
         | None => Fin 0%Q
         end
  end.

(** [_.mean(array)]: [NaN] for the empty array. *)
Definition _mean (array : list number) : number :=
  match array with
  | [] => NaN
  | _ => match baseSum array (fun x => x) with
         | Some r => ndiv r (Fin (inject_Z (Z.of_nat (length array))))
         | None => NaN
         end
  end.

(** [_.filter(allPrices, price => price !== null)] *)
Fixpoint filter_not_null (allPrices : list (option number)) : list number :=
  match allPrices with
  | [] => []
  | Some price :: rest => price :: filter_not_null rest
  | None :: rest => filter_not_null rest
  end.

(** ** Requests and promises *)

Inductive error : Type :=
  | TypeError (message : string)
  | RequestError (detail : string).

(** The outcome of a request: every request is taken to end, with an
    answer or with a failure. *)
Inductive response (A : Type) : Type :=
  | Answer (a : A)
  | Failure (e : error).
Arguments Answer {A} a.
Arguments Failure {A} e.

(** A promise is its outcome; [Pending] is the promise that is never
    settled. *)
Inductive promise (A : Type) : Type :=
  | Resolved (a : A)
  | Rejected (e : error)
  | Pending.
Arguments Resolved {A} a.
Arguments Rejected {A} e.
Arguments Pending {A}.

(** [rp(options)] *)
Definition rp {A} (r : response A) : promise A :=
  match r with
  | Answer a => Resolved a
  | Failure e => Rejected e
  end.

Definition is_rejected {A} (p : promise A) : bool :=
  match p with
  | Rejected _ => true
  | _ => false
  end.

(** [p.then(f)] for a handler that returns a promise. *)
Definition then_ {A B} (p : promise A) (f : A -> promise B) : promise B :=
  match p with
  | Resolved a => f a
  | Rejected e => Rejected e
  | Pending => Pending
  end.

(** [p.catch(f)] *)
Definition catch_ {A} (p : promise A) (f : error -> promise A) : promise A :=
  match p with
  | Rejected e => f e
  | _ => p
  end.

(** [Promise.all]: rejected as soon as one of the promises is; the first
    rejection in the order of the array stands in for the first rejection in
    time. *)
Fixpoint Promise_all {A} (ps : list (promise A)) : promise (list A) :=
  match ps with
  | [] => Resolved []
  | p :: rest =>
      match p, Promise_all rest with
      | Rejected e, _ => Rejected e
      | _, Rejected e => Rejected e
      | Resolved a, Resolved l => Resolved (a :: l)
      | _, _ => Pending
      end
  end.

(** ** Phase 1: external prices *)

(** A price source with its handlers:
    [rp(url).then(data => price).catch(() => null)].  [fetched] is the
    outcome of the request and of the extraction of the field. *)
Definition price_source (after : number -> number) (fetched : response number)
  : promise (option number) :=
  catch_
    (then_ (rp fetched) (fun raw => Resolved (Some (after raw))))
    (fun _ => Resolved None).

Definition getBtcPrice (coindesk bitfinex coinbase kraken : response number)
  : promise number :=
  then_
    (Promise_all
       [ price_source (fun x => _round x 3) coindesk;
         price_source (fun x => _round x 3) bitfinex;
         price_source (fun x => _round x 3) coinbase;
         price_source (fun x => _round x 3) kraken ])
    (fun allPrices =>
       let btcPrice := _round (_mean (filter_not_null allPrices)) 2 in
       Resolved btcPrice).

Definition getLumenPrice (poloniex bittrex kraken : response number)
  : promise number :=
  then_
    (Promise_all
       [ price_source (fun x => x) poloniex;
         price_source (fun x => x) bittrex;
         price_source (fun x => x) kraken ])
    (fun allPrices =>
       let xlmPrice := _round (_mean (filter_not_null allPrices)) 8 in
       Resolved xlmPrice).

Record ExternalPrices : Type := mkExternalPrices {
  USD_BTC : number;
  BTC_XLM : number;
  USD_XLM : number;
  USD_XLM_24hAgo : option number;
  USD_XLM_change : option number
}.

Record price_feeds : Type := mkFeeds {
  btc_coindesk : response number;
  btc_bitfinex : response number;
  btc_coinbase : response number;
  btc_kraken : response number;
  xlm_poloniex : response number;
  xlm_bittrex : response number;
  xlm_kraken : response number
}.

(** The value that [getExternalPrices] is resolved with.  Its handler also
    writes an entry to the log of [StepLogger]; the entry is written where
    the promise is awaited, in [phase1_externalPrices]. *)
Definition getExternalPrices (feeds : price_feeds) : promise ExternalPrices :=
  then_
    (Promise_all
       [ getBtcPrice (btc_coindesk feeds) (btc_bitfinex feeds)
           (btc_coinbase feeds) (btc_kraken feeds);
         getLumenPrice (xlm_poloniex feeds) (xlm_bittrex feeds)
           (xlm_kraken feeds) ])
    (fun externalData =>
       match externalData with
       | [btc; xlm] =>
           Resolved {| USD_BTC := btc; BTC_XLM := xlm;
                       USD_XLM := _round (nmul btc xlm) 6;
                       USD_XLM_24hAgo := None; USD_XLM_change := None |}
       | _ => Rejected (TypeError "externalData")
       end).

(** ** Numbers served by Horizon, and their decimal representation *)

(** Horizon serves prices, amounts and volumes as strings with seven
    decimals.  Such a number is kept as its count of 0.0000001 units, so
    that the string that [ToString] gives for it can be written down.  The
    string is the one of JavaScript as long as the number has no more
    significant digits than a double holds, which covers the prices and
    amounts of the ledger up to some 10^8. *)
Abbreviation decimal7 := N.

(** [Number(s)] and [parseFloat(s)] on such a string. *)
Definition Number7 (u : decimal7) : number :=
  Fin (Qred (Z.of_N u # 10000000)).

Definition digit (d : N) : ascii := ascii_of_N (48 + d).

(** The first [k] decimals of [f / 10^k], without the trailing zeros. *)
Fixpoint fraction_digits (k : nat) (f : N) : string :=
  match k with
  | O => EmptyString
  | S k' =>
      if N.eqb f 0 then EmptyString
      else String (digit (f / 10 ^ N.of_nat k'))
             (fraction_digits k' (f mod 10 ^ N.of_nat k'))
  end.

(** [ToString] of a number: exponent notation below 0.000001, otherwise
    the integer part and, when there is one, the fraction. *)
Definition ToString (u : decimal7) : string :=
  if (N.ltb 0 u && N.ltb u 10)%bool then String (digit u) "e-7"
  else
    let i := (u / 10000000)%N in
    let f := (u mod 10000000)%N in
    (NilZero.string_of_uint (N.to_uint i)
     ++ (if N.eqb f 0 then "" else String "."%char (fraction_digits 7 f)))%string.

(** ** [Array.prototype.sort] *)

(** The sort is stable.  [gt a b] is true when the comparison function
    returns a positive number on [a] and [b], that is, when [a] has to come
    after [b].  Every stable sort gives the list below when the comparison
    is a consistent order; when it is not (a [NaN] among the scores), the
    order of the result is left to the engine, and this is one of them. *)
Section Sort.
Context {A : Type} (gt : A -> A -> bool).

Fixpoint sort_insert (a : A) (sorted : list A) : list A :=
  match sorted with
  | [] => [a]
  | b :: rest => if gt a b then b :: sort_insert a rest else a :: b :: rest
  end.

Definition Array_sort (array : list A) : list A :=
  fold_right sort_insert [] array.
End Sort.

(** Without a comparison function the elements are compared through their
    strings, code unit by code unit. *)
Definition SortCompare_gt (x y : decimal7) : bool :=
  match String.compare (ToString x) (ToString y) with
  | Gt => true
  | _ => false
  end.

(** [[a, b, c].sort()[1]] *)
Definition medianOf3 (a b c : decimal7) : decimal7 :=
  nth 1 (Array_sort SortCompare_gt [a; b; c]) a.

(** The median by value, for comparison. *)
Definition numeric_median (a b c : decimal7) : decimal7 :=
  N.max (N.min a b) (N.min (N.max a b) c).

(** ** The ticker document *)

Inductive value : Type :=
  | VNull
  | VNum (n : number)
  | VStr (s : string)
  | VReal (r : rnumber).

(** An object that receives its fields one assignment at a time. *)
Abbreviation object := (gmap string value).

Record horizon_main : Type := mkHorizonMain {
  core_latest_ledger : Z;
  network_passphrase : string
}.

Record meta : Type := mkMeta {
  start : Z;
  apiLicense : string;
  horizon : option horizon_main;
  stellarTermVersion : option value;
  externalPrices : option ExternalPrices;
  build_id : option string
}.

(** A leg of a pair, [{code, issuer}]; the issuer of the native asset is
    [null]. *)
Record leg : Type := mkLeg {
  code : string;
  issuer : option string
}.

Record pair : Type := mkPair {
  baseBuying : leg;
  counterSelling : leg;
  fields : object
}.

Record ticker : Type := mkTicker {
  _meta : meta;
  assets : list object;
  pairs : list (string * pair)
}.

(** ** The collaborators *)

Record offer : Type := mkOffer {
  price : decimal7;
  amount : decimal7
}.

Record orderbook : Type := mkOrderbook {
  bids : list offer;
  asks : list offer
}.

Record trade_record : Type := mkRecord {
  close : decimal7;
  base_volume : decimal7;
  counter_volume : decimal7;
  trade_count : N
}.

Record directory_asset : Type := mkDirectoryAsset {
  asset_code : string;
  asset_issuer : string;
  asset_domain : string
}.

(** The directory after [initializeIssuerOrgs]; [anchors] gives the website
    of a domain. *)
Record directory_t : Type := mkDirectory {
  buildID : string;
  directory_assets : list (string * directory_asset);
  anchors : gmap string string;
  directory_pairs : list (string * (leg * leg))
}.

(** The entry [data.XLM] of a CoinMarketCap response, as far as the
    handlers read it: an entry without [quote], an entry whose [quote] has
    no [USD], or [Number(data.XLM.quote.USD.percent_change_24h)]. *)
Inductive xlm_entry : Type :=
  | no_quote
  | no_USD
  | quote_USD (percent_change_24h : number).

(** The body of a CoinMarketCap response.  [cmc_data] is [None] when the
    body has no [data], [Some None] when [data] has no [XLM] entry (or a
    falsy one), and otherwise holds the entry; [cmc_text] is what
    [JSON.stringify] gives for the body. *)
Record cmc_json : Type := mkCmc {
  cmc_data : option (option xlm_entry);
  cmc_text : string
}.

(** What the network answers during one run.  [coinmarketcap n] is the
    outcome of the n-th request (from 0) to the quote API. *)
Record world : Type := mkWorld {
  HORIZON_SERVER : string;
  now : Z;
  horizonMain : response horizon_main;
  stellarterm_version : response (option string);
  feeds : price_feeds;
  coinmarketcap : nat -> response cmc_json;
  initializeIssuerOrgs : response directory_t;
  orderbook_call : leg -> leg -> response orderbook;
  tradeAggregation_call : leg -> leg -> response (list trade_record)
}.

(** ** State and effects *)

Inductive event : Type :=
  | Log (message : string)          (* StepLogger.log *)
  | LogError (message : string)     (* StepLogger.error *)
  | CmcRequest                      (* a request to the quote API *)
  | Timeout (ms : Z).               (* setTimeout *)

(** The variables that the callbacks share: the ticker, the [directory]
    module, the two volume counters of phase 3, and what happened so far. *)
Record state : Type := mkState {
  doc : ticker;
  directory : option directory_t;
  lumenVolumeXLM : number;
  lumenVolumeUSD : number;
  cmc_calls : nat;
  trace : list event
}.

Definition M (A : Type) : Type := state -> promise A * state.

Definition ret {A} (a : A) : M A := fun s => (Resolved a, s).

Definition bind {A B} (m : M A) (k : A -> M B) : M B :=
  fun s =>
    match m s with
    | (Resolved a, s') => k a s'
    | (Rejected e, s') => (Rejected e, s')
    | (Pending, s') => (Pending, s')
    end.

Declare Scope m_scope.
Delimit Scope m_scope with M.
Notation "'let*' x ':=' m 'in' k" :=
  (bind m (fun x => k))
  (at level 10, x name, m at level 100, k at level 200) : m_scope.
Notation "m '>>' k" :=
  (bind m (fun _ => k))
  (at level 100, k at level 200, right associativity) : m_scope.
Local Open Scope m_scope.

Definition throw {A} (e : error) : M A := fun s => (Rejected e, s).
Definition await {A} (p : promise A) : M A := fun s => (p, s).
Definition request {A} (r : response A) : M A := await (rp r).
Definition get : M state := fun s => (Resolved s, s).
Definition modify (f : state -> state) : M unit := fun s => (Resolved tt, f s).

Definition set_doc (f : ticker -> ticker) (s : state) : state :=
  {| doc := f (doc s); directory := directory s;
     lumenVolumeXLM := lumenVolumeXLM s; lumenVolumeUSD := lumenVolumeUSD s;
     cmc_calls := cmc_calls s; trace := trace s |}.

Definition set_directory (d : option directory_t) (s : state) : state :=
  {| doc := doc s; directory := d;
     lumenVolumeXLM := lumenVolumeXLM s; lumenVolumeUSD := lumenVolumeUSD s;
     cmc_calls := cmc_calls s; trace := trace s |}.

Definition set_lumenVolume (xlm usd : number) (s : state) : state :=
  {| doc := doc s; directory := directory s;
     lumenVolumeXLM := xlm; lumenVolumeUSD := usd;
     cmc_calls := cmc_calls s; trace := trace s |}.

Definition emit (e : event) (s : state) : state :=
  {| doc := doc s; directory := directory s;
     lumenVolumeXLM := lumenVolumeXLM s; lumenVolumeUSD := lumenVolumeUSD s;
     cmc_calls := cmc_calls s; trace := trace s ++ [e] |}.

Definition count_request (s : state) : state :=
  {| doc := doc s; directory := directory s;
     lumenVolumeXLM := lumenVolumeXLM s; lumenVolumeUSD := lumenVolumeUSD s;
     cmc_calls := S (cmc_calls s); trace := trace s ++ [CmcRequest] |}.

Definition set_meta (f : meta -> meta) (t : ticker) : ticker :=
  {| _meta := f (_meta t); assets := assets t; pairs := pairs t |}.

Definition set_assets (f : list object -> list object) (t : ticker) : ticker :=
  {| _meta := _meta t; assets := f (assets t); pairs := pairs t |}.

Definition set_pairs (f : list (string * pair) -> list (string * pair))
    (t : ticker) : ticker :=
  {| _meta := _meta t; assets := assets t; pairs := f (pairs t) |}.

Definition set_horizon (h : horizon_main) (m : meta) : meta :=
  {| start := start m; apiLicense := apiLicense m; horizon := Some h;
     stellarTermVersion := stellarTermVersion m;
     externalPrices := externalPrices m; build_id := build_id m |}.

Definition set_stellarTermVersion (v : value) (m : meta) : meta :=
  {| start := start m; apiLicense := apiLicense m; horizon := horizon m;
     stellarTermVersion := Some v;
     externalPrices := externalPrices m; build_id := build_id m |}.

Definition set_externalPrices (p : ExternalPrices) (m : meta) : meta :=
  {| start := start m; apiLicense := apiLicense m; horizon := horizon m;
     stellarTermVersion := stellarTermVersion m;
     externalPrices := Some p; build_id := build_id m |}.

Definition set_build_id (b : string) (m : meta) : meta :=
  {| start := start m; apiLicense := apiLicense m; horizon := horizon m;
     stellarTermVersion := stellarTermVersion m;
     externalPrices := externalPrices m; build_id := Some b |}.

(** The line feed that opens the first message of a phase. *)
Definition nl : string := String "010"%char EmptyString.

(** [e.message] *)
Definition error_message (e : error) : string :=
  match e with
  | TypeError message => message
  | RequestError detail => detail
  end.

Definition StepLogger_log (message : string) : M unit :=
  modify (emit (Log message)).
Definition StepLogger_error (message : string) : M unit :=
  modify (emit (LogError message)).

(** The outcomes of tasks that share the state.  Every task runs, also
    after another one has been rejected; the tasks run here one after the
    other, in the order of the list. *)
Fixpoint run_all {A} (tasks : list (M A)) (s : state)
  : list (promise A) * state :=
  match tasks with
  | [] => ([], s)
  | task :: rest =>
      let '(p, s1) := task s in
      let '(ps, s2) := run_all rest s1 in
      (p :: ps, s2)
  end.

(** [Promise.all] over such tasks. *)
Definition Promise_all_M {A} (tasks : list (M A)) : M (list A) :=
  fun s => let '(ps, s') := run_all tasks s in (Promise_all ps, s').

(** A loop whose body may throw. *)
Fixpoint each {A} (l : list A) (body : A -> M unit) : M unit :=
  match l with
  | [] => ret tt
  | x :: rest => body x >> each rest body
  end.

(** ** Phase 1 *)

Definition rp_coinmarketcap (w : world) : M cmc_json :=
  fun s => (rp (coinmarketcap w (cmc_calls s)), count_request s).

(** [new Promise((resolve) => { ... p.then(d => resolve(d)) ... })]: the
    new promise is resolved when [p] is, and nothing settles it when [p] is
    rejected. *)
Definition resolve_only {A} (r : promise A * state) : promise A * state :=
  match r with
  | (Resolved d, s) => (Resolved d, s)
  | (_, s) => (Pending, s)
  end.

(** The body has an [XLM] entry: [cmcTickerJson.data.XLM] is truthy. *)
Definition has_XLM (data : option xlm_entry) : bool :=
  match data with
  | Some _ => true
  | None => false
  end.

(** [coinmarketcapReqeust(retryCount)].  Reading [data.XLM] throws when the
    body has no [data]. *)
Equations coinmarketcapReqeust (w : world) (retryCount : nat) (s : state)
  : promise cmc_json * state by wf (10 - retryCount) lt :=
coinmarketcapReqeust w retryCount s with rp_coinmarketcap w s := {
  | (Rejected e, s1) => (Rejected e, s1)
  | (Pending, s1) => (Pending, s1)
  | (Resolved cmcTickerJson, s1) with cmc_data cmcTickerJson := {
    | None =>
        (Rejected (TypeError "Cannot read properties of undefined (reading 'XLM')"), s1)
    | Some data with negb (has_XLM data), lt_dec retryCount 10 := {
      | true, left _ =>
          resolve_only
            (coinmarketcapReqeust w (retryCount + 1)
               (emit (Timeout 1000)
                  (emit (LogError ("Coinmarketcap missing response: retry attempt "
                                   ++ pretty (retryCount + 1)%nat)) s1)))
      | _, _ => (Resolved cmcTickerJson, s1) } } }.
Next Obligation. lia. Qed.

Definition getHorizonMain (w : world) : M horizon_main :=
  request (horizonMain w).

(** The version found in the page, or [-1]: a page without the marker makes
    [search.length] throw, and the handler of the rejection returns [-1]. *)
Definition getStellarTermDotComVersion (w : world) : M value :=
  match stellarterm_version w with
  | Answer (Some version) => ret (VStr version)
  | Answer None =>
      StepLogger_error
        ("---------------> Phase 1: getStellarTermDotComVersion() error "
         ++ "Cannot read properties of null (reading 'length')")
      >> ret (VNum (Fin (-1)%Q))
  | Failure err =>
      StepLogger_error
        ("---------------> Phase 1: getStellarTermDotComVersion() error "
         ++ error_message err)
      >> ret (VNum (Fin (-1)%Q))
  end.

Definition with_24hAgo (p : ExternalPrices) (v : number) : ExternalPrices :=
  {| USD_BTC := USD_BTC p; BTC_XLM := BTC_XLM p; USD_XLM := USD_XLM p;
     USD_XLM_24hAgo := Some v; USD_XLM_change := USD_XLM_change p |}.

Definition with_change (p : ExternalPrices) (v : number) : ExternalPrices :=
  {| USD_BTC := USD_BTC p; BTC_XLM := BTC_XLM p; USD_XLM := USD_XLM p;
     USD_XLM_24hAgo := USD_XLM_24hAgo p; USD_XLM_change := Some v |}.

(** [ticker._meta.externalPrices], which throws on a field access when it
    was never assigned. *)
Definition read_externalPrices : M ExternalPrices :=
  let* s := get in
  match externalPrices (_meta (doc s)) with
  | Some p => ret p
  | None => throw (TypeError "Cannot read properties of undefined")
  end.

Definition phase1_externalPrices (w : world) : M unit :=
  let* p := await (getExternalPrices (feeds w)) in
  (* the entry that the handler of [getExternalPrices] writes *)
  StepLogger_log "Phase 1: getExternalPrices() success"
  (* Just incase CMC is down *)
  >> modify (set_doc (set_meta (set_externalPrices (with_24hAgo p (USD_XLM p)))))
  >> StepLogger_log "Phase 1: Finished external prices"
  >> StepLogger_log "Phase 1: start coinmarketcap request"
  >> let* cmcTickerJson := coinmarketcapReqeust w 0 in
  StepLogger_log "Phase 1: coinmarketcap response received"
  >> match cmc_data cmcTickerJson with
     | None => throw (TypeError "Cannot read properties of undefined (reading 'XLM')")
     | Some None =>
         StepLogger_error ("Coinmarketcap missing response: " ++ cmc_text cmcTickerJson)
     | Some (Some no_quote) =>
         throw (TypeError "Cannot read properties of undefined (reading 'USD')")
     | Some (Some no_USD) =>
         throw (TypeError "Cannot read properties of undefined (reading 'percent_change_24h')")
     | Some (Some (quote_USD percent_change_24h)) =>
         let* p := read_externalPrices in
         let newPriceRatio := nadd (Fin 1%Q) (ndiv percent_change_24h (Fin 100%Q)) in
         let oldPrice := nmul (ndiv (Fin 1%Q) newPriceRatio) (USD_XLM p) in
         modify (set_doc (set_meta (set_externalPrices
           (with_change (with_24hAgo p (_round oldPrice 6))
                        (_round percent_change_24h 6)))))
         >> StepLogger_log "Phase 1: coinmarketcap request success"
     end.

Definition phase1 (w : world) : M unit :=
  StepLogger_log (nl ++ "Start Phase 1")
  >> Promise_all_M
       [ (let* main := getHorizonMain w in
          modify (set_doc (set_meta (set_horizon main)))
          >> StepLogger_log ("Phase 1: getHorizonMain() success. HORIZON_SERVER = "
                             ++ HORIZON_SERVER w));
         (let* version := getStellarTermDotComVersion w in
          modify (set_doc (set_meta (set_stellarTermVersion version)))
          >> StepLogger_log
               ("Phase 1: getStellarTermDotComVersion() success. version = "
                ++ match version with VStr v => v | _ => "-1" end));
         phase1_externalPrices w ]
  >> StepLogger_log "Phase 1 completed".

(** ** Objects *)

(** [o.k] where a number is expected: [undefined] gives [NaN] in
    arithmetic and [null] gives 0. *)
Definition get_number (o : object) (k : string) : number :=
  match o !! k with
  | Some (VNum n) => n
  | Some VNull => Fin 0%Q
  | _ => NaN
  end.

Definition of_nat (n : nat) : number := Fin (inject_Z (Z.of_nat n)).

(** [!this.issuer].  The constructor of [StellarSdk.Asset] is taken to
    accept the legs of the directory: its checks, which throw on a leg
    without issuer whose code is not the one of the native asset, are
    written down as [Asset_accepts] and asked for where a statement says
    that a run succeeds. *)
Definition isNative (l : leg) : bool :=
  match issuer l with
  | None => true
  | Some _ => false
  end.

(** The predicate that [_.find] builds from [{code: .., issuer: ..}]. *)
Definition matches_leg (l : leg) (asset : object) : bool :=
  match asset !! "code" with
  | Some (VStr c) => String.eqb c (code l)
  | _ => false
  end
  &&
  match issuer l, asset !! "issuer" with
  | Some i, Some (VStr j) => String.eqb i j
  | None, Some VNull => true
  | _, _ => false
  end.

(** The position of the first element that satisfies [p]; the caller gets
    the element itself, by reference. *)
Fixpoint _find {A} (p : A -> bool) (l : list A) : option nat :=
  match l with
  | [] => None
  | x :: rest => if p x then Some O else option_map S (_find p rest)
  end.

Definition update_asset (i : nat) (f : object -> object) : M unit :=
  modify (set_doc (set_assets (alter f i))).

Definition update_pair (k : nat) (f : object -> object) : M unit :=
  modify (set_doc (set_pairs
    (alter (fun sp => (fst sp, mkPair (baseBuying (snd sp))
                                  (counterSelling (snd sp))
                                  (f (fields (snd sp))))) k))).

(** [m.catch(error => { StepLogger.log(message); return Promise.reject(error); })] *)
Definition catch_log {A} (message : string) (m : M A) : M A :=
  fun s =>
    match m s with
    | (Rejected e, s') => (Rejected e, emit (Log message) s')
    | r => r
    end.

(** ** Phase 2 *)

Definition native_asset (USD_XLM : number) : object :=
  <["id" := VStr "XLM-native"]>
  (<["code" := VStr "XLM"]>
  (<["issuer" := VNull]>
  (<["domain" := VStr "native"]>
  (<["slug" := VStr "XLM-native"]>
  (<["website" := VStr "https://www.stellar.org/lumens/"]>
  (<["price_XLM" := VNum (Fin 1%Q)]>
  (<["price_USD" := VNum USD_XLM]> ∅))))))).

Definition directory_entry (website : string) (id : string)
    (asset : directory_asset) : object :=
  <["id" := VStr id]>
  (<["code" := VStr (asset_code asset)]>
  (<["issuer" := VStr (asset_issuer asset)]>
  (<["domain" := VStr (asset_domain asset)]>
  (<["slug" := VStr (asset_code asset ++ "-" ++ asset_domain asset)]>
  (<["website" := VStr website]> ∅))))).

Definition loadAssets (w : world) : M unit :=
  StepLogger_log (nl ++ "Starting Phase 2: loadAssets()")
  >> modify (set_doc (set_assets (fun _ => [])))
  >> let* p := read_externalPrices in
  modify (set_doc (set_assets (fun l => l ++ [native_asset (USD_XLM p)])))
  >> modify (set_directory None)
  >> let* d := request (initializeIssuerOrgs w) in
  modify (set_directory (Some d))
  >> modify (set_doc (set_meta (set_build_id (buildID d))))
  >> each (directory_assets d)
       (fun entry =>
          match anchors d !! asset_domain (snd entry) with
          | Some website =>
              modify (set_doc (set_assets (fun l =>
                l ++ [directory_entry website (fst entry) (snd entry)])))
          | None =>
              throw (TypeError "Cannot read properties of undefined (reading 'website')")
          end)
  >> StepLogger_log "Phase 2: completed".

(** ** Phase 3: the metrics of a pair *)

Section Phase3.
(** [utils/niceRound] *)
Variable niceRound : number -> number.

(** *** From the order book *)

Definition first_price (offers : list offer) : number :=
  match offers with
  | o :: _ => Number7 (price o)
  | [] => NaN
  end.

Definition pair_bid (res : orderbook) : number :=
  _round (first_price (bids res)) 7.

Definition pair_ask (res : orderbook) : number :=
  _round (first_price (asks res)) 7.

Definition pair_spread (res : orderbook) : number :=
  _round (nsub (Fin 1%Q) (ndiv (pair_bid res) (pair_ask res))) 4.

Definition pair_price (counterNative : bool) (res : orderbook) : number :=
  if ngt (pair_spread res) (Fin 0.4%Q) && counterNative then pair_bid res
  else _round (ndiv (nadd (pair_bid res) (pair_ask res)) (Fin 2%Q)) 7.

(* Depth of the market of both sides *)
Definition sum10PercentBidAmounts (pair_price : number) (res : orderbook)
  : number :=
  _sumBy (bids res) (fun bid =>
    if nge (ndiv (Number7 (price bid)) pair_price) (Fin 0.9%Q)
    then Number7 (amount bid) else Fin 0%Q).

Definition sum10PercentAskAmounts (pair_price : number) (res : orderbook)
  : number :=
  _sumBy (asks res) (fun ask =>
    if nle (ndiv (Number7 (price ask)) pair_price) (Fin 1.1%Q)
    then Number7 (amount ask) else Fin 0%Q).

(* We get the min so that it can't be gamed by the issuer making a large sell wall *)
Definition depth10Amount (counterNative : bool) (res : orderbook) : number :=
  _round (Math_min
            (sum10PercentBidAmounts (pair_price counterNative res) res)
            (sum10PercentAskAmounts (pair_price counterNative res) res)) 0.

(** The assignments to [pair] of the first handler; [None] is the early
    [return] on an empty side. *)
Definition orderbook_fields (counterNative : bool) (res : orderbook)
    (pair_fields : object) : option object :=
  if (length (bids res) =? 0)%nat || (length (asks res) =? 0)%nat then None
  else
    Some (<["depth10Amount" := VNum (depth10Amount counterNative res)]>
         (<["price" := VNum (pair_price counterNative res)]>
         (<["spread" := VNum (pair_spread res)]>
         (<["ask" := VNum (pair_ask res)]>
         (<["bid" := VNum (pair_bid res)]> pair_fields))))).

(** *** From the trade aggregations *)

(** The closes of [records[length - 1]], [records[length - 2]] and
    [records[length - 3]]; the records come newest first. *)
Definition oldest_closes (records : list trade_record)
  : option (decimal7 * decimal7 * decimal7) :=
  match rev records with
  | r1 :: r2 :: r3 :: _ => Some (close r1, close r2, close r3)
  | _ => None
  end.

(** The open of the day in the unit of the pair. *)
Definition open_reference (records : list trade_record) : number :=
  match oldest_closes records with
  | Some (c1, c2, c3) => Number7 (medianOf3 c1 c2 c3)
  | None => NaN
  end.

(** [_.round(100 * (close / open - 1), 2)] *)
Definition change_percent (closing opening : number) : number :=
  _round (nmul (Fin 100%Q) (nsub (ndiv closing opening) (Fin 1%Q))) 2.

Definition value_of_change (change : option number) : value :=
  match change with
  | Some c => VNum c
  | None => VNull
  end.

(** [change24h_XLM] and [change24h_USD] of the asset of a pair whose
    native leg is the base ([baseNative]) or the counter. *)
Definition change24h (baseNative : bool) (pair_price : number)
    (XLMOldPrice XLMNewPrice : number) (records : list trade_record)
  : option number * option number :=
  if (6 <? length records)%nat then
    let openXLM :=
      if baseNative then ndiv (Fin 1%Q) (open_reference records)
      else open_reference records in
    let closeXLM :=
      if baseNative then ndiv (Fin 1%Q) pair_price else pair_price in
    let openUSD := nmul openXLM XLMOldPrice in
    let closeUSD := nmul closeXLM XLMNewPrice in
    (Some (change_percent closeXLM openXLM),
     Some (change_percent closeUSD openUSD))
  else (None, None).

Definition numTrades24h (records : list trade_record) : number :=
  _sumBy records (fun record => Fin (inject_Z (Z.of_N (trade_count record)))).

Definition volume24h_XLM (baseNative : bool) (records : list trade_record)
  : number :=
  niceRound (_sumBy records (fun record =>
    Number7 (if baseNative then base_volume record
             else counter_volume record))).

(** The assignments of the second handler to [pair]. *)
Definition trades_pair_fields (baseNative : bool)
    (records : list trade_record) (pair_fields : object) : object :=
  <["numTrades24h" := VNum (numTrades24h records)]>
  (<["volume24h_XLM" := VNum (volume24h_XLM baseNative records)]> pair_fields).

(** [target.k = source.k] *)
Definition copy_field (k : string) (source target : object) : object :=
  match source !! k with
  | Some v => <[k := v]> target
  | None => delete k target
  end.

(** The assignments of the second handler to [asset], for a pair with a
    native leg; [pair_fields] is the pair after these handlers. *)
Definition trades_asset_fields (baseNative : bool) (pairSlug : string)
    (res : orderbook) (records : list trade_record)
    (prices : ExternalPrices) (pair_fields asset : object) : object :=
  let XLMOldPrice :=
    match USD_XLM_24hAgo prices with Some v => v | None => NaN end in
  let XLMNewPrice := USD_XLM prices in
  let pair_price := get_number pair_fields "price" in
  let changes :=
    change24h baseNative pair_price XLMOldPrice XLMNewPrice records in
  let price_XLM :=
    if baseNative then niceRound (ndiv (Fin 1%Q) pair_price)
    else niceRound pair_price in
  let price_USD :=
    if baseNative
    then niceRound (nmul (ndiv (Fin 1%Q) pair_price) (USD_XLM prices))
    else niceRound (nmul pair_price (USD_XLM prices)) in
  let volume24h_USD :=
    niceRound (nmul (get_number pair_fields "volume24h_XLM") (USD_XLM prices)) in
  let depth10_XLM := niceRound (get_number pair_fields "depth10Amount") in
  <["depth10_USD" := VNum (niceRound (nmul depth10_XLM (USD_XLM prices)))]>
  (<["depth10_XLM" := VNum depth10_XLM]>
  (<["numAsks" := VNum (of_nat (length (asks res)))]>
  (<["numBids" := VNum (of_nat (length (bids res)))]>
  (<["topTradePairSlug" := VStr pairSlug]>
  (copy_field "spread" pair_fields
  (<["volume24h_USD" := VNum volume24h_USD]>
  (copy_field "volume24h_XLM" pair_fields
  (<["_numTradeRecords24h" := VNum (of_nat (length records))]>
  (copy_field "numTrades24h" pair_fields
  (<["price_USD" := VNum price_USD]>
  (<["price_XLM" := VNum price_XLM]>
  (<["change24h_USD" := value_of_change (snd changes)]>
  (<["change24h_XLM" := value_of_change (fst changes)]> asset))))))))))))).

(** *** The handlers of a pair *)

Definition read_pair (k : nat) : M object :=
  let* s := get in
  match pairs (doc s) !! k with
  | Some sp => ret (fields (snd sp))
  | None => throw (TypeError "Cannot read properties of undefined")
  end.

(** The part of the callback of [_.map] that runs at once: the asset of
    the pair is looked up and receives the slug.  Nothing guards the
    assignment when [_.find] found nothing. *)
Definition lookup_asset (pairSlug : string) (p : pair) : M (option nat) :=
  let assign (l : leg) : M (option nat) :=
    let* s := get in
    match _find (matches_leg l) (assets (doc s)) with
    | Some i =>
        update_asset i (<["topTradePairSlug" := VStr pairSlug]>)
        >> ret (Some i)
    | None =>
        throw (TypeError "Cannot set properties of undefined (setting 'topTradePairSlug')")
    end in
  if isNative (baseBuying p) then assign (counterSelling p)
  else if isNative (counterSelling p) then assign (baseBuying p)
  else ret None.

(** The handler of the trade aggregations. *)
Definition trades_handler (k : nat) (pairSlug : string) (p : pair)
    (asset : option nat) (res : orderbook) (records : list trade_record)
  : M unit :=
  let* prices := read_externalPrices in
  if isNative (baseBuying p) || isNative (counterSelling p) then
    match asset with
    | None => throw (TypeError "Cannot set properties of undefined")
    | Some i =>
        update_pair k (trades_pair_fields (isNative (baseBuying p)) records)
        >> let* pair_fields := read_pair k in
        update_asset i
          (trades_asset_fields (isNative (baseBuying p)) pairSlug res records
             prices pair_fields)
        >> modify (fun s =>
             set_lumenVolume
               (nadd (lumenVolumeXLM s) (get_number pair_fields "volume24h_XLM"))
               (nadd (lumenVolumeUSD s)
                  (niceRound (nmul (get_number pair_fields "volume24h_XLM")
                                (USD_XLM prices))))
               s)
    end
  else
    (* TODO: Add num trades for other trade pairs too *)
    ret tt.

(** The requests of a pair and their handlers. *)
Definition pair_requests (w : world) (k : nat) (pairSlug : string)
    (p : pair) (asset : option nat) : M unit :=
  catch_log ("Phase 3: request fails for pair: [object Object]; slug: " ++ pairSlug)
    (let* res := request (orderbook_call w (baseBuying p) (counterSelling p)) in
     let* pair_fields := read_pair k in
     match orderbook_fields (isNative (counterSelling p)) res pair_fields with
     | None => ret tt
     | Some pair_fields' =>
         update_pair k (fun _ => pair_fields')
         >> catch_log
              ("Phase 3: request fails during tradeAggregation request for pair: [object Object]; slug: "
               ++ pairSlug)
              (let* records :=
                 request (tradeAggregation_call w (baseBuying p) (counterSelling p)) in
               trades_handler k pairSlug p asset res records)
     end).

(** The callbacks of [_.map] run one after the other; one that throws
    ends the loop, and with it [phase3]. *)
Fixpoint map_pairs (k : nat) (l : list (string * pair))
  : M (list (nat * string * pair * option nat)) :=
  match l with
  | [] => ret []
  | sp :: rest =>
      let* asset := lookup_asset (fst sp) (snd sp) in
      let* others := map_pairs (S k) rest in
      ret ((k, fst sp, snd sp, asset) :: others)
  end.

Definition directory_pairs_copy (d : option directory_t)
  : list (string * pair) :=
  match d with
  | Some d =>
      map (fun entry => (fst entry,
                         mkPair (fst (snd entry)) (snd (snd entry)) ∅))
          (directory_pairs d)
  | None => []
  end.

Definition phase3 (w : world) : M unit :=
  StepLogger_log (nl ++ "Starting Phase 3")
  >> modify (fun s => set_doc (set_pairs (fun _ => directory_pairs_copy (directory s))) s)
  >> modify (set_lumenVolume (Fin 0%Q) (Fin 0%Q))
  >> let* s := get in
  let* started := map_pairs 0 (pairs (doc s)) in
  Promise_all_M
    (map (fun t =>
            match t with
            | (k, pairSlug, p, asset) => pair_requests w k pairSlug p asset
            end) started)
  >> StepLogger_log "Phase 3: all requests succeeded"
  >> let* s := get in
  match assets (doc s) with
  | [] => throw (TypeError "Cannot set properties of undefined (setting 'volume24h_XLM')")
  | _ :: _ =>
      update_asset 0
        (fun asset =>
           <["volume24h_USD" := VNum (niceRound (lumenVolumeUSD s))]>
           (<["volume24h_XLM" := VNum (niceRound (lumenVolumeXLM s))]> asset))
  end.

End Phase3.

(** ** Phase 4: the activity score *)

Definition radd : rnumber -> rnumber -> rnumber := lift2 Rplus.
Definition rsub : rnumber -> rnumber -> rnumber := lift2 Rminus.
Definition rmul : rnumber -> rnumber -> rnumber := lift2 Rmult.

Definition rdiv (x y : rnumber) : rnumber :=
  match x, y with
  | Fin a, Fin b => if Req_dec_T b 0 then NaN else Fin (a / b)%R
  | _, _ => NaN
  end.

Definition Math_min_r (x y : rnumber) : rnumber :=
  match x, y with
  | Fin a, Fin b => if Rle_dec a b then Fin a else Fin b
  | _, _ => NaN
  end.

(** [Math.log]; the logarithm of a number that is not positive is not
    finite. *)
Definition Math_log (x : rnumber) : rnumber :=
  match x with
  | Fin a => if Rlt_dec 0 a then Fin (ln a) else NaN
  | NaN => NaN
  end.

(** [Math.pow(x, 3)] *)
Definition Math_pow3 (x : rnumber) : rnumber :=
  lift1 (fun a => a ^ 3)%R x.

(** [x > 0] *)
Definition positive_r (x : rnumber) : bool :=
  match x with
  | Fin a => if Rlt_dec 0 a then true else false
  | NaN => false
  end.

Definition round_R (precision : nat) (r : R) : R :=
  (IZR (Zfloor (r * IZR (pow10 precision) + / 2)) / IZR (pow10 precision))%R.

Definition _round_r (x : rnumber) (precision : nat) : rnumber :=
  lift1 (round_R precision) x.

(** The value of a field in the arithmetic of the score. *)
Definition to_real (v : option value) : rnumber :=
  match v with
  | Some (VNum (Fin q)) => Fin (Q2R q)
  | Some (VReal r) => r
  | Some VNull => Fin 0%R
  | _ => NaN
  end.

Definition is_native_id (asset : object) : bool :=
  match asset !! "id" with
  | Some (VStr id) => String.eqb id "XLM-native"
  | _ => false
  end.

Definition is_undefined (v : option value) : bool :=
  match v with
  | None => true
  | Some _ => false
  end.

(** The score of an asset that has order book information relating to XLM. *)
Definition market_score (asset : object) : rnumber :=
  let field k := to_real (asset !! k) in
  let numOffersScore :=
    rdiv (radd (field "numBids") (field "numAsks")) (Fin 20%R) in
  let constantActivityBonus :=
    rdiv (Math_min_r (Fin 12%R) (field "_numTradeRecords24h")) (Fin 24%R) in
  let nonzeroVolumeBonus :=
    Math_min_r (Fin 1%R) (rdiv (field "volume24h_USD") (Fin 100%R)) in
  let bonuses :=
    radd (radd numOffersScore constantActivityBonus) nonzeroVolumeBonus in
  let depth10Score :=
    rmul (Fin (5 / 10)%R)
      (rsub (rdiv (Math_log (radd (Fin 2%R) (field "depth10_USD")))
                  (Math_log (Fin 2%R)))
            (Fin 1%R)) in
  let depth10Score :=
    radd depth10Score
      (Math_min_r (Fin 10%R) (rdiv (field "depth10_USD") (Fin 10000%R))) in
  let volumeScore :=
    rsub (rdiv (Math_log (radd (Fin 4%R) (field "volume24h_USD")))
               (Math_log (Fin 4%R)))
         (Fin 1%R) in
  let numTradesScore :=
    rsub (rdiv (Math_log (radd (Fin 4%R) (field "numTrades24h")))
               (Math_log (Fin 4%R)))
         (Fin 1%R) in
  let numTradesScore :=
    radd numTradesScore
      (Math_min_r (Fin 7%R) (rdiv (field "_numTradeRecords24h") (Fin 8%R))) in
  let spreadPenalty := Math_pow3 (rsub (Fin 1%R) (field "spread")) in
  rmul spreadPenalty
    (radd (radd (radd bonuses depth10Score) volumeScore) numTradesScore).

(** The score that the first loop assigns to an asset. *)
Definition score (asset : object) : rnumber :=
  if is_native_id asset then Fin 100%R
  else if is_undefined (asset !! "price_XLM") then Fin 0%R
  else market_score asset.

Definition assign_score (asset : object) : object :=
  <["activityScore" := VReal (score asset)]> asset.

(** [(a, b) => b.activityScore - a.activityScore] is positive. *)
Definition by_score_gt (a b : object) : bool :=
  positive_r (rsub (to_real (b !! "activityScore"))
                   (to_real (a !! "activityScore"))).

Definition round_score (asset : object) : object :=
  <["activityScore" := VReal (_round_r (to_real (asset !! "activityScore")) 3)]>
  asset.

Definition phase4_assets (assets : list object) : list object :=
  map round_score (Array_sort by_score_gt (map assign_score assets)).

Definition phase4 : M unit :=
  StepLogger_log (nl ++ "Starting Phase 4")
  >> modify (set_doc (set_assets phase4_assets))
  >> StepLogger_log "Phase 4: complete".

(** ** The generator *)

(** What is given to [JSON.stringify]: the ticker, the status record
    [{tickerState, error}], or an error. *)
Inductive json : Type :=
  | JTicker (t : ticker)
  | JState (tickerState : string) (error : option error)
  | JError (e : error).

(** [StepLogger.getLogHistory()]: the messages, without the requests and the
    timers that the trace also records. *)
Definition getLogHistory (trace : list event) : list event :=
  List.filter (fun e => match e with
                        | Log _ | LogError _ => true
                        | _ => false
                        end) trace.

Record output : Type := mkOutput {
  files : gmap string string;
  log : list event
}.

Section Generator.
Variable niceRound : number -> number.
(** [utils/hide-cmc-key] *)
Variable hideCMCKey : string -> string.
(** [JSON.stringify] *)
Variable JSON_stringify : json -> string.

Definition initial_state (w : world) : state :=
  {| doc := {| _meta := {| start := now w; apiLicense := "Apache-2.0";
                           horizon := None; stellarTermVersion := None;
                           externalPrices := None; build_id := None |};
               assets := []; pairs := [] |};
     directory := None;
     lumenVolumeXLM := Fin 0%Q; lumenVolumeUSD := Fin 0%Q;
     cmc_calls := 0; trace := [] |}.

Definition tickerDataGenerator (w : world) : M string :=
  phase1 w
  >> loadAssets w
  >> phase3 niceRound w
  >> phase4
  >> let* s := get in
  ret (JSON_stringify (JTicker (doc s))).

(** The promise of [tickerGenerator] is resolved with an output when the
    generation is settled, whether it was resolved or rejected. *)
Definition tickerGenerator (w : world) : promise output :=
  match tickerDataGenerator w (initial_state w) with
  | (Resolved ticker, s) =>
      Resolved
        {| files :=
             <["v1/ticker.json" := ticker]>
             (<["v1/ticker-state.json" :=
                  JSON_stringify (JState "Ticker successfully generated" None)]> ∅);
           log := getLogHistory
                    (trace s ++ [Log (nl ++ "Ticker generation succeeded")]) |}
  | (Rejected e, s) =>
      Resolved
        {| files :=
             <["v1/ticker-state.json" :=
                 hideCMCKey (JSON_stringify
                               (JState "Ticker generation failed" (Some e)))]> ∅;
           log := getLogHistory
                    (trace s ++ [LogError "Ticker generation failed";
                                 Log (JSON_stringify (JError e))]) |}
  | (Pending, _) => Pending
  end.
End Generator.

(** ** In the words of the specification *)

(** The sum and the arithmetic mean of a list of numbers. *)
Definition total (values : list number) : number :=
  fold_right nadd (Fin 0%Q) values.

Definition arithmetic_mean (values : list number) : number :=
  ndiv (total values) (of_nat (length values)).

(** The values of the sources that answered. *)
Definition source_values (after : number -> number)
    (fetched : list (response number)) : list number :=
  flat_map (fun r => match r with
                     | Answer raw => [after raw]
                     | Failure _ => []
                     end) fetched.

(** The offers within ten percent of the price of the pair, and the sum of
    their amounts. *)
Definition within_10_percent_below (pair_price : number) (bid : offer) : bool :=
  nge (ndiv (Number7 (price bid)) pair_price) (Fin 0.9%Q).

Definition within_10_percent_above (pair_price : number) (ask : offer) : bool :=
  nle (ndiv (Number7 (price ask)) pair_price) (Fin 1.1%Q).

Definition band_sum (in_band : offer -> bool) (offers : list offer) : number :=
  total (map (fun o => Number7 (amount o)) (List.filter in_band offers)).

(** A fatal failure: one of the phases is rejected with [e], the phases
    before it having been resolved. *)
Definition fatal_failure (niceRound : number -> number) (w : world)
    (e : error) : Prop :=
  exists s,
    phase1 w (initial_state w) = (Rejected e, s)
    \/ exists s1,
         phase1 w (initial_state w) = (Resolved tt, s1)
         /\ (loadAssets w s1 = (Rejected e, s)
             \/ exists s2,
                  loadAssets w s1 = (Resolved tt, s2)
                  /\ (phase3 niceRound w s2 = (Rejected e, s)
                      \/ exists s3,
                           phase3 niceRound w s2 = (Resolved tt, s3)
                           /\ phase4 s3 = (Rejected e, s))).

(** The promise [p] is resolved with an output whose only file is the
    status record of a failure with the error [e], after [hideCMCKey]. *)
Definition only_status (hideCMCKey : string -> string)
    (JSON_stringify : json -> string) (e : error) (p : promise output)
  : Prop :=
  exists out,
    p = Resolved out
    /\ files out
       = {[ "v1/ticker-state.json" :=
              hideCMCKey (JSON_stringify
                            (JState "Ticker generation failed" (Some e))) ]}
    /\ files out !! "v1/ticker.json" = None.

(** A pair with a native leg whose other leg has the code and issuer of
    none of the assets. *)
Definition dangling (legs : leg * leg) (assets : list object) : Prop :=
  (isNative (fst legs) = true
   /\ _find (matches_leg (snd legs)) assets = None)
  \/ (isNative (fst legs) = false
      /\ isNative (snd legs) = true
      /\ _find (matches_leg (fst legs)) assets = None).

(** The error of an assignment to a field of [undefined]. *)
Definition no_asset : error :=
  TypeError "Cannot set properties of undefined (setting 'topTradePairSlug')".

(** ** Notions used in the proofs *)

Definition is_digit (c : ascii) : bool :=
  (N.leb 48 (N_of_ascii c) && N.leb (N_of_ascii c) 57)%bool.

Fixpoint only_digits (s : string) : bool :=
  match s with
  | EmptyString => true
  | String c rest => is_digit c && only_digits rest
  end.

(** The letter of the exponent notation does not occur in [s]. *)
Fixpoint no_exponent (s : string) : bool :=
  match s with
  | EmptyString => true
  | String c rest => negb (Ascii.eqb c "e") && no_exponent rest
  end.

(** Nothing, or a point followed by digits. *)
Definition fraction_part (s : string) : Prop :=
  s = EmptyString \/ exists rest, s = String "."%char rest /\ only_digits rest = true.

(** What the i-th retry leaves in the trace, together with the request that
    it answers to: the request, the report, and the second of delay. *)
Definition retry_events (i : nat) : list event :=
  [ CmcRequest;
    LogError ("Coinmarketcap missing response: retry attempt " ++ pretty i);
    Timeout 1000 ].

(** The state [s] after [calls] more requests and [events] more events. *)
Definition later (s : state) (calls : nat) (events : list event) : state :=
  {| doc := doc s; directory := directory s;
     lumenVolumeXLM := lumenVolumeXLM s; lumenVolumeUSD := lumenVolumeUSD s;
     cmc_calls := cmc_calls s + calls; trace := trace s ++ events |}.

(** ** Inputs of the examples *)

(** A source that answers [q], and a source that cannot be reached. *)
Definition answers (q : Q) : response number := Answer (Fin q).
Definition unreachable {A : Type} : response A :=
  Failure (RequestError "ECONNREFUSED").

(** Reference prices 100, 102 and two failures; rates 0.00011, 0.00009 and
    0.0001. *)
Definition example_feeds : price_feeds :=
  {| btc_coindesk := answers 100; btc_bitfinex := answers 102;
     btc_coinbase := unreachable; btc_kraken := unreachable;
     xlm_poloniex := answers 0.00011; xlm_bittrex := answers 0.00009;
     xlm_kraken := answers 0.0001 |}.


(** Seven buckets, newest first; the three oldest close at 101, 100 and 99,
    the oldest last. *)
Definition bucket (c : decimal7) : trade_record :=
  {| close := c; base_volume := 10000000; counter_volume := 1000000000;
     trade_count := 1 |}.

Definition example_records : list trade_record :=
  map bucket [1005000000; 1004000000; 1003000000; 1002000000;
              1010000000; 1000000000; 990000000]%N.

(** Prices that did not move in the last 24 hours. *)
Definition steady_prices : ExternalPrices :=
  {| USD_BTC := Fin 101%Q; BTC_XLM := Fin 0.0001%Q; USD_XLM := Fin 0.0101%Q;
     USD_XLM_24hAgo := Some (Fin 0.0101%Q); USD_XLM_change := None |}.

(** An order book with 500 on the bid side and 300 on the ask side within
    ten percent of the price, and more outside of the band. *)
Definition example_book : orderbook :=
  {| bids := [ {| price := 10000000; amount := 5000000000 |};
               {| price := 8000000; amount := 70000000 |} ];
     asks := [ {| price := 10100000; amount := 3000000000 |};
               {| price := 12000000; amount := 10000000000 |} ] |}.

(** A world in which everything answers, but for the two parameters: the
    quote API and the pairs of the directory.  The directory lists one
    asset, USD of the anchor [example.com]. *)
Definition example_issuer : string :=
  "GDUKMGUGDZQK6YHYA5Z6AY2G4XDSZPSZ3SW5UN3ARVMO6QSRDWP5YLEX".

Definition example_world (cmc : nat -> response cmc_json)
    (listed : list (string * (leg * leg))) : world :=
  {| HORIZON_SERVER := "https://horizon.stellar.org";
     now := 1500000000;
     horizonMain :=
       Answer {| core_latest_ledger := 20000000;
                   network_passphrase := "Public Global Stellar Network ; September 2015" |};
     stellarterm_version := Answer (Some "150");
     feeds := example_feeds;
     coinmarketcap := cmc;
     initializeIssuerOrgs :=
       Answer {| buildID := "build";
                   directory_assets :=
                     [("USD-example.com",
                       {| asset_code := "USD"; asset_issuer := example_issuer;
                          asset_domain := "example.com" |})];
                   anchors := {["example.com" := "https://example.com"]};
                   directory_pairs := listed |};
     orderbook_call := fun _ _ => Answer example_book;
     tradeAggregation_call := fun _ _ => Answer example_records |}.

(** A quote API whose answers never list XLM. *)
Definition never_listed (n : nat) : response cmc_json :=
  Answer {| cmc_data := Some None; cmc_text := "{}" |}.

(** A quote API that answers with a change of 5 percent. *)
Definition quoted (n : nat) : response cmc_json :=
  Answer {| cmc_data := Some (Some (quote_USD (Fin 5%Q))); cmc_text := "{...}" |}.

(** The pair of the listed asset, and a pair of an asset that the directory
    does not list. *)
Definition listed_pair : string * (leg * leg) :=
  ("USD-example.com/XLM-native",
   ({| code := "USD"; issuer := Some example_issuer |},
    {| code := "XLM"; issuer := None |})).

Definition dangling_pair : string * (leg * leg) :=
  ("EUR-example.com/XLM-native",
   ({| code := "EUR"; issuer := Some example_issuer |},
    {| code := "XLM"; issuer := None |})).

(** The quote API cannot be reached. *)
Definition quote_api_down (n : nat) : response cmc_json := unreachable.

(** A quote API whose first answer does not list XLM and which cannot be
    reached afterwards. *)
Definition quote_api_lost (n : nat) : response cmc_json :=
  match n with
  | O => Answer {| cmc_data := Some None; cmc_text := "{}" |}
  | S _ => unreachable
  end.

(** The Horizon root cannot be reached. *)
Definition horizon_down : world :=
  {| HORIZON_SERVER := "https://horizon.stellar.org";
     now := 1500000000;
     horizonMain := unreachable;
     stellarterm_version := Answer (Some "150");
     feeds := example_feeds;
     coinmarketcap := quoted;
     initializeIssuerOrgs := unreachable;
     orderbook_call := fun _ _ => unreachable;
     tradeAggregation_call := fun _ _ => unreachable |}.

(** An asset with a market of extraordinary depth, 2^200 - 2 dollars, no
    spread, and nothing else. *)
Definition deep_asset : object :=
  <["id" := VStr "USD-example.com"]>
  (<["price_XLM" := VNum (Fin 1%Q)]>
  (<["numBids" := VNum (Fin 0%Q)]>
  (<["numAsks" := VNum (Fin 0%Q)]>
  (<["_numTradeRecords24h" := VNum (Fin 0%Q)]>
  (<["volume24h_USD" := VNum (Fin 0%Q)]>
  (<["depth10_USD" := VNum (Fin (inject_Z (2 ^ 200 - 2)))]>
  (<["numTrades24h" := VNum (Fin 0%Q)]>
  (<["spread" := VNum (Fin 0%Q)]> ∅)))))))).

(** An asset without a price. *)
Definition unpriced_asset : object :=
  <["id" := VStr "EUR-example.com"]> (<["code" := VStr "EUR"]> ∅).

(** ** Notions of the further properties *)

(** The answer to the n-th request does not list XLM. *)
Definition missing_XLM (w : world) (n : nat) : Prop :=
  exists j, coinmarketcap w n = Answer j /\ cmc_data j = Some None.

(** What phase 1 leaves in [ticker._meta.stellarTermVersion]. *)
Definition version_value (w : world) : value :=
  match stellarterm_version w with
  | Answer (Some version) => VStr version
  | _ => VNum (Fin (-1)%Q)
  end.

(** The price of 24 hours ago and the change that phase 1 derives from the
    body of the quote API, [None] standing for [undefined]. *)
Definition quote_24hAgo (USD_XLM : number) (j : cmc_json) : number :=
  match cmc_data j with
  | Some (Some (quote_USD percent_change_24h)) =>
      _round
        (nmul (ndiv (Fin 1%Q)
                 (nadd (Fin 1%Q) (ndiv percent_change_24h (Fin 100%Q))))
           USD_XLM) 6
  | _ => USD_XLM
  end.

(** What the handler of phase 1 makes of the body that the quote request
    was resolved with: reading the entry of a body without [data], or the
    change of an entry without [quote.USD], throws. *)
Definition quote_handler (j : cmc_json) : promise unit :=
  match cmc_data j with
  | None =>
      Rejected (TypeError "Cannot read properties of undefined (reading 'XLM')")
  | Some (Some no_quote) =>
      Rejected (TypeError "Cannot read properties of undefined (reading 'USD')")
  | Some (Some no_USD) =>
      Rejected (TypeError "Cannot read properties of undefined (reading 'percent_change_24h')")
  | Some None | Some (Some (quote_USD _)) => Resolved tt
  end.

Definition quote_change (j : cmc_json) : option number :=
  match cmc_data j with
  | Some (Some (quote_USD percent_change_24h)) =>
      Some (_round percent_change_24h 6)
  | _ => None
  end.

(** The directory knows the anchor of the domain of an asset. *)
Definition has_anchor (d : directory_t) (entry : string * directory_asset)
  : bool :=
  match anchors d !! asset_domain (snd entry) with
  | Some _ => true
  | None => false
  end.

(** The entries of the assets of the directory, in its order. *)
Definition listed_assets (d : directory_t) : list object :=
  map (fun entry =>
         directory_entry
           (default "" (anchors d !! asset_domain (snd entry)))
           (fst entry) (snd entry))
      (directory_assets d).

(** The body of the loop of [loadAssets] over the assets of the directory. *)
Definition push_entry (d : directory_t) (entry : string * directory_asset)
  : M unit :=
  match anchors d !! asset_domain (snd entry) with
  | Some website =>
      modify (set_doc (set_assets (fun l =>
        l ++ [directory_entry website (fst entry) (snd entry)])))
  | None =>
      throw (TypeError "Cannot read properties of undefined (reading 'website')")
  end.

(** [m], started in a state that satisfies [I], is resolved, with a value
    and in a state that satisfy [Q]. *)
Definition ensures {A} (I : state -> Prop) (m : M A)
    (Q : A -> state -> Prop) : Prop :=
  forall s, I s -> exists a s', m s = (Resolved a, s') /\ Q a s'.

(** Whatever the state, [m] is settled. *)
Definition settles {A} (m : M A) : Prop :=
  forall s, fst (m s) <> Pending.

(** The slug and the legs of the pairs of the ticker, and the ids of its
    assets. *)
Definition pair_legs (ps : list (string * pair))
  : list (string * (leg * leg)) :=
  map (fun sp => (fst sp, (baseBuying (snd sp), counterSelling (snd sp)))) ps.

Definition asset_ids (assets : list object) : list (option value) :=
  map (fun asset => asset !! "id") assets.

(** What the handlers of phase 3 keep: [ticker._meta], the pairs of the
    directory, and the assets, in their order. *)
Definition ready (m : meta) (dp : list (string * (leg * leg)))
    (ids : list (option value)) (s : state) : Prop :=
  _meta (doc s) = m
  /\ pair_legs (pairs (doc s)) = dp
  /\ asset_ids (assets (doc s)) = ids.

(** [ready], and the legs that [_.find] finds among the assets are those
    that it finds among [assets0]. *)
Definition ready_finds (m : meta) (dp : list (string * (leg * leg)))
    (ids : list (option value)) (assets0 : list object) (s : state) : Prop :=
  ready m dp ids s
  /\ forall l, _find (matches_leg l) (assets (doc s))
               = _find (matches_leg l) assets0.

(** The checks of [new StellarSdk.Asset(code, issuer)]: the code is made
    of 1 to 12 letters and digits, a leg without issuer has the code of the
    native asset in any case of the letters, and an issuer is a valid public
    key.  [isValidEd25519PublicKey] is [StrKey.isValidEd25519PublicKey] of
    the SDK.  The model takes the constructor to accept the legs of the
    directory; a statement that a run succeeds asks for it. *)
Definition alphanumeric (c : ascii) : bool :=
  let n := N_of_ascii c in
  ((48 <=? n) && (n <=? 57) || (65 <=? n) && (n <=? 90)
   || (97 <=? n) && (n <=? 122))%N.

Fixpoint all_alphanumeric (s : string) : bool :=
  match s with
  | EmptyString => true
  | String c rest => alphanumeric c && all_alphanumeric rest
  end.

Definition valid_code (s : string) : bool :=
  all_alphanumeric s
  && (1 <=? String.length s)%nat && (String.length s <=? 12)%nat.

Definition lower (c : ascii) : ascii :=
  let n := N_of_ascii c in
  if ((65 <=? n) && (n <=? 90))%N then ascii_of_N (n + 32) else c.

Fixpoint toLowerCase (s : string) : string :=
  match s with
  | EmptyString => EmptyString
  | String c rest => String (lower c) (toLowerCase rest)
  end.

Definition Asset_accepts (isValidEd25519PublicKey : string -> bool) (l : leg)
  : bool :=
  valid_code (code l)
  && match issuer l with
     | None => String.eqb (toLowerCase (code l)) "xlm"
     | Some i => negb (String.eqb i "") && isValidEd25519PublicKey i
     end.

(** A pair of the directory is served: the asset of its other leg is
    listed, and Horizon answers the two requests for it. *)
Definition served (w : world) (assets : list object) (legs : leg * leg)
  : Prop :=
  ~ dangling legs assets
  /\ (exists res, orderbook_call w (fst legs) (snd legs) = Answer res)
  /\ (exists records,
        tradeAggregation_call w (fst legs) (snd legs) = Answer records).

(** The score of [a] is a number, and no less than the score of [b]. *)
Definition score_ge (a b : object) : Prop :=
  exists x y,
    a !! "activityScore" = Some (VReal (Fin x))
    /\ b !! "activityScore" = Some (VReal (Fin y))
    /\ (y <= x)%R.

(** What phase 4 leaves of an asset: the asset with its rounded score. *)
Definition scored (asset : object) : object :=
  round_score (assign_score asset).

(** The directory lists an asset with the code and the issuer of the leg;
    the native asset is listed in any case. *)
Definition leg_listed (d : directory_t) (l : leg) : bool :=
  match issuer l with
  | None => String.eqb "XLM" (code l)
  | Some i =>
      existsb (fun entry =>
                 String.eqb (asset_code (snd entry)) (code l)
                 && String.eqb i (asset_issuer (snd entry)))
        (directory_assets d)
  end.

(** The asset that phase 3 looks up for a pair is listed. *)
Definition pair_listed (d : directory_t) (legs : leg * leg) : bool :=
  if isNative (fst legs) then leg_listed d (snd legs)
  else if isNative (snd legs) then leg_listed d (fst legs)
  else true.

(** ** Further inputs *)

(** A quote API that lists XLM from its third answer on. *)
Definition listed_late (n : nat) : response cmc_json :=
  if (n <? 2)%nat then never_listed n else quoted n.

(** A second asset without a price. *)
Definition unpriced_asset' : object :=
  <["id" := VStr "GBP-example.com"]> (<["code" := VStr "GBP"]> ∅).

(** An asset with one bid, one ask far from it, and no trades: a spread
    of 1. *)
Definition wide_asset : object :=
  <["id" := VStr "USD-example.com"]>
  (<["price_XLM" := VNum (Fin 1%Q)]>
  (<["numBids" := VNum (Fin 1%Q)]>
  (<["numAsks" := VNum (Fin 1%Q)]>
  (<["_numTradeRecords24h" := VNum (Fin 0%Q)]>
  (<["volume24h_USD" := VNum (Fin 0%Q)]>
  (<["depth10_USD" := VNum (Fin 0%Q)]>
  (<["numTrades24h" := VNum (Fin 0%Q)]>
  (<["spread" := VNum (Fin 1%Q)]> ∅)))))))).

(** Horizon cannot be reached for the order books. *)
Definition order_books_down : world :=
  {| HORIZON_SERVER := "https://horizon.stellar.org";
     now := 1500000000;
     horizonMain := horizonMain (example_world quoted [listed_pair]);
     stellarterm_version := Answer (Some "150");
     feeds := example_feeds;
     coinmarketcap := quoted;
     initializeIssuerOrgs := initializeIssuerOrgs (example_world quoted [listed_pair]);
     orderbook_call := fun _ _ => unreachable;
     tradeAggregation_call := fun _ _ => Answer example_records |}.

(** A pair of two issued assets, without a native leg. *)
Definition cross_pair : pair :=
  {| baseBuying := {| code := "USD"; issuer := Some example_issuer |};
     counterSelling := {| code := "EUR"; issuer := Some example_issuer |};
     fields := ∅ |}.

(** An order book without asks. *)
Definition one_sided_book : orderbook :=
  {| bids := [ {| price := 10000000; amount := 5000000000 |} ]; asks := [] |}.

(** A world whose order books have no asks. *)
Definition one_sided_world : world :=
  {| HORIZON_SERVER := "https://horizon.stellar.org";
     now := 1500000000;
     horizonMain := horizonMain (example_world quoted [listed_pair]);
     stellarterm_version := Answer (Some "150");
     feeds := example_feeds;
     coinmarketcap := quoted;
     initializeIssuerOrgs := initializeIssuerOrgs (example_world quoted [listed_pair]);
     orderbook_call := fun _ _ => Answer one_sided_book;
     tradeAggregation_call := fun _ _ => Answer example_records |}.

(** A state whose ticker has the one pair [sp]. *)
Definition state_with_pair (w : world) (sp : string * pair) : state :=
  set_doc (set_pairs (fun _ => [sp])) (initial_state w).

(** * Properties *)

(** ** Numbers *)

Lemma num_eq_refl (x : number) : x =n= x.
Proof. destruct x; simpl; [exact I | reflexivity]. Qed.

Lemma num_eq_sym (x y : number) : x =n= y -> y =n= x.
Proof. destruct x, y; simpl; auto. intros H; symmetry; exact H. Qed.

Lemma num_eq_trans (x y z : number) : x =n= y -> y =n= z -> x =n= z.
Proof.
  destruct x, y, z; simpl; try tauto.
  intros H1 H2. rewrite H1. exact H2.
Qed.

#[global] Instance num_eq_equivalence : Equivalence num_eq.
Proof.
  split.
  - exact num_eq_refl.
  - exact num_eq_sym.
  - exact num_eq_trans.
Qed.

Lemma eq_num_eq (x y : number) : x = y -> x =n= y.
Proof. intros ->. reflexivity. Qed.

#[global] Instance nadd_proper : Proper (num_eq ==> num_eq ==> num_eq) nadd.
Proof.
  intros [|a] [|b] Hab [|c] [|d] Hcd; simpl in *; try tauto.
  rewrite Hab, Hcd. reflexivity.
Qed.

Lemma nadd_0_r (x : number) : nadd x (Fin 0%Q) =n= x.
Proof. destruct x; simpl; [exact I | ring]. Qed.

Lemma nadd_0_l (x : number) : nadd (Fin 0%Q) x =n= x.
Proof. destruct x; simpl; [exact I | ring]. Qed.

Lemma nadd_assoc (x y z : number) : nadd (nadd x y) z =n= nadd x (nadd y z).
Proof. destruct x, y, z; simpl; try exact I. ring. Qed.

Lemma Qeq_bool_proper (a b c : Q) : (a == b)%Q -> Qeq_bool a c = Qeq_bool b c.
Proof.
  intros H. destruct (Qeq_bool a c) eqn:E1, (Qeq_bool b c) eqn:E2; auto.
  - apply Qeq_bool_iff in E1. apply Qeq_bool_neq in E2.
    exfalso. apply E2. rewrite <- H. exact E1.
  - apply Qeq_bool_iff in E2. apply Qeq_bool_neq in E1.
    exfalso. apply E1. rewrite H. exact E2.
Qed.

#[global] Instance ndiv_proper : Proper (num_eq ==> num_eq ==> num_eq) ndiv.
Proof.
  intros [|a] [|b] Hab [|c] [|d] Hcd; simpl in *; try tauto.
  rewrite (Qeq_bool_proper c d 0 Hcd).
  destruct (Qeq_bool d 0); simpl; [exact I |].
  rewrite Hab, Hcd. reflexivity.
Qed.

Lemma Qle_bool_proper (a b c d : Q) :
  (a == b)%Q -> (c == d)%Q -> Qle_bool a c = Qle_bool b d.
Proof.
  intros H1 H2.
  destruct (Qle_bool a c) eqn:E1, (Qle_bool b d) eqn:E2; auto.
  - apply Qle_bool_iff in E1. rewrite H1, H2 in E1.
    apply Qle_bool_iff in E1. congruence.
  - apply Qle_bool_iff in E2. rewrite <- H1, <- H2 in E2.
    apply Qle_bool_iff in E2. congruence.
Qed.

#[global] Instance Math_min_proper :
  Proper (num_eq ==> num_eq ==> num_eq) Math_min.
Proof.
  intros [|a] [|b] Hab [|c] [|d] Hcd; simpl in *; try tauto.
  rewrite (Qle_bool_proper a b c d Hab Hcd).
  destruct (Qle_bool b d); simpl; assumption.
Qed.

Lemma round_Q_proper (p : nat) (a b : Q) :
  (a == b)%Q -> round_Q p a = round_Q p b.
Proof.
  intros H. unfold round_Q.
  assert (Hf : Qfloor (a * inject_Z (pow10 p) + (1 # 2))
               = Qfloor (b * inject_Z (pow10 p) + (1 # 2))).
  { apply Qfloor_comp. rewrite H. reflexivity. }
  rewrite Hf. reflexivity.
Qed.

Lemma _round_proper (p : nat) (x y : number) :
  x =n= y -> _round x p = _round y p.
Proof.
  destruct x, y; simpl; try tauto.
  intros H. f_equal. apply round_Q_proper. exact H.
Qed.

(** ** Lodash helpers against the plain sum and mean *)

Lemma baseSum_from {A} (iteratee : A -> number) (array : list A) (acc : number) :
  exists r,
    fold_left
      (fun result x =>
         match result with
         | None => Some (iteratee x)
         | Some r => Some (nadd r (iteratee x))
         end) array (Some acc) = Some r
    /\ r =n= nadd acc (total (map iteratee array)).
Proof.
  revert acc. induction array as [|x rest IH]; intros acc; simpl.
  - exists acc. split; [reflexivity |]. symmetry. apply nadd_0_r.
  - destruct (IH (nadd acc (iteratee x))) as (r & Hr & Heq).
    exists r. split; [exact Hr |].
    rewrite Heq. apply nadd_assoc.
Qed.

Lemma _sumBy_total {A} (iteratee : A -> number) (array : list A) :
  _sumBy array iteratee =n= total (map iteratee array).
Proof.
  destruct array as [|x rest]; [reflexivity |].
  unfold _sumBy, baseSum. simpl fold_left.
  destruct (baseSum_from iteratee rest (iteratee x)) as (r & Hr & Heq).
  rewrite Hr. exact Heq.
Qed.

Lemma _mean_arithmetic (array : list number) :
  _mean array =n= arithmetic_mean array.
Proof.
  destruct array as [|x rest]; [reflexivity |].
  unfold _mean, arithmetic_mean, baseSum. simpl fold_left.
  destruct (baseSum_from (fun y => y) rest x) as (r & Hr & Heq).
  rewrite Hr. apply ndiv_proper; [| reflexivity].
  rewrite Heq. simpl. rewrite map_id. reflexivity.
Qed.

Lemma filter_not_null_sources (after : number -> number)
    (fetched : list (response number)) :
  exists allPrices,
    Promise_all (map (price_source after) fetched) = Resolved allPrices
    /\ filter_not_null allPrices = source_values after fetched.
Proof.
  induction fetched as [|p rest (l & Hl & Heq)]; simpl.
  - exists []. split; reflexivity.
  - destruct p as [raw | e]; simpl; rewrite Hl; simpl.
    + exists (Some (after raw) :: l). split; [reflexivity |].
      simpl. rewrite Heq. reflexivity.
    + exists (None :: l). split; [reflexivity |]. simpl. exact Heq.
Qed.

Lemma getBtcPrice_mean (coindesk bitfinex coinbase kraken : response number) :
  exists btcPrice,
    getBtcPrice coindesk bitfinex coinbase kraken = Resolved btcPrice
    /\ btcPrice
       = _round (_mean
                   (source_values (fun x => _round x 3)
                      [coindesk; bitfinex; coinbase; kraken])) 2.
Proof.
  unfold getBtcPrice.
  destruct (filter_not_null_sources (fun x => _round x 3)
              [coindesk; bitfinex; coinbase; kraken]) as (l & Hl & Heq).
  simpl map in Hl. rewrite Hl. simpl then_.
  eexists. split; [reflexivity |].
  rewrite Heq. reflexivity.
Qed.

Lemma getLumenPrice_mean (poloniex bittrex kraken : response number) :
  exists xlmPrice,
    getLumenPrice poloniex bittrex kraken = Resolved xlmPrice
    /\ xlmPrice
       = _round (_mean
                   (source_values (fun x => x) [poloniex; bittrex; kraken])) 8.
Proof.
  unfold getLumenPrice.
  destruct (filter_not_null_sources (fun x => x)
              [poloniex; bittrex; kraken]) as (l & Hl & Heq).
  simpl map in Hl. rewrite Hl. simpl then_.
  eexists. split; [reflexivity |].
  rewrite Heq. reflexivity.
Qed.

(** ** External prices *)

Lemma getExternalPrices_resolves (f : price_feeds) :
  exists btc xlm,
    getBtcPrice (btc_coindesk f) (btc_bitfinex f) (btc_coinbase f)
      (btc_kraken f) = Resolved btc
    /\ getLumenPrice (xlm_poloniex f) (xlm_bittrex f) (xlm_kraken f)
       = Resolved xlm
    /\ getExternalPrices f
       = Resolved {| USD_BTC := btc; BTC_XLM := xlm;
                     USD_XLM := _round (nmul btc xlm) 6;
                     USD_XLM_24hAgo := None; USD_XLM_change := None |}.
Proof.
  destruct (getBtcPrice_mean (btc_coindesk f) (btc_bitfinex f)
              (btc_coinbase f) (btc_kraken f)) as (btc & Hb & _).
  destruct (getLumenPrice_mean (xlm_poloniex f) (xlm_bittrex f)
              (xlm_kraken f)) as (xlm & Hx & _).
  exists btc, xlm. repeat split; try assumption.
  unfold getExternalPrices. simpl Promise_all. rewrite Hb, Hx. reflexivity.
Qed.





(** ** The strings of numbers *)

Lemma is_digit_digit (d : N) : (d < 10)%N -> is_digit (digit d) = true.
Proof.
  intros H. unfold is_digit, digit.
  rewrite N_ascii_embedding by lia.
  apply andb_true_intro. split; apply N.leb_le; lia.
Qed.

Lemma digit_inj (a b : N) : (a < 10)%N -> (b < 10)%N -> digit a = digit b -> a = b.
Proof.
  intros Ha Hb H. apply (f_equal N_of_ascii) in H. unfold digit in H.
  rewrite !N_ascii_embedding in H by lia. lia.
Qed.

Lemma only_digits_uint (d : Decimal.uint) :
  only_digits (NilEmpty.string_of_uint d) = true.
Proof. induction d; simpl; auto. Qed.

Lemma only_digits_integer (i : N) :
  only_digits (NilZero.string_of_uint (N.to_uint i)) = true.
Proof.
  unfold NilZero.string_of_uint.
  destruct (N.to_uint i); try reflexivity; apply (only_digits_uint (_ _)).
Qed.

Lemma pow10_succ (k : nat) :
  (10 ^ N.of_nat (S k) = 10 ^ N.of_nat k * 10)%N.
Proof. rewrite Nat2N.inj_succ, N.pow_succ_r'. lia. Qed.

Lemma pow10_nonzero (k : nat) : (10 ^ N.of_nat k)%N <> 0%N.
Proof. apply N.pow_nonzero. discriminate. Qed.

Lemma leading_digit (k : nat) (f : N) :
  (f < 10 ^ N.of_nat (S k))%N -> (f / 10 ^ N.of_nat k < 10)%N.
Proof.
  intros H. apply N.Div0.div_lt_upper_bound.
  rewrite pow10_succ in H. exact H.
Qed.

Lemma only_digits_fraction (k : nat) (f : N) :
  (f < 10 ^ N.of_nat k)%N -> only_digits (fraction_digits k f) = true.
Proof.
  revert f. induction k as [|k IH]; intros f Hf; [reflexivity |].
  simpl. destruct (N.eqb f 0); [reflexivity |]. simpl.
  rewrite is_digit_digit by (apply leading_digit; exact Hf).
  apply IH, N.mod_lt, pow10_nonzero.
Qed.

Lemma fraction_digits_inj (k : nat) (f g : N) :
  (f < 10 ^ N.of_nat k)%N -> (g < 10 ^ N.of_nat k)%N ->
  fraction_digits k f = fraction_digits k g -> f = g.
Proof.
  revert f g. induction k as [|k IH]; intros f g Hf Hg H.
  - simpl in Hf, Hg. lia.
  - simpl in H.
    destruct (N.eqb_spec f 0) as [-> | Hf0], (N.eqb_spec g 0) as [-> | Hg0];
      try reflexivity; try discriminate.
    injection H as Hd Hrest.
    apply digit_inj in Hd; try (apply leading_digit; assumption).
    apply IH in Hrest; try (apply N.mod_lt, pow10_nonzero).
    rewrite (N.div_mod f (10 ^ N.of_nat k)) by apply pow10_nonzero.
    rewrite (N.div_mod g (10 ^ N.of_nat k)) by apply pow10_nonzero.
    rewrite Hd, Hrest. reflexivity.
Qed.

Lemma integer_string_inj (a b : N) :
  NilZero.string_of_uint (N.to_uint a) = NilZero.string_of_uint (N.to_uint b) ->
  a = b.
Proof.
  intros H. apply (f_equal NilZero.uint_of_string) in H.
  assert (Hnil : forall n, N.to_uint n <> Decimal.Nil).
  { intros [|p]; [discriminate | apply DecimalPos.Unsigned.to_uint_nonnil]. }
  rewrite !NilZero.usu in H by apply Hnil.
  injection H as H. apply DecimalN.Unsigned.to_uint_inj. exact H.
Qed.

Lemma digits_then_fraction (s1 s2 t1 t2 : string) :
  only_digits s1 = true -> only_digits s2 = true ->
  fraction_part t1 -> fraction_part t2 ->
  (s1 ++ t1)%string = (s2 ++ t2)%string -> s1 = s2 /\ t1 = t2.
Proof.
  revert s2. induction s1 as [|c s1 IH]; intros [|c' s2] H1 H2 F1 F2 H; simpl in *.
  - split; [reflexivity | exact H].
  - exfalso. apply andb_prop in H2 as [Hc _].
    destruct F1 as [-> | (r & -> & _)]; [discriminate |].
    injection H as <- _. discriminate.
  - exfalso. apply andb_prop in H1 as [Hc _].
    destruct F2 as [-> | (r & -> & _)]; [discriminate |].
    injection H as -> _. discriminate.
  - apply andb_prop in H1 as [_ H1]. apply andb_prop in H2 as [_ H2].
    injection H as -> H. destruct (IH s2 H1 H2 F1 F2 H) as [-> ->].
    split; reflexivity.
Qed.

Lemma no_exponent_digits (s : string) :
  only_digits s = true -> no_exponent s = true.
Proof.
  induction s as [|c s IH]; [reflexivity |]. simpl.
  intros H. apply andb_prop in H as [Hc Hs]. rewrite (IH Hs), andb_true_r.
  destruct (Ascii.eqb_spec c "e") as [-> |]; [discriminate | reflexivity].
Qed.

Lemma no_exponent_app (s t : string) :
  no_exponent (s ++ t) = (no_exponent s && no_exponent t)%bool.
Proof.
  induction s as [|c s IH]; [reflexivity |]. simpl.
  rewrite IH, andb_assoc. reflexivity.
Qed.

Lemma no_exponent_fraction (t : string) :
  fraction_part t -> no_exponent t = true.
Proof.
  intros [-> | (r & -> & Hr)]; [reflexivity |]. simpl.
  apply no_exponent_digits. exact Hr.
Qed.

Lemma fraction_part_of (f : N) :
  (f < 10000000)%N ->
  fraction_part
    (if N.eqb f 0 then EmptyString else String "."%char (fraction_digits 7 f)).
Proof.
  intros Hf. destruct (N.eqb f 0); [left; reflexivity | right].
  eexists. split; [reflexivity |]. apply only_digits_fraction. exact Hf.
Qed.

(** Two numbers with the same string are the same number. *)
Lemma ToString_inj (u v : decimal7) : ToString u = ToString v -> u = v.
Proof.
  assert (Hmod : forall x : N, (x mod 10000000 < 10000000)%N)
    by (intros x; apply N.mod_lt; discriminate).
  assert (Hplain : forall x : N,
             no_exponent
               (NilZero.string_of_uint (N.to_uint (x / 10000000))
                ++ (if N.eqb (x mod 10000000) 0 then EmptyString
                    else String "."%char (fraction_digits 7 (x mod 10000000))))
             = true).
  { intros x. rewrite no_exponent_app.
    rewrite (no_exponent_digits _ (only_digits_integer _)).
    apply no_exponent_fraction, fraction_part_of, Hmod. }
  unfold ToString. intros H.
  destruct (N.ltb 0 u && N.ltb u 10)%bool eqn:Eu,
           (N.ltb 0 v && N.ltb v 10)%bool eqn:Ev.
  - apply andb_prop in Eu as [_ Eu]. apply andb_prop in Ev as [_ Ev].
    apply N.ltb_lt in Eu, Ev. injection H as H.
    apply digit_inj; assumption.
  - exfalso. apply (f_equal no_exponent) in H.
    rewrite Hplain in H. simpl in H. rewrite andb_false_r in H. discriminate.
  - exfalso. apply (f_equal no_exponent) in H.
    rewrite Hplain in H. simpl in H. rewrite andb_false_r in H. discriminate.
  - apply digits_then_fraction in H;
      try apply only_digits_integer; try apply fraction_part_of, Hmod.
    destruct H as [Hi Hf]. apply integer_string_inj in Hi.
    assert (Hf' : (u mod 10000000 = v mod 10000000)%N).
    { pose proof (Hmod u) as Hu. pose proof (Hmod v) as Hv.
      destruct (N.eqb_spec (u mod 10000000) 0) as [E1 | E1],
               (N.eqb_spec (v mod 10000000) 0) as [E2 | E2];
        try congruence; try discriminate.
      injection Hf as Hf. apply (fraction_digits_inj 7); assumption. }
    rewrite (N.div_mod u 10000000), (N.div_mod v 10000000) by discriminate.
    rewrite Hi, Hf'. reflexivity.
Qed.

(** ** The median of three *)

(** The second element of a sorted array of three does not depend on the
    order in which the three were given, as soon as the comparison is a
    total order. *)
Section SortOfThree.
Context {A : Type} (gt : A -> A -> bool).
Hypothesis gt_asym : forall x y, gt x y = true -> gt y x = false.
Hypothesis gt_trans :
  forall x y z, gt x y = true -> gt y z = true -> gt x z = true.
Hypothesis gt_tie : forall x y, gt x y = false -> gt y x = false -> x = y.

Lemma gt_irrefl (x : A) : gt x x = false.
Proof using gt_asym.
  destruct (gt x x) eqn:E; [| reflexivity].
  rewrite (gt_asym x x E) in E. discriminate.
Qed.

Ltac order_absurd :=
  match goal with
  | H : gt ?x ?x = true |- _ => rewrite gt_irrefl in H; discriminate
  | H1 : gt ?x ?y = true, H2 : gt ?y ?x = true |- _ =>
      rewrite (gt_asym x y H1) in H2; discriminate
  | H1 : gt ?x ?y = true, H2 : gt ?y ?z = true, H3 : gt ?x ?z = false |- _ =>
      rewrite (gt_trans x y z H1 H2) in H3; discriminate
  end.

Ltac order_ties :=
  repeat match goal with
         | H1 : gt ?x ?y = false, H2 : gt ?y ?x = false |- _ =>
             pose proof (gt_tie x y H1 H2); subst; clear H1
         end.

Ltac order_rewrite :=
  repeat first
    [ rewrite gt_irrefl
    | match goal with H : gt _ _ = _ |- _ => rewrite H end ].

Lemma second_of_sorted (a b c : A) :
  nth 1 (Array_sort gt [a; b; c]) a = nth 1 (Array_sort gt [a; c; b]) a
  /\ nth 1 (Array_sort gt [a; b; c]) a = nth 1 (Array_sort gt [b; a; c]) b
  /\ nth 1 (Array_sort gt [a; b; c]) a = nth 1 (Array_sort gt [b; c; a]) b
  /\ nth 1 (Array_sort gt [a; b; c]) a = nth 1 (Array_sort gt [c; a; b]) c
  /\ nth 1 (Array_sort gt [a; b; c]) a = nth 1 (Array_sort gt [c; b; a]) c.
Proof using gt_asym gt_trans gt_tie.
  unfold Array_sort. simpl.
  destruct (gt a b) eqn:Hab, (gt b a) eqn:Hba, (gt a c) eqn:Hac,
           (gt c a) eqn:Hca, (gt b c) eqn:Hbc, (gt c b) eqn:Hcb;
    try order_absurd; order_ties; try order_absurd;
    simpl; order_rewrite; simpl; order_rewrite; simpl;
    repeat split; reflexivity.
Qed.
End SortOfThree.

Lemma SortCompare_gt_asym (x y : decimal7) :
  SortCompare_gt x y = true -> SortCompare_gt y x = false.
Proof.
  unfold SortCompare_gt. rewrite (String.compare_antisym (ToString y)).
  destruct (String.compare (ToString x) (ToString y)); simpl; congruence.
Qed.

Lemma SortCompare_gt_lt (x y : decimal7) :
  SortCompare_gt x y = true <-> String_as_OT.lt (ToString y) (ToString x).
Proof.
  rewrite <- String_as_OT.cmp_lt. unfold SortCompare_gt, String_as_OT.cmp.
  rewrite (String.compare_antisym (ToString x) (ToString y)).
  destruct (String.compare (ToString y) (ToString x)); simpl;
    split; congruence.
Qed.

Lemma SortCompare_gt_trans (x y z : decimal7) :
  SortCompare_gt x y = true -> SortCompare_gt y z = true ->
  SortCompare_gt x z = true.
Proof.
  rewrite !SortCompare_gt_lt. intros H1 H2.
  exact (String_as_OT.lt_trans _ _ _ H2 H1).
Qed.

Lemma SortCompare_gt_tie (x y : decimal7) :
  SortCompare_gt x y = false -> SortCompare_gt y x = false -> x = y.
Proof.
  unfold SortCompare_gt. rewrite (String.compare_antisym (ToString y)).
  destruct (String.compare (ToString x) (ToString y)) eqn:E; simpl;
    try discriminate.
  intros _ _. apply ToString_inj, String.compare_eq_iff. exact E.
Qed.

(** C8: [medianOf3] gives the same number for the six orders of its
    arguments. *)
Theorem C8_medianOf3_permutations (a b c : decimal7) :
  medianOf3 a b c = medianOf3 a c b
  /\ medianOf3 a b c = medianOf3 b a c
  /\ medianOf3 a b c = medianOf3 b c a
  /\ medianOf3 a b c = medianOf3 c a b
  /\ medianOf3 a b c = medianOf3 c b a.
Proof.
  exact (second_of_sorted SortCompare_gt SortCompare_gt_asym
           SortCompare_gt_trans SortCompare_gt_tie a b c).
Qed.

(** ** The change over 24 hours *)

(** With at most 6 buckets both changes are [null]. *)
Lemma change24h_short_window (baseNative : bool)
    (pair_price XLMOldPrice XLMNewPrice : number)
    (records : list trade_record) :
  (length records <= 6)%nat ->
  change24h baseNative pair_price XLMOldPrice XLMNewPrice records
  = (None, None).
Proof.
  intros H. unfold change24h.
  destruct (Nat.ltb_spec 6 (length records)) as [H' | _]; [lia | reflexivity].
Qed.

(** With 7 buckets or more both changes are computed from what [medianOf3]
    gives for the closes of the three oldest buckets, inverted when the
    native asset is the base. *)
Lemma change24h_long_window (baseNative : bool)
    (pair_price XLMOldPrice XLMNewPrice : number)
    (records : list trade_record) :
  (7 <= length records)%nat ->
  exists c1 c2 c3,
    oldest_closes records = Some (c1, c2, c3)
    /\ let reference := Number7 (medianOf3 c1 c2 c3) in
       let openXLM :=
         if baseNative then ndiv (Fin 1%Q) reference else reference in
       let closeXLM :=
         if baseNative then ndiv (Fin 1%Q) pair_price else pair_price in
       change24h baseNative pair_price XLMOldPrice XLMNewPrice records
       = (Some (change_percent closeXLM openXLM),
          Some (change_percent (nmul closeXLM XLMNewPrice)
                  (nmul openXLM XLMOldPrice))).
Proof.
  intros H. unfold change24h, open_reference, oldest_closes.
  destruct (Nat.ltb_spec 6 (length records)) as [_ | H']; [| lia].
  rewrite <- length_rev in H.
  destruct (rev records) as [|r1 [|r2 [|r3 rest]]]; simpl in H; try lia.
  exists (close r1), (close r2), (close r3).
  split; reflexivity.
Qed.

(** C4: the open of the day is the second of the three oldest closes in
    the order of their strings, which is not their median.  With closes
    99, 100 and 101 the code takes 101: for a price of 100.5 it reports a
    change of -0.5 percent where the median, 100, gives +0.5 percent. *)
Theorem C4_median_by_strings :
  oldest_closes example_records
  = Some (990000000, 1000000000, 1010000000)%N
  /\ map ToString [990000000; 1000000000; 1010000000]%N = ["99"; "100"; "101"]
  /\ medianOf3 990000000 1000000000 1010000000 = 1010000000%N
  /\ numeric_median 990000000 1000000000 1010000000 = 1000000000%N
  /\ open_reference example_records = Fin 101%Q
  /\ change24h false (Fin 100.5%Q) (Fin 0.1%Q) (Fin 0.1%Q) example_records
     = (Some (Fin (-1 # 2)%Q), Some (Fin (-1 # 2)%Q))
  /\ change_percent (Fin 100.5%Q)
       (Number7 (numeric_median 990000000 1000000000 1010000000))
     = Fin (1 # 2)%Q
  /\ change24h true (Fin 100.5%Q) (Fin 0.1%Q) (Fin 0.1%Q) example_records
     = (Some (Fin (1 # 2)%Q), Some (Fin (1 # 2)%Q))
  /\ trades_asset_fields (fun x => x) false "USD-example.com/XLM-native"
       example_book example_records steady_prices
       (<["price" := VNum (Fin 100.5%Q)]> ∅) ∅
     !! "change24h_XLM" = Some (VNum (Fin (-1 # 2)%Q)).
Proof.
  repeat split; vm_compute; reflexivity.
Qed.

(** ** The depth of a pair *)

Lemma total_cons (x : number) (values : list number) :
  total (x :: values) = nadd x (total values).
Proof. reflexivity. Qed.

Lemma _sumBy_band (in_band : offer -> bool) (offers : list offer) :
  _sumBy offers (fun o => if in_band o then Number7 (amount o) else Fin 0%Q)
  =n= band_sum in_band offers.
Proof.
  rewrite _sumBy_total. unfold band_sum.
  induction offers as [|o rest IH]; [reflexivity |].
  cbn [map List.filter]. destruct (in_band o); cbn [map]; rewrite !total_cons.
  - apply nadd_proper; [reflexivity | exact IH].
  - etransitivity; [apply nadd_0_l | exact IH].
Qed.

Lemma depth10Amount_bands (counterNative : bool) (res : orderbook) :
  depth10Amount counterNative res
  = _round
      (Math_min
         (band_sum (within_10_percent_below (pair_price counterNative res))
            (bids res))
         (band_sum (within_10_percent_above (pair_price counterNative res))
            (asks res))) 0.
Proof.
  unfold depth10Amount. apply _round_proper.
  apply Math_min_proper; apply _sumBy_band.
Qed.




(** ** Promises with state *)

Lemma bind_resolved {A B} (m : M A) (k : A -> M B) (s s' : state) (a : A) :
  m s = (Resolved a, s') -> bind m k s = k a s'.
Proof. intros H. unfold bind. rewrite H. reflexivity. Qed.

Lemma bind_rejected {A B} (m : M A) (k : A -> M B) (s s' : state) (e : error) :
  m s = (Rejected e, s') -> bind m k s = (Rejected e, s').
Proof. intros H. unfold bind. rewrite H. reflexivity. Qed.

Lemma later_0 (s : state) : later s 0 [] = s.
Proof.
  destruct s. unfold later. simpl. rewrite Nat.add_0_r, app_nil_r. reflexivity.
Qed.

Lemma later_later (s : state) (c1 c2 : nat) (ev1 ev2 : list event) :
  later (later s c1 ev1) c2 ev2 = later s (c1 + c2) (ev1 ++ ev2).
Proof.
  unfold later. simpl. rewrite Nat.add_assoc, <- app_assoc. reflexivity.
Qed.

Lemma later_ext (s : state) (c c' : nat) (ev ev' : list event) :
  c = c' -> ev = ev' -> later s c ev = later s c' ev'.
Proof. intros -> ->. reflexivity. Qed.

Lemma emit_later (s : state) (e : event) : emit e s = later s 0 [e].
Proof. unfold emit, later. rewrite Nat.add_0_r. reflexivity. Qed.

Lemma count_request_later (s : state) : count_request s = later s 1 [CmcRequest].
Proof. unfold count_request, later. rewrite Nat.add_1_r. reflexivity. Qed.

Lemma set_doc_later (f : ticker -> ticker) (s : state) (calls : nat)
    (events : list event) :
  set_doc f (later s calls events) = later (set_doc f s) calls events.
Proof. reflexivity. Qed.

(** ** The quote API *)

#[local] Transparent coinmarketcapReqeust_unfold.

Lemma coinmarketcapReqeust_step (w : world) (n : nat) (s : state) :
  coinmarketcapReqeust w n s =
  match coinmarketcap w (cmc_calls s) with
  | Failure e => (Rejected e, count_request s)
  | Answer j =>
      match cmc_data j with
      | None =>
          (Rejected (TypeError "Cannot read properties of undefined (reading 'XLM')"),
           count_request s)
      | Some data =>
          if (negb (has_XLM data) && (n <? 10)%nat)%bool then
            resolve_only
              (coinmarketcapReqeust w (n + 1)
                 (emit (Timeout 1000)
                    (emit (LogError ("Coinmarketcap missing response: retry attempt "
                                     ++ pretty (n + 1)%nat)) (count_request s))))
          else (Resolved j, count_request s)
      end
  end.
Proof.
  rewrite coinmarketcapReqeust_unfold_eq.
  unfold coinmarketcapReqeust_unfold, rp_coinmarketcap,
    coinmarketcapReqeust_unfold_clause_1.
  destruct (coinmarketcap w (cmc_calls s)) as [j | e]; [| reflexivity].
  cbn [rp].
  unfold coinmarketcapReqeust_unfold_clause_1_clause_3.
  destruct (cmc_data j) as [data |]; [| reflexivity].
  unfold coinmarketcapReqeust_unfold_clause_1_clause_3_clause_2,
    coinmarketcapReqeust_unfold_clause_1_clause_3_clause_2_clause_1.
  destruct (lt_dec n 10) as [H | H].
  - assert ((n <? 10)%nat = true) as -> by (apply Nat.ltb_lt; exact H).
    destruct (negb (has_XLM data)); reflexivity.
  - assert ((n <? 10)%nat = false) as -> by (apply Nat.ltb_ge; lia).
    rewrite andb_false_r. destruct (negb (has_XLM data)); reflexivity.
Qed.

(** With answers that never list XLM, a call with [retryCount = n] makes
    [10 - n] retries and returns the answer to the last one. *)
Lemma retry_loop (w : world) :
  (forall n, exists j, coinmarketcap w n = Answer j /\ cmc_data j = Some None) ->
  forall (k n : nat) (s : state),
    n + k = 10 ->
    exists last,
      coinmarketcap w (cmc_calls s + k) = Answer last
      /\ cmc_data last = Some None
      /\ coinmarketcapReqeust w n s
         = (Resolved last,
            later s (k + 1)
              (flat_map retry_events (seq (n + 1) k) ++ [CmcRequest])).
Proof.
  intros Hw k. induction k as [|k IH]; intros n s Hn.
  - destruct (Hw (cmc_calls s)) as (j & Hj & Hd).
    exists j. rewrite Nat.add_0_r. repeat split; try assumption.
    rewrite coinmarketcapReqeust_step, Hj, Hd.
    assert ((n <? 10)%nat = false) as -> by (apply Nat.ltb_ge; lia).
    simpl. rewrite count_request_later. reflexivity.
  - destruct (Hw (cmc_calls s)) as (j & Hj & Hd).
    rewrite coinmarketcapReqeust_step, Hj, Hd.
    assert ((n <? 10)%nat = true) as -> by (apply Nat.ltb_lt; lia).
    simpl andb. cbv iota.
    rewrite count_request_later, !emit_later, !later_later.
    assert (Hn' : n + 1 + k = 10) by lia.
    match goal with
    | |- context [coinmarketcapReqeust w (n + 1) ?st] =>
        destruct (IH (n + 1) st Hn') as (last & Hlast & Hdl & Hrun)
    end.
    exists last. split; [| split].
    + rewrite <- Hlast. f_equal. simpl. lia.
    + exact Hdl.
    + rewrite Hrun, later_later. cbn [resolve_only].
      f_equal. apply later_ext; [lia |].
      simpl seq. simpl flat_map. rewrite <- !app_assoc.
      replace (n + 1 + 1) with (S (n + 1)) by lia. reflexivity.
Qed.

Lemma getExternalPrices_some (f : price_feeds) :
  exists p, getExternalPrices f = Resolved p.
Proof.
  destruct (getExternalPrices_resolves f) as (btc & xlm & _ & _ & H).
  eexists. exact H.
Qed.

(** C6: when the answers of the quote API never list XLM, the request is
    made 11 times, the last 10 of them one second after the report of a
    missing answer; the answer to the last one is handed on, phase 1
    reports it and goes on with the price of 24 hours ago equal to the
    current price. *)
Theorem C6_ten_retries (w : world) (s : state) :
  (forall n, exists j, coinmarketcap w n = Answer j /\ cmc_data j = Some None) ->
  exists last p,
    coinmarketcap w (cmc_calls s + 10) = Answer last
    /\ getExternalPrices (feeds w) = Resolved p
    /\ coinmarketcapReqeust w 0 s
       = (Resolved last,
          later s 11 (flat_map retry_events (seq 1 10) ++ [CmcRequest]))
    /\ phase1_externalPrices w s
       = (Resolved tt,
          later
            (set_doc (set_meta (set_externalPrices
                                  (with_24hAgo p (USD_XLM p)))) s)
            11
            ([Log "Phase 1: getExternalPrices() success";
              Log "Phase 1: Finished external prices";
              Log "Phase 1: start coinmarketcap request"]
             ++ flat_map retry_events (seq 1 10)
             ++ [CmcRequest;
                 Log "Phase 1: coinmarketcap response received";
                 LogError ("Coinmarketcap missing response: " ++ cmc_text last)])).
Proof.
  intros Hw.
  destruct (retry_loop w Hw 10 0 s eq_refl) as (last & Hlast & Hdl & Hrun).
  destruct (getExternalPrices_some (feeds w)) as (p & Hp).
  exists last, p. split; [exact Hlast |]. split; [exact Hp |].
  split; [exact Hrun |].
  unfold phase1_externalPrices, bind, await, modify, StepLogger_log.
  rewrite Hp. cbn -[coinmarketcapReqeust].
  match goal with
  | |- context [coinmarketcapReqeust w 0 ?st] =>
      destruct (retry_loop w Hw 10 0 st eq_refl) as (last' & Hlast' & _ & Hrun')
  end.
  rewrite Hrun'. simpl cmc_calls in Hlast'. rewrite Hlast in Hlast'.
  injection Hlast' as <-. rewrite Hdl.
  unfold StepLogger_error, modify. f_equal.
  rewrite !emit_later, set_doc_later, !later_later.
  apply later_ext; reflexivity.
Qed.

(** A quote API that never lists XLM: eleven requests, and phase 1 goes
    on. *)
Lemma C6_never_listed_world :
  exists last p,
    coinmarketcap (example_world never_listed [listed_pair]) 10 = Answer last
    /\ getExternalPrices example_feeds = Resolved p
    /\ fst (phase1_externalPrices (example_world never_listed [listed_pair])
              (initial_state (example_world never_listed [listed_pair])))
       = Resolved tt
    /\ cmc_calls
         (snd (phase1_externalPrices (example_world never_listed [listed_pair])
                 (initial_state (example_world never_listed [listed_pair]))))
       = 11.
Proof.
  destruct (C6_ten_retries (example_world never_listed [listed_pair])
              (initial_state (example_world never_listed [listed_pair])))
    as (last & p & H1 & H2 & _ & H4).
  - intros n. eexists. split; reflexivity.
  - exists last, p. rewrite H4. repeat split; assumption.
Defined.

(** ** Failures *)

(** A request that fails after a first answer without XLM: nothing settles
    the promise that [coinmarketcapReqeust] returned for the first call. *)
Lemma rejected_retry_is_pending (w : world) (s : state) (j : cmc_json)
    (e : error) :
  coinmarketcap w (cmc_calls s) = Answer j ->
  cmc_data j = Some None ->
  coinmarketcap w (S (cmc_calls s)) = Failure e ->
  fst (coinmarketcapReqeust w 0 s) = Pending.
Proof.
  intros H0 Hd H1.
  rewrite coinmarketcapReqeust_step, H0, Hd. cbn [has_XLM negb andb Nat.ltb Nat.leb].
  rewrite coinmarketcapReqeust_step.
  rewrite count_request_later, !emit_later, !later_later.
  cbn [cmc_calls later]. rewrite Nat.add_0_r, Nat.add_1_r, H1.
  reflexivity.
Qed.

Lemma lost_quote_api_never_ends :
  tickerGenerator (fun x => x) (fun x => x) (fun _ => "{}")
    (example_world quote_api_lost [listed_pair])
  = Pending.
Proof. vm_compute. reflexivity. Qed.

Lemma phase1_externalPrices_rejected (w : world) (s : state) (e : error) :
  coinmarketcap w (cmc_calls s) = Failure e ->
  exists s', phase1_externalPrices w s = (Rejected e, s').
Proof.
  intros H.
  destruct (getExternalPrices_some (feeds w)) as (p & Hp).
  unfold phase1_externalPrices, bind, await, modify, StepLogger_log.
  rewrite Hp. cbn -[coinmarketcapReqeust].
  rewrite coinmarketcapReqeust_step. cbn -[coinmarketcapReqeust].
  rewrite H. eexists. reflexivity.
Qed.

Lemma phase1_rejected (w : world) (s : state) (e : error) :
  coinmarketcap w (cmc_calls s) = Failure e ->
  exists s',
    phase1 w s
    = (Rejected (match horizonMain w with
                 | Failure eh => eh
                 | Answer _ => e
                 end), s').
Proof.
  intros H.
  unfold phase1, bind, StepLogger_log, modify, Promise_all_M. cbn [run_all].
  unfold bind, getHorizonMain, request, await, getStellarTermDotComVersion,
    StepLogger_error, StepLogger_log, modify, bind, ret.
  destruct (horizonMain w) as [main | eh];
    destruct (stellarterm_version w) as [[version |] | ev];
    cbn -[phase1_externalPrices];
    match goal with
    | |- context [phase1_externalPrices w ?st] =>
        destruct (phase1_externalPrices_rejected w st e H) as (s' & ->)
    end;
    cbn; eexists; reflexivity.
Qed.

Section Failure.
Variable niceRound : number -> number.
Variable hideCMCKey : string -> string.
Variable JSON_stringify : json -> string.

Lemma failed_output (w : world) (e : error) (s : state) :
  tickerDataGenerator niceRound JSON_stringify w (initial_state w)
  = (Rejected e, s) ->
  only_status hideCMCKey JSON_stringify e
    (tickerGenerator niceRound hideCMCKey JSON_stringify w).
Proof.
  intros H. unfold tickerGenerator. rewrite H.
  eexists. split; [reflexivity |]. simpl. split.
  - reflexivity.
  - rewrite lookup_insert_ne by discriminate. apply lookup_empty.
Qed.

Lemma fatal_failure_rejects (w : world) (e : error) :
  fatal_failure niceRound w e ->
  exists s,
    tickerDataGenerator niceRound JSON_stringify w (initial_state w)
    = (Rejected e, s).
Proof.
  intros (s & H). exists s. unfold tickerDataGenerator.
  destruct H as [H1 | (s1 & H1 & H)].
  { apply bind_rejected. exact H1. }
  rewrite (bind_resolved _ _ _ _ _ H1).
  destruct H as [H2 | (s2 & H2 & H)].
  { apply bind_rejected. exact H2. }
  rewrite (bind_resolved _ _ _ _ _ H2).
  destruct H as [H3 | (s3 & H3 & H4)].
  { apply bind_rejected. exact H3. }
  rewrite (bind_resolved _ _ _ _ _ H3).
  apply bind_rejected. exact H4.
Qed.

(** C9: when a phase is rejected, the only file of the output is the
    status record, which reports the failure with the error after
    [hideCMCKey]; there is no ['v1/ticker.json']. *)
Theorem C9_failure_withholds_ticker (w : world) (e : error) :
  fatal_failure niceRound w e ->
  only_status hideCMCKey JSON_stringify e
    (tickerGenerator niceRound hideCMCKey JSON_stringify w).
Proof.
  intros H. destruct (fatal_failure_rejects w e H) as (s & Hs).
  exact (failed_output w e s Hs).
Qed.

(** C2: a rejected request to the quote API rejects phase 1, and with it
    the run: the output is the status record of a failure, without
    ticker.  The error is the one of the request, unless the request for
    the Horizon root was rejected as well. *)
Theorem C2_rejected_quote_is_fatal (w : world) (e : error) :
  coinmarketcap w 0 = Failure e ->
  let e' := match horizonMain w with
            | Failure eh => eh
            | Answer _ => e
            end in
  fst (phase1 w (initial_state w)) = Rejected e'
  /\ fatal_failure niceRound w e'
  /\ only_status hideCMCKey JSON_stringify e'
       (tickerGenerator niceRound hideCMCKey JSON_stringify w).
Proof.
  intros H e'.
  destruct (phase1_rejected w (initial_state w) e H) as (s' & Hs').
  fold e' in Hs'.
  assert (Hf : fatal_failure niceRound w e').
  { exists s'. left. exact Hs'. }
  split; [rewrite Hs'; reflexivity |]. split; [exact Hf |].
  destruct (fatal_failure_rejects w e' Hf) as (s & Hs).
  exact (failed_output w e' s Hs).
Qed.
End Failure.

(** ** Pairs without an asset *)

Lemma matches_leg_slug (l : leg) (pairSlug : string) (asset : object) :
  matches_leg l (<["topTradePairSlug" := VStr pairSlug]> asset)
  = matches_leg l asset.
Proof.
  unfold matches_leg. rewrite !lookup_insert_ne by discriminate. reflexivity.
Qed.

Lemma _find_alter {A} (p : A -> bool) (f : A -> A) (i : nat) (l : list A) :
  (forall a, p (f a) = p a) -> _find p (alter f i l) = _find p l.
Proof.
  intros Hf. revert i.
  induction l as [|x rest IH]; intros [|i]; cbn [alter list_alter _find];
    try reflexivity.
  - rewrite Hf. reflexivity.
  - fold (alter f i rest). rewrite IH. reflexivity.
Qed.

(** The lookup of a pair either throws [no_asset], or leaves a state in
    which the same legs are found, or not found, as before. *)
Lemma lookup_asset_cases (pairSlug : string) (p : pair) (s : state) :
  (exists s', lookup_asset pairSlug p s = (Rejected no_asset, s'))
  \/ (exists found s',
        lookup_asset pairSlug p s = (Resolved found, s')
        /\ ~ dangling (baseBuying p, counterSelling p) (assets (doc s))
        /\ forall l, _find (matches_leg l) (assets (doc s'))
                     = _find (matches_leg l) (assets (doc s))).
Proof.
  unfold lookup_asset, dangling, bind, get, update_asset, modify, throw, ret.
  simpl fst. simpl snd.
  destruct (isNative (baseBuying p)) eqn:Eb.
  - destruct (_find (matches_leg (counterSelling p)) (assets (doc s))) as [i|] eqn:Ef.
    + right. eexists _, _. split; [reflexivity |]. split.
      * intros [[_ H] | [H _]]; congruence.
      * intros l. simpl. apply _find_alter. intros a. apply matches_leg_slug.
    + left. eexists. reflexivity.
  - destruct (isNative (counterSelling p)) eqn:Ec.
    + destruct (_find (matches_leg (baseBuying p)) (assets (doc s))) as [i|] eqn:Ef.
      * right. eexists _, _. split; [reflexivity |]. split.
        -- intros [[H _] | (_ & _ & H)]; congruence.
        -- intros l. simpl. apply _find_alter. intros a. apply matches_leg_slug.
      * left. eexists. reflexivity.
    + right. eexists _, _. split; [reflexivity |]. split.
      * intros [[H _] | (_ & H & _)]; congruence.
      * reflexivity.
Qed.

Lemma dangling_same_finds (legs : leg * leg) (assets assets' : list object) :
  (forall l, _find (matches_leg l) assets' = _find (matches_leg l) assets) ->
  dangling legs assets -> dangling legs assets'.
Proof.
  intros H [[H1 H2] | (H1 & H2 & H3)]; [left | right]; rewrite H; auto.
Qed.

Lemma map_pairs_dangling (l : list (string * pair)) (k : nat) (s : state) :
  (exists sp, In sp l
              /\ dangling (baseBuying (snd sp), counterSelling (snd sp))
                   (assets (doc s))) ->
  exists s', map_pairs k l s = (Rejected no_asset, s').
Proof.
  revert k s. induction l as [|sp rest IH]; intros k s (sp' & Hin & Hd).
  - destruct Hin.
  - simpl map_pairs.
    destruct (lookup_asset_cases (fst sp) (snd sp) s)
      as [(s' & Hs') | (found & s' & Hs' & Hnd & Hsame)].
    + exists s'. apply bind_rejected. exact Hs'.
    + rewrite (bind_resolved _ _ _ _ _ Hs').
      destruct Hin as [<- | Hin]; [contradiction |].
      destruct (IH (S k) s') as (s'' & Hs'').
      { exists sp'. split; [exact Hin |].
        apply (dangling_same_finds _ (assets (doc s))); assumption. }
      exists s''. apply bind_rejected. exact Hs''.
Qed.

Lemma phase3_dangling (niceRound : number -> number) (w : world) (s : state)
    (d : directory_t) (pairSlug : string) (legs : leg * leg) :
  directory s = Some d ->
  In (pairSlug, legs) (directory_pairs d) ->
  dangling legs (assets (doc s)) ->
  exists s', phase3 niceRound w s = (Rejected no_asset, s').
Proof.
  intros Hd Hin Hdang.
  unfold phase3, bind, StepLogger_log, modify, get.
  cbn -[map_pairs Promise_all_M].
  rewrite Hd. simpl directory_pairs_copy.
  match goal with
  | |- context [map_pairs 0 ?l ?st] =>
      destruct (map_pairs_dangling l 0 st) as (s' & ->)
  end.
  - exists (pairSlug, mkPair (fst legs) (snd legs) ∅). split.
    + apply (in_map (fun entry => (fst entry,
                                   mkPair (fst (snd entry)) (snd (snd entry)) ∅))
               _ _ Hin).
    + destruct legs. exact Hdang.
  - eexists. reflexivity.
Qed.

(** C10: phase 3 takes for granted that every pair of the directory with a
    native leg has its other leg among the assets.  When phases 1 and 2 are
    resolved and a pair has no such asset, the assignment to the result of
    the lookup throws, phase 3 is rejected with this error, and the run ends
    with the status record of a failure and no ticker: the pair is not
    skipped. *)
Theorem C10_pair_without_asset (niceRound : number -> number)
    (hideCMCKey : string -> string) (JSON_stringify : json -> string)
    (w : world) (s1 s2 : state) (d : directory_t)
    (pairSlug : string) (legs : leg * leg) :
  phase1 w (initial_state w) = (Resolved tt, s1) ->
  loadAssets w s1 = (Resolved tt, s2) ->
  directory s2 = Some d ->
  In (pairSlug, legs) (directory_pairs d) ->
  dangling legs (assets (doc s2)) ->
  fst (phase3 niceRound w s2) = Rejected no_asset
  /\ fatal_failure niceRound w no_asset
  /\ only_status hideCMCKey JSON_stringify no_asset
       (tickerGenerator niceRound hideCMCKey JSON_stringify w).
Proof.
  intros H1 H2 Hd Hin Hdang.
  destruct (phase3_dangling niceRound w s2 d pairSlug legs Hd Hin Hdang)
    as (s3 & H3).
  assert (Hf : fatal_failure niceRound w no_asset).
  { exists s3. right. exists s1. split; [exact H1 |]. right.
    exists s2. split; [exact H2 |]. left. exact H3. }
  split; [rewrite H3; reflexivity |]. split; [exact Hf |].
  destruct (fatal_failure_rejects niceRound JSON_stringify w no_asset Hf)
    as (s & Hs).
  exact (failed_output niceRound hideCMCKey JSON_stringify w no_asset s Hs).
Qed.

(** The quote API cannot be reached: phase 1 is rejected and there is no
    ticker. *)
Lemma C2_quote_api_down :
  coinmarketcap (example_world quote_api_down [listed_pair]) 0
  = Failure (RequestError "ECONNREFUSED")
  /\ fst (phase1 (example_world quote_api_down [listed_pair])
            (initial_state (example_world quote_api_down [listed_pair])))
     = Rejected (RequestError "ECONNREFUSED")
  /\ only_status (fun x => x) (fun _ => "{}") (RequestError "ECONNREFUSED")
       (tickerGenerator (fun x => x) (fun x => x) (fun _ => "{}")
          (example_world quote_api_down [listed_pair])).
Proof.
  split; [reflexivity |].
  destruct (C2_rejected_quote_is_fatal (fun x => x) (fun x => x) (fun _ => "{}")
              (example_world quote_api_down [listed_pair])
              (RequestError "ECONNREFUSED") eq_refl)
    as (H1 & _ & H2).
  split; [exact H1 | exact H2].
Defined.

(** The Horizon root cannot be reached: a fatal failure, and no ticker. *)
Lemma C9_horizon_down :
  fatal_failure (fun x => x) horizon_down (RequestError "ECONNREFUSED")
  /\ only_status (fun x => x) (fun _ => "{}") (RequestError "ECONNREFUSED")
       (tickerGenerator (fun x => x) (fun x => x) (fun _ => "{}") horizon_down).
Proof.
  assert (H : fatal_failure (fun x => x) horizon_down
                (RequestError "ECONNREFUSED")).
  { exists (snd (phase1 horizon_down (initial_state horizon_down))).
    left. vm_compute. reflexivity. }
  split; [exact H |].
  exact (C9_failure_withholds_ticker (fun x => x) (fun x => x)
           (fun _ => "{}") horizon_down (RequestError "ECONNREFUSED") H).
Defined.

(** The directory lists a pair of EUR with the native asset and no EUR
    asset: no ticker. *)
Lemma C10_unlisted_asset :
  dangling (snd dangling_pair)
    (assets (doc (snd (loadAssets
                         (example_world quoted [listed_pair; dangling_pair])
                         (snd (phase1
                                 (example_world quoted [listed_pair; dangling_pair])
                                 (initial_state
                                    (example_world quoted
                                       [listed_pair; dangling_pair]))))))))
  /\ only_status (fun x => x) (fun _ => "{}") no_asset
       (tickerGenerator (fun x => x) (fun x => x) (fun _ => "{}")
          (example_world quoted [listed_pair; dangling_pair])).
Proof.
  assert (Hd : dangling (snd dangling_pair)
    (assets (doc (snd (loadAssets
                         (example_world quoted [listed_pair; dangling_pair])
                         (snd (phase1
                                 (example_world quoted [listed_pair; dangling_pair])
                                 (initial_state
                                    (example_world quoted
                                       [listed_pair; dangling_pair]))))))))).
  { right. repeat split; vm_compute; reflexivity. }
  split; [exact Hd |].
  refine (proj2 (proj2
    (C10_pair_without_asset (fun x => x) (fun x => x) (fun _ => "{}")
       (example_world quoted [listed_pair; dangling_pair])
       (snd (phase1 (example_world quoted [listed_pair; dangling_pair])
               (initial_state (example_world quoted [listed_pair; dangling_pair]))))
       (snd (loadAssets (example_world quoted [listed_pair; dangling_pair])
               (snd (phase1 (example_world quoted [listed_pair; dangling_pair])
                       (initial_state
                          (example_world quoted [listed_pair; dangling_pair]))))))
       _ (fst dangling_pair) (snd dangling_pair) _ _ _ _ Hd))).
  - vm_compute. reflexivity.
  - vm_compute. reflexivity.
  - vm_compute. reflexivity.
  - right. left. reflexivity.
Defined.

(** ** The ranking *)

Section Insertion.
Context {A : Type} (gt : A -> A -> bool).

Lemma sort_insert_In (a x : A) (l : list A) :
  In x (sort_insert gt a l) <-> x = a \/ In x l.
Proof.
  induction l as [|b rest IH]; simpl.
  - intuition.
  - destruct (gt a b); simpl; rewrite ?IH; intuition.
Qed.

Lemma Array_sort_In (x : A) (l : list A) :
  In x (Array_sort gt l) <-> In x l.
Proof.
  induction l as [|a rest IH]; simpl; [reflexivity |].
  rewrite sort_insert_In, IH. intuition.
Qed.

(** An element that does not have to come after any other stays first. *)
Lemma sort_insert_first (a : A) (l : list A) :
  (forall b, In b l -> gt a b = false) -> sort_insert gt a l = a :: l.
Proof.
  destruct l as [|b rest]; [reflexivity |]. intros H. simpl.
  rewrite (H b) by (left; reflexivity). reflexivity.
Qed.
End Insertion.

Section InsertionOrder.
Context {A : Type} (gt : A -> A -> bool).

Lemma sort_insert_Permutation (a : A) (l : list A) :
  Permutation (sort_insert gt a l) (a :: l).
Proof.
  induction l as [|b rest IH]; simpl; [reflexivity |].
  destruct (gt a b); [| reflexivity].
  rewrite IH. apply perm_swap.
Qed.

(** The sort neither drops nor duplicates an element. *)
Lemma Array_sort_Permutation (l : list A) : Permutation (Array_sort gt l) l.
Proof.
  induction l as [|a rest IH]; simpl; [reflexivity |].
  rewrite sort_insert_Permutation. apply perm_skip, IH.
Qed.

(** Elements that have to come after [h] stay behind it. *)
Lemma Array_sort_head (before l tl : list A) (h : A) :
  (forall x, In x before -> gt x h = true) ->
  Array_sort gt l = h :: tl ->
  exists tl', Array_sort gt (before ++ l) = h :: tl'.
Proof.
  intros Hbefore Hl. induction before as [|x before IH]; simpl.
  - exists tl. exact Hl.
  - destruct IH as (tl' & E).
    { intros y Hy. apply Hbefore. right. exact Hy. }
    fold (Array_sort gt (before ++ l)). rewrite E. simpl.
    rewrite (Hbefore x) by (left; reflexivity). eexists. reflexivity.
Qed.

(** The sort is stable: elements none of which has to come after another
    keep their order. *)
Lemma sort_insert_filter (p : A -> bool) (a : A) (l : list A) :
  (p a = true -> forall b, In b l -> gt a b = true -> p b = false) ->
  List.filter p (sort_insert gt a l) = List.filter p (a :: l).
Proof.
  induction l as [|b rest IH]; intros H; [reflexivity |].
  cbn [sort_insert]. destruct (gt a b) eqn:E; [| reflexivity].
  cbn [List.filter]. rewrite IH.
  - cbn [List.filter]. destruct (p a) eqn:Pa; [| reflexivity].
    rewrite (H eq_refl b (or_introl eq_refl) E). reflexivity.
  - intros Pa x Hx. apply (H Pa). right. exact Hx.
Qed.

Lemma Array_sort_filter (p : A -> bool) (l : list A) :
  (forall a b, In a l -> In b l -> p a = true -> p b = true ->
     gt a b = false) ->
  List.filter p (Array_sort gt l) = List.filter p l.
Proof.
  induction l as [|a rest IH]; intros H; [reflexivity |].
  cbn [Array_sort fold_right]. fold (Array_sort gt rest).
  rewrite sort_insert_filter.
  - cbn [List.filter]. rewrite IH; [reflexivity |].
    intros x y Hx Hy. apply H; right; assumption.
  - intros Pa b Hb E. apply Array_sort_In in Hb.
    destruct (p b) eqn:Pb; [| reflexivity].
    rewrite (H a b (or_introl eq_refl) (or_intror Hb) Pa Pb) in E.
    discriminate.
Qed.

(** Among elements on which the comparison is a total preorder, the result
    is in order. *)
Variable P : A -> Prop.
Hypothesis gt_asym : forall a b, P a -> P b -> gt a b = true -> gt b a = false.
Hypothesis gt_trans :
  forall a b c, P a -> P b -> P c ->
    gt a b = false -> gt b c = false -> gt a c = false.

Lemma sort_insert_StronglySorted (a : A) (l : list A) :
  P a -> Forall P l ->
  StronglySorted (fun a b => gt a b = false) l ->
  StronglySorted (fun a b => gt a b = false) (sort_insert gt a l).
Proof using gt_asym gt_trans.
  intros Ha Hl Hs. induction Hs as [|b rest Hrest IH Hb]; simpl.
  - constructor; constructor.
  - apply Forall_cons in Hl. destruct Hl as [Pb Prest].
    destruct (gt a b) eqn:E.
    + constructor; [apply IH, Prest |].
      rewrite List.Forall_forall. intros x Hx. apply sort_insert_In in Hx.
      destruct Hx as [-> | Hx].
      * apply gt_asym; assumption.
      * rewrite List.Forall_forall in Hb. apply Hb, Hx.
    + constructor; [constructor; assumption |].
      constructor; [exact E |].
      rewrite List.Forall_forall in Hb, Prest |- *. intros x Hx.
      apply (gt_trans a b x); auto.
Qed.

Lemma Array_sort_StronglySorted (l : list A) :
  Forall P l -> StronglySorted (fun a b => gt a b = false) (Array_sort gt l).
Proof using gt_asym gt_trans.
  induction 1 as [|a rest Ha Hrest IH]; simpl; [constructor |].
  apply sort_insert_StronglySorted; [exact Ha | | exact IH].
  rewrite List.Forall_forall in Hrest |- *. intros x Hx.
  apply Hrest. apply Array_sort_In in Hx. exact Hx.
Qed.
End InsertionOrder.

Lemma round_R_integer (p : nat) (z : Z) : round_R p (IZR z) = IZR z.
Proof.
  unfold round_R, pow10.
  assert (Hpos : (0 < IZR (10 ^ Z.of_nat p))%R).
  { apply IZR_lt. apply Z.pow_pos_nonneg; lia. }
  rewrite (Zfloor_eq (z * 10 ^ Z.of_nat p)).
  - rewrite mult_IZR. field. lra.
  - rewrite mult_IZR. lra.
Qed.

Lemma to_real_score (asset : object) :
  to_real (assign_score asset !! "activityScore") = score asset.
Proof. unfold assign_score. rewrite lookup_insert_eq. reflexivity. Qed.

Lemma is_native_id_assign_score (asset : object) :
  is_native_id (assign_score asset) = is_native_id asset.
Proof.
  unfold is_native_id, assign_score.
  rewrite lookup_insert_ne by discriminate. reflexivity.
Qed.

Lemma is_native_id_round_score (asset : object) :
  is_native_id (round_score asset) = is_native_id asset.
Proof.
  unfold is_native_id, round_score.
  rewrite lookup_insert_ne by discriminate. reflexivity.
Qed.

Lemma rounded_score (asset : object) :
  round_score (assign_score asset) !! "activityScore"
  = Some (VReal (_round_r (score asset) 3)).
Proof.
  unfold round_score. rewrite lookup_insert_eq, to_real_score. reflexivity.
Qed.

Lemma score_native (asset : object) :
  is_native_id asset = true -> score asset = Fin 100%R.
Proof. intros H. unfold score. rewrite H. reflexivity. Qed.

Lemma score_unpriced (asset : object) :
  is_native_id asset = false -> asset !! "price_XLM" = None ->
  score asset = Fin 0%R.
Proof. intros H1 H2. unfold score. rewrite H1, H2. reflexivity. Qed.

Lemma phase4_assets_Permutation (assets : list object) :
  Permutation (phase4_assets assets) (map scored assets).
Proof.
  unfold phase4_assets, scored. rewrite <- (map_map assign_score round_score).
  apply Permutation_map, Array_sort_Permutation.
Qed.

Lemma scored_id (asset : object) : scored asset !! "id" = asset !! "id".
Proof.
  unfold scored, round_score, assign_score.
  rewrite !lookup_insert_ne by discriminate. reflexivity.
Qed.

(** C1, amended: the native asset is given the score 100 and an asset
    without [price_XLM] the score 0, before and after the rounding, wherever
    they stand and whatever the other assets are; phase 4 keeps every asset,
    with its rounded score; and the sort goes by the score alone: the native
    asset is first after it when no asset after it has a score above 100
    and every asset before it, if there is one, has a score below 100.  In
    particular the native asset, which [loadAssets] puts first, stays first
    when no other asset has a score above 100. *)
Theorem C1_scores_and_rank (assets : list object) :
  (forall a, is_native_id a = true ->
     score a = Fin 100%R
     /\ scored a !! "activityScore" = Some (VReal (Fin 100%R)))
  /\ (forall a, is_native_id a = false -> a !! "price_XLM" = None ->
      score a = Fin 0%R
      /\ scored a !! "activityScore" = Some (VReal (Fin 0%R)))
  /\ Permutation (phase4_assets assets) (map scored assets)
  /\ (forall before native after,
        assets = before ++ native :: after ->
        is_native_id native = true ->
        (forall a, In a before ->
           positive_r (rsub (Fin 100%R) (score a)) = true) ->
        (forall a, In a after ->
           positive_r (rsub (score a) (Fin 100%R)) = false) ->
        exists others, phase4_assets assets = scored native :: others).
Proof.
  split; [| split; [| split]].
  - intros a Hn. split; [apply score_native, Hn |].
    unfold scored. rewrite rounded_score, (score_native _ Hn). simpl.
    rewrite round_R_integer. reflexivity.
  - intros a Hn Hp. split; [apply score_unpriced; assumption |].
    unfold scored. rewrite rounded_score, (score_unpriced _ Hn Hp). simpl.
    rewrite round_R_integer. reflexivity.
  - apply phase4_assets_Permutation.
  - intros before native after -> Hnative Hbefore Hafter.
    unfold phase4_assets. rewrite map_app. cbn [map].
    destruct (Array_sort_head by_score_gt (map assign_score before)
                (assign_score native :: map assign_score after)
                (Array_sort by_score_gt (map assign_score after))
                (assign_score native)) as (tl & ->).
    + intros x Hx. apply in_map_iff in Hx. destruct Hx as (a & <- & Ha).
      unfold by_score_gt. rewrite !to_real_score, (score_native _ Hnative).
      apply Hbefore, Ha.
    + cbn [Array_sort fold_right].
      fold (Array_sort by_score_gt (map assign_score after)).
      apply sort_insert_first.
      intros b Hb. apply Array_sort_In, in_map_iff in Hb.
      destruct Hb as (a & <- & Ha).
      unfold by_score_gt. rewrite !to_real_score, (score_native _ Hnative).
      apply Hafter, Ha.
    + eexists. reflexivity.
Qed.

Lemma rdiv_Fin (a b : R) : b <> 0%R -> rdiv (Fin a) (Fin b) = Fin (a / b)%R.
Proof.
  intros Hb. unfold rdiv. destruct (Req_dec_T b 0); [contradiction | reflexivity].
Qed.

Lemma Math_min_r_Fin (a b : R) : Math_min_r (Fin a) (Fin b) = Fin (Rmin a b).
Proof. unfold Math_min_r, Rmin. destruct (Rle_dec a b); reflexivity. Qed.

Lemma Math_log_Fin (a : R) : (0 < a)%R -> Math_log (Fin a) = Fin (ln a).
Proof.
  intros Ha. unfold Math_log. destruct (Rlt_dec 0 a); [reflexivity | contradiction].
Qed.

Lemma ln_positive (x : R) : (1 < x)%R -> (0 < ln x)%R.
Proof. intros H. rewrite <- ln_1. apply ln_increasing; lra. Qed.

(** The score of an asset with finite metrics, as a formula on the reals. *)
Lemma market_score_finite (asset : object)
    (numBids numAsks records volume depth trades spread : R) :
  to_real (asset !! "numBids") = Fin numBids ->
  to_real (asset !! "numAsks") = Fin numAsks ->
  to_real (asset !! "_numTradeRecords24h") = Fin records ->
  to_real (asset !! "volume24h_USD") = Fin volume ->
  to_real (asset !! "depth10_USD") = Fin depth ->
  to_real (asset !! "numTrades24h") = Fin trades ->
  to_real (asset !! "spread") = Fin spread ->
  (0 < 2 + depth)%R -> (0 < 4 + volume)%R -> (0 < 4 + trades)%R ->
  market_score asset
  = Fin ((1 - spread) ^ 3
         * ((((numBids + numAsks) / 20 + Rmin 12 records / 24
              + Rmin 1 (volume / 100))
             + (5 / 10 * (ln (2 + depth) / ln 2 - 1)
                + Rmin 10 (depth / 10000))
             + (ln (4 + volume) / ln 4 - 1))
            + (ln (4 + trades) / ln 4 - 1 + Rmin 7 (records / 8))))%R.
Proof.
  intros Hb Ha Hr Hv Hd Ht Hs Hdepth Hvolume Htrades.
  pose proof (ln_positive 2 ltac:(lra)) as Hln2.
  pose proof (ln_positive 4 ltac:(lra)) as Hln4.
  unfold market_score. rewrite Hb, Ha, Hr, Hv, Hd, Ht, Hs.
  unfold radd, rsub, rmul, Math_pow3, lift1, lift2.
  rewrite !Math_log_Fin by lra.
  rewrite !rdiv_Fin by lra.
  rewrite !Math_min_r_Fin.
  rewrite !rdiv_Fin by lra.
  reflexivity.
Qed.

Lemma score_deep_asset : score deep_asset = Fin (219 / 2)%R.
Proof.
  assert (Hdepth : Q2R (inject_Z (2 ^ 200 - 2)) = IZR (2 ^ 200 - 2)).
  { unfold Q2R, inject_Z. cbn [Qnum Qden]. generalize (IZR (2 ^ 200 - 2)).
    intros r. lra. }
  assert (Hpow : (2 + IZR (2 ^ 200 - 2) = 2 ^ 200)%R).
  { rewrite minus_IZR, (pow_IZR 2 200). change (Z.of_nat 200) with 200%Z.
    generalize (IZR (2 ^ 200)). intros r. lra. }
  assert (Hbig : (100000 <= IZR (2 ^ 200 - 2))%R).
  { apply IZR_le. vm_compute. discriminate. }
  assert (Hln : ln (2 + IZR (2 ^ 200 - 2)) = (200 * ln 2)%R).
  { rewrite Hpow, ln_pow by lra.
    replace (INR 200) with 200%R by (rewrite INR_IZR_INZ; reflexivity).
    reflexivity. }
  clear Hpow. revert Hdepth Hbig Hln.
  generalize (IZR (2 ^ 200 - 2)). intros depth Hdepth Hbig Hln.
  pose proof (ln_positive 2 ltac:(lra)) as Hln2.
  pose proof (ln_positive 4 ltac:(lra)) as Hln4.
  unfold score.
  replace (is_native_id deep_asset) with false by reflexivity.
  replace (is_undefined (deep_asset !! "price_XLM")) with false by reflexivity.
  rewrite (market_score_finite deep_asset 0 0 0 0 depth 0 0);
    try lra;
    try (change (Fin (Q2R 0) = Fin 0%R :> rnumber);
         rewrite RMicromega.Q2R_0; reflexivity).
  - f_equal. rewrite Hln.
    rewrite (Rmin_right 12 0), (Rmin_right 1 (0 / 100)),
      (Rmin_right 7 (0 / 8)), (Rmin_left 10) by lra.
    replace (4 + 0)%R with 4%R by lra. field. lra.
  - change (Fin (Q2R (inject_Z (2 ^ 200 - 2))) = Fin depth :> rnumber).
    rewrite Hdepth. reflexivity.
Qed.

(** C1, as the specification states it, fails on the rank: next to an asset
    whose market is deep enough for a score of 109.5, the native asset,
    with its score of 100, comes second. *)
Lemma C1_deep_market_ranks_first :
  score deep_asset = Fin (219 / 2)%R
  /\ score (native_asset (Fin 0.0101%Q)) = Fin 100%R
  /\ phase4_assets [native_asset (Fin 0.0101%Q); deep_asset]
     = [round_score (assign_score deep_asset);
        round_score (assign_score (native_asset (Fin 0.0101%Q)))]
  /\ is_native_id (round_score (assign_score deep_asset)) = false.
Proof.
  assert (Hn : score (native_asset (Fin 0.0101%Q)) = Fin 100%R)
    by (apply score_native; reflexivity).
  split; [exact score_deep_asset |]. split; [exact Hn |]. split.
  - unfold phase4_assets. cbn [map Array_sort fold_right sort_insert].
    unfold by_score_gt. rewrite !to_real_score, score_deep_asset, Hn.
    cbn [rsub lift2 positive_r].
    destruct (Rlt_dec 0 (219 / 2 - 100)) as [_ | H]; [reflexivity | lra].
  - rewrite is_native_id_round_score, is_native_id_assign_score. reflexivity.
Qed.

(** The native asset between two assets without a price: the sort moves
    it to the front, with its score of 100; the others have the score 0. *)
Lemma C1_native_and_unpriced :
  (exists others,
     phase4_assets
       [unpriced_asset; native_asset (Fin 0.0101%Q); unpriced_asset']
     = scored (native_asset (Fin 0.0101%Q)) :: others)
  /\ scored (native_asset (Fin 0.0101%Q)) !! "activityScore"
     = Some (VReal (Fin 100%R))
  /\ scored unpriced_asset !! "activityScore" = Some (VReal (Fin 0%R)).
Proof.
  destruct (C1_scores_and_rank
              [unpriced_asset; native_asset (Fin 0.0101%Q); unpriced_asset'])
    as (Hnative & Hunpriced & _ & Hrank).
  split; [| split].
  - apply (Hrank [unpriced_asset] (native_asset (Fin 0.0101%Q))
             [unpriced_asset']).
    + reflexivity.
    + reflexivity.
    + intros a [<- | []].
      rewrite (score_unpriced unpriced_asset) by reflexivity.
      cbn [rsub lift2 positive_r].
      destruct (Rlt_dec 0 (100 - 0)) as [_ | H]; [reflexivity | lra].
    + intros a [<- | []].
      rewrite (score_unpriced unpriced_asset') by reflexivity.
      cbn [rsub lift2 positive_r].
      destruct (Rlt_dec 0 (0 - 100)) as [H | _]; [lra | reflexivity].
  - apply Hnative. reflexivity.
  - apply Hunpriced; reflexivity.
Defined.

(** * Further properties *)

(** ** The retries of the quote request *)

Lemma resolve_only_idem {A} (r : promise A * state) :
  resolve_only (resolve_only r) = resolve_only r.
Proof. destruct r as [[a | e |] s]; reflexivity. Qed.

Lemma snd_resolve_only {A} (r : promise A * state) :
  snd (resolve_only r) = snd r.
Proof. destruct r as [[a | e |] s]; reflexivity. Qed.

(** After [k] answers without XLM the call is the promise of the call with
    [retryCount + k], wrapped in a promise that can only be resolved. *)
Lemma retry_prefix (w : world) (k n : nat) (s : state) :
  n + k <= 10 ->
  (forall i, i < k -> missing_XLM w (cmc_calls s + i)) ->
  coinmarketcapReqeust w n s
  = (if (k =? 0)%nat then (fun r => r) else resolve_only)
      (coinmarketcapReqeust w (n + k)
         (later s k (flat_map retry_events (seq (n + 1) k)))).
Proof.
  revert n s. induction k as [|k IH]; intros n s Hn Hk.
  - simpl. rewrite Nat.add_0_r, later_0. reflexivity.
  - destruct (Hk 0) as (j & Hj & Hd); [lia |].
    rewrite Nat.add_0_r in Hj.
    rewrite coinmarketcapReqeust_step, Hj, Hd.
    assert ((n <? 10)%nat = true) as -> by (apply Nat.ltb_lt; lia).
    simpl andb. cbv iota.
    rewrite count_request_later, !emit_later, !later_later.
    rewrite IH.
    + replace (n + 1 + k) with (n + S k) by lia.
      rewrite later_later.
      match goal with
      | |- context [later s ?c ?ev] =>
          rewrite (later_ext s c (S k) ev (flat_map retry_events (seq (n + 1) (S k))))
      end.
      * change (S k =? 0)%nat with false. cbv iota.
        destruct (k =? 0)%nat; [reflexivity | apply resolve_only_idem].
      * lia.
      * simpl seq. simpl flat_map. rewrite <- !app_assoc.
        replace (n + 1 + 1) with (S (n + 1)) by lia. reflexivity.
    + lia.
    + intros i Hi. cbn [cmc_calls later].
      match goal with
      | |- missing_XLM w ?c => replace c with (cmc_calls s + S i) by lia
      end.
      apply Hk. lia.
Qed.

(** X1: the quote request stops at the first answer that lists XLM.  When
    the first [k] answers (at most 10) do not list XLM and the next one
    does, [coinmarketcapReqeust] is resolved with that answer after [k + 1]
    requests, each retry coming after a report and a timer of one second;
    no further request is made. *)
Theorem X1_stops_at_first_listing (w : world) (s : state) (k : nat)
    (j : cmc_json) (entry : xlm_entry) :
  k <= 10 ->
  (forall i, i < k -> missing_XLM w (cmc_calls s + i)) ->
  coinmarketcap w (cmc_calls s + k) = Answer j ->
  cmc_data j = Some (Some entry) ->
  coinmarketcapReqeust w 0 s
  = (Resolved j,
     later s (k + 1) (flat_map retry_events (seq 1 k) ++ [CmcRequest])).
Proof.
  intros Hk Hmiss Hj Hd.
  rewrite (retry_prefix w k 0 s) by (simpl; assumption).
  rewrite coinmarketcapReqeust_step. cbn [cmc_calls later].
  rewrite Hj, Hd. cbn [has_XLM negb andb].
  rewrite count_request_later, later_later.
  destruct (k =? 0)%nat; reflexivity.
Qed.

(** Two answers without XLM, then one with it: three requests. *)
Lemma X1_listed_at_third_request :
  coinmarketcapReqeust (example_world listed_late [listed_pair]) 0
    (initial_state (example_world listed_late [listed_pair]))
  = (Resolved {| cmc_data := Some (Some (quote_USD (Fin 5%Q)));
                 cmc_text := "{...}" |},
     later (initial_state (example_world listed_late [listed_pair])) 3
       (flat_map retry_events (seq 1 2) ++ [CmcRequest])).
Proof.
  apply (X1_stops_at_first_listing _ _ 2 _ (quote_USD (Fin 5%Q))).
  - lia.
  - intros [|[|i]] Hi; try lia; eexists; split; reflexivity.
  - reflexivity.
  - reflexivity.
Defined.

(** X2: a retry that fails is never reported.  When at least one answer
    without XLM is followed by a request that fails, the promise that
    [coinmarketcapReqeust] returned is neither resolved nor rejected. *)
Theorem X2_failed_retry_never_settles (w : world) (s : state) (k : nat)
    (e : error) :
  1 <= k <= 10 ->
  (forall i, i < k -> missing_XLM w (cmc_calls s + i)) ->
  coinmarketcap w (cmc_calls s + k) = Failure e ->
  fst (coinmarketcapReqeust w 0 s) = Pending.
Proof.
  intros Hk Hmiss He.
  rewrite (retry_prefix w k 0 s) by (simpl; lia || assumption).
  rewrite coinmarketcapReqeust_step. cbn [cmc_calls later].
  rewrite He.
  destruct k as [|k]; [lia | reflexivity].
Qed.

(** An answer without XLM, then no answer at all. *)
Lemma X2_quote_api_lost :
  fst (coinmarketcapReqeust (example_world quote_api_lost [listed_pair]) 0
         (initial_state (example_world quote_api_lost [listed_pair])))
  = Pending.
Proof.
  apply (X2_failed_retry_never_settles _ _ 1 (RequestError "ECONNREFUSED")).
  - lia.
  - intros [|i] Hi; [| lia]. eexists. split; reflexivity.
  - reflexivity.
Defined.

Lemma fst_resolve_only {A} (r : promise A * state) :
  fst (resolve_only r)
  = match fst r with
    | Resolved d => Resolved d
    | _ => Pending
    end.
Proof. destruct r as [[a | e |] s]; reflexivity. Qed.

(** Whatever the answers, a call leaves the state as it was but for the
    requests it made and what it wrote to the trace: one request, and
    before it one request, one report and one timer for each retry. *)
Lemma coinmarketcapReqeust_state (w : world) (m n : nat) (s : state) :
  10 - n = m ->
  exists retries,
    retries <= 10 - n
    /\ snd (coinmarketcapReqeust w n s)
       = later s (retries + 1)
           (flat_map retry_events (seq (n + 1) retries) ++ [CmcRequest]).
Proof.
  revert n s. induction m as [|m IH]; intros n s Hm;
    rewrite coinmarketcapReqeust_step;
    destruct (coinmarketcap w (cmc_calls s)) as [j | e];
    try (exists 0; split; [lia | apply count_request_later]);
    destruct (cmc_data j) as [data |];
    try (exists 0; split; [lia | apply count_request_later]).
  - assert ((n <? 10)%nat = false) as -> by (apply Nat.ltb_ge; lia).
    rewrite andb_false_r.
    exists 0; split; [lia | apply count_request_later].
  - destruct (negb (has_XLM data) && (n <? 10)%nat)%bool eqn:E;
      [| exists 0; split; [lia | apply count_request_later]].
    apply andb_true_iff in E. destruct E as [_ E]. apply Nat.ltb_lt in E.
    rewrite snd_resolve_only.
    rewrite count_request_later, !emit_later, !later_later.
    match goal with
    | |- context [coinmarketcapReqeust w (n + 1) ?st] =>
        destruct (IH (n + 1) st) as (retries & Hr & ->); [lia |]
    end.
    exists (S retries). split; [lia |].
    rewrite later_later. apply later_ext; [lia |].
    simpl seq. simpl flat_map. rewrite <- !app_assoc.
    replace (n + 1 + 1) with (S (n + 1)) by lia. reflexivity.
Qed.

(** The outcome of a call depends on the state through the number of
    requests made so far only. *)
Lemma coinmarketcapReqeust_outcome (w : world) (m n : nat) (s s' : state) :
  10 - n = m ->
  cmc_calls s = cmc_calls s' ->
  fst (coinmarketcapReqeust w n s) = fst (coinmarketcapReqeust w n s').
Proof.
  revert n s s'. induction m as [|m IH]; intros n s s' Hm Hc;
    rewrite (coinmarketcapReqeust_step w n s), (coinmarketcapReqeust_step w n s'), <- Hc;
    destruct (coinmarketcap w (cmc_calls s)) as [j | e]; try reflexivity;
    destruct (cmc_data j) as [data |]; try reflexivity.
  - assert ((n <? 10)%nat = false) as -> by (apply Nat.ltb_ge; lia).
    rewrite andb_false_r. reflexivity.
  - destruct (negb (has_XLM data) && (n <? 10)%nat)%bool eqn:E; [| reflexivity].
    apply andb_true_iff in E. destruct E as [_ E]. apply Nat.ltb_lt in E.
    rewrite !fst_resolve_only.
    rewrite (IH (n + 1) _
               (emit (Timeout 1000)
                  (emit (LogError ("Coinmarketcap missing response: retry attempt "
                                   ++ pretty (n + 1)%nat)) (count_request s'))));
      [reflexivity | lia |].
    simpl. rewrite Hc. reflexivity.
Qed.

(** X3: whatever the quote API answers, [coinmarketcapReqeust] makes at
    least one and at most eleven requests, and leaves the state as it was
    but for the count of the requests and the trace. *)
Theorem X3_at_most_eleven_requests (w : world) (s : state) :
  exists retries,
    retries <= 10
    /\ snd (coinmarketcapReqeust w 0 s)
       = later s (retries + 1)
           (flat_map retry_events (seq 1 retries) ++ [CmcRequest]).
Proof.
  destruct (coinmarketcapReqeust_state w 10 0 s eq_refl) as (retries & H & E).
  exists retries. split; [exact H | exact E].
Qed.

(** ** Phase 1 *)

(** The third task of phase 1, in terms of the quote request. *)
Lemma phase1_externalPrices_run (w : world) (s : state) :
  exists p0 j,
    getExternalPrices (feeds w) = Resolved p0
    /\ getBtcPrice (btc_coindesk (feeds w)) (btc_bitfinex (feeds w))
         (btc_coinbase (feeds w)) (btc_kraken (feeds w))
       = Resolved (USD_BTC p0)
    /\ getLumenPrice (xlm_poloniex (feeds w)) (xlm_bittrex (feeds w))
         (xlm_kraken (feeds w))
       = Resolved (BTC_XLM p0)
    /\ USD_XLM p0 = _round (nmul (USD_BTC p0) (BTC_XLM p0)) 6
    /\ fst (phase1_externalPrices w s)
       = match fst (coinmarketcapReqeust w 0 s) with
         | Resolved j => quote_handler j
         | Rejected e => Rejected e
         | Pending => Pending
         end
    /\ (fst (phase1_externalPrices w s) = Resolved tt ->
        fst (coinmarketcapReqeust w 0 s) = Resolved j
        /\ assets (doc (snd (phase1_externalPrices w s))) = assets (doc s)
        /\ pairs (doc (snd (phase1_externalPrices w s))) = pairs (doc s)
        /\ directory (snd (phase1_externalPrices w s)) = directory s
        /\ _meta (doc (snd (phase1_externalPrices w s)))
           = set_externalPrices
               {| USD_BTC := USD_BTC p0; BTC_XLM := BTC_XLM p0;
                  USD_XLM := USD_XLM p0;
                  USD_XLM_24hAgo := Some (quote_24hAgo (USD_XLM p0) j);
                  USD_XLM_change := quote_change j |}
               (_meta (doc s))).
Proof.
  destruct (getExternalPrices_resolves (feeds w)) as (btc & xlm & Hb & Hx & Hp).
  unfold phase1_externalPrices, bind, await, modify, StepLogger_log.
  rewrite Hp. cbn -[coinmarketcapReqeust].
  match goal with
  | |- context [coinmarketcapReqeust w 0 ?st] =>
      pose proof (coinmarketcapReqeust_outcome w 10 0 st s eq_refl eq_refl) as Ho;
      destruct (coinmarketcapReqeust_state w 10 0 st eq_refl) as (retries & _ & Hs);
      destruct (coinmarketcapReqeust w 0 st) as [[j | e |] s3]
  end; simpl in Ho, Hs; rewrite <- Ho; subst s3.
  - eexists _, j. do 4 (split; [reflexivity || assumption |]).
    unfold quote_handler, quote_24hAgo, quote_change.
    destruct (cmc_data j) as [[[| | change] |] |]; cbn;
      (split; [reflexivity |]); intros H;
      first [discriminate | repeat split; reflexivity].
  - eexists _, {| cmc_data := None; cmc_text := "" |}.
    do 4 (split; [reflexivity || assumption |]). split; [reflexivity | discriminate].
  - eexists _, {| cmc_data := None; cmc_text := "" |}.
    do 4 (split; [reflexivity || assumption |]). split; [reflexivity | discriminate].
Qed.

(** Phase 1, in terms of its third task: the first two tasks leave a state
    [st] for it. *)
Lemma phase1_run (w : world) (s : state) :
  exists st,
    cmc_calls st = cmc_calls s
    /\ assets (doc st) = assets (doc s)
    /\ pairs (doc st) = pairs (doc s)
    /\ directory st = directory s
    /\ (forall main, horizonMain w = Answer main ->
        _meta (doc st)
        = set_stellarTermVersion (version_value w)
            (set_horizon main (_meta (doc s))))
    /\ phase1 w s
       = match horizonMain w, phase1_externalPrices w st with
         | Failure e, (_, s3) => (Rejected e, s3)
         | Answer _, (Resolved _, s3) =>
             (Resolved tt, emit (Log "Phase 1 completed") s3)
         | Answer _, (Rejected e, s3) => (Rejected e, s3)
         | Answer _, (Pending, s3) => (Pending, s3)
         end.
Proof.
  unfold phase1, bind, StepLogger_log, modify, Promise_all_M. cbn [run_all].
  unfold bind, getHorizonMain, request, await, getStellarTermDotComVersion,
    StepLogger_error, StepLogger_log, modify, bind, ret, version_value.
  destruct (horizonMain w) as [main | eh];
    destruct (stellarterm_version w) as [[version |] | ev];
    cbn -[phase1_externalPrices];
    match goal with
    | |- context [phase1_externalPrices w ?st] =>
        exists st; destruct (phase1_externalPrices w st) as [[[] | e |] s3]
    end;
    repeat split; try reflexivity; try discriminate;
    intros main' [= <-]; reflexivity.
Qed.

Lemma phase1_outcome (w : world) (s : state) :
  fst (phase1 w s)
  = match horizonMain w with
    | Failure e => Rejected e
    | Answer _ =>
        match fst (coinmarketcapReqeust w 0 s) with
        | Resolved j => quote_handler j
        | Rejected e => Rejected e
        | Pending => Pending
        end
    end.
Proof.
  destruct (phase1_run w s) as (st & Hc & _ & _ & _ & _ & ->).
  destruct (phase1_externalPrices_run w st) as (p0 & j & _ & _ & _ & _ & Ho & _).
  rewrite (coinmarketcapReqeust_outcome w 10 0 st s eq_refl Hc) in Ho.
  rewrite <- Ho.
  destruct (horizonMain w) as [main | eh];
    destruct (phase1_externalPrices w st) as [[[] | e |] s4]; reflexivity.
Qed.

(** X4: the outcome of phase 1 is decided by the request for the Horizon
    root and by the quote request alone: phase 1 is rejected when the
    Horizon root fails; otherwise it is rejected or never settled as the
    quote request is, and, when the quote request is resolved, it is
    rejected when the body has an [XLM] entry without [quote.USD] (reading
    the change throws) and resolved in every other case.  The price sources
    and the version probe cannot make it fail. *)
Theorem X4_phase1_outcome (w : world) (s : state) :
  fst (phase1 w s)
  = match horizonMain w with
    | Failure e => Rejected e
    | Answer _ =>
        match fst (coinmarketcapReqeust w 0 s) with
        | Resolved j => quote_handler j
        | Rejected e => Rejected e
        | Pending => Pending
        end
    end.
Proof. exact (phase1_outcome w s). Qed.

Lemma phase1_leaves_prices (w : world) (s s' : state) :
  phase1 w s = (Resolved tt, s') ->
  exists main j p,
    horizonMain w = Answer main
    /\ fst (coinmarketcapReqeust w 0 s) = Resolved j
    /\ horizon (_meta (doc s')) = Some main
    /\ stellarTermVersion (_meta (doc s')) = Some (version_value w)
    /\ externalPrices (_meta (doc s')) = Some p
    /\ Resolved (USD_BTC p)
       = getBtcPrice (btc_coindesk (feeds w)) (btc_bitfinex (feeds w))
           (btc_coinbase (feeds w)) (btc_kraken (feeds w))
    /\ Resolved (BTC_XLM p)
       = getLumenPrice (xlm_poloniex (feeds w)) (xlm_bittrex (feeds w))
           (xlm_kraken (feeds w))
    /\ USD_XLM p = _round (nmul (USD_BTC p) (BTC_XLM p)) 6
    /\ USD_XLM_24hAgo p = Some (quote_24hAgo (USD_XLM p) j)
    /\ USD_XLM_change p = quote_change j
    /\ assets (doc s') = assets (doc s)
    /\ pairs (doc s') = pairs (doc s).
Proof.
  intros H.
  destruct (phase1_run w s) as (st & Hc & Ha & Hp & _ & Hm & Hrun).
  rewrite Hrun in H. clear Hrun.
  destruct (phase1_externalPrices_run w st)
    as (p0 & j & _ & Hbtc & Hxlm & Husd & _ & Hpost).
  destruct (horizonMain w) as [main | eh];
    destruct (phase1_externalPrices w st) as [[[] | e |] s4];
    try discriminate.
  injection H as <-.
  destruct (Hpost eq_refl) as (Hj & Ha4 & Hp4 & _ & Hm4).
  rewrite (coinmarketcapReqeust_outcome w 10 0 st s eq_refl Hc) in Hj.
  cbn [snd] in *.
  exists main, j. eexists.
  split; [reflexivity |]. split; [exact Hj |].
  cbn [emit doc]. rewrite Hm4, (Hm main eq_refl).
  cbn [set_externalPrices set_stellarTermVersion set_horizon horizon
         stellarTermVersion externalPrices USD_BTC BTC_XLM USD_XLM
         USD_XLM_24hAgo USD_XLM_change].
  repeat split; try (symmetry; assumption); try assumption; congruence.
Qed.



(** ** Phase 2 *)

Lemma each_directory_assets (d : directory_t)
    (l : list (string * directory_asset)) (s : state) :
  if forallb (has_anchor d) l then
    exists s',
      each l (push_entry d) s = (Resolved tt, s')
      /\ assets (doc s')
         = assets (doc s)
           ++ map (fun entry =>
                     directory_entry
                       (default "" (anchors d !! asset_domain (snd entry)))
                       (fst entry) (snd entry)) l
      /\ _meta (doc s') = _meta (doc s)
      /\ pairs (doc s') = pairs (doc s)
      /\ directory s' = directory s
  else
    fst (each l (push_entry d) s)
    = Rejected (TypeError "Cannot read properties of undefined (reading 'website')").
Proof.
  revert s. induction l as [|entry rest IH]; intros s.
  - simpl. exists s. rewrite app_nil_r. repeat split; reflexivity.
  - cbn [forallb each]. unfold has_anchor at 1. unfold bind.
    unfold push_entry at 1 3.
    destruct (anchors d !! asset_domain (snd entry)) as [website |] eqn:Ea;
      [| reflexivity].
    cbn [andb]. unfold modify.
    specialize (IH (set_doc (set_assets (fun l =>
                      l ++ [directory_entry website (fst entry) (snd entry)])) s)).
    destruct (forallb (has_anchor d) rest).
    + destruct IH as (s' & -> & Hassets & Hmeta & Hpairs & Hdir).
      exists s'. split; [reflexivity |].
      rewrite Hassets, Hmeta, Hpairs, Hdir. cbn. rewrite Ea, <- app_assoc.
      repeat split; reflexivity.
    + exact IH.
Qed.

Lemma loadAssets_run (w : world) (s : state) :
  match externalPrices (_meta (doc s)) with
  | None =>
      fst (loadAssets w s)
      = Rejected (TypeError "Cannot read properties of undefined")
  | Some p =>
      match initializeIssuerOrgs w with
      | Failure e => fst (loadAssets w s) = Rejected e
      | Answer d =>
          if forallb (has_anchor d) (directory_assets d) then
            exists s',
              loadAssets w s = (Resolved tt, s')
              /\ assets (doc s') = native_asset (USD_XLM p) :: listed_assets d
              /\ directory s' = Some d
              /\ _meta (doc s') = set_build_id (buildID d) (_meta (doc s))
              /\ pairs (doc s') = pairs (doc s)
          else
            fst (loadAssets w s)
            = Rejected (TypeError "Cannot read properties of undefined (reading 'website')")
      end
  end.
Proof.
  unfold loadAssets.
  change (fun entry : string * directory_asset =>
            match anchors ?d !! asset_domain (snd entry) with
            | Some website =>
                modify (set_doc (set_assets (fun l =>
                  l ++ [directory_entry website (fst entry) (snd entry)])))
            | None =>
                throw (TypeError "Cannot read properties of undefined (reading 'website')")
            end)
    with (push_entry d).
  unfold bind, StepLogger_log, modify, read_externalPrices, get,
    request, await, throw, ret.
  cbn -[each native_asset push_entry].
  destruct (externalPrices (_meta (doc s))) as [p |]; [| reflexivity].
  destruct (initializeIssuerOrgs w) as [d | e]; [| reflexivity].
  cbn -[each native_asset push_entry].
  match goal with
  | |- context [each (directory_assets d) (push_entry d) ?st] =>
      pose proof (each_directory_assets d (directory_assets d) st) as H
  end.
  destruct (forallb (has_anchor d) (directory_assets d)).
  - destruct H as (s' & -> & Hassets & Hmeta & Hpairs & Hdir).
    eexists. split; [reflexivity |].
    cbn [emit doc directory]. rewrite Hassets, Hmeta, Hpairs, Hdir.
    repeat split; reflexivity.
  - match goal with
    | |- context [each (directory_assets d) (push_entry d) ?st] =>
        destruct (each (directory_assets d) (push_entry d) st) as [[[] | e |] s']
    end; try discriminate.
    exact H.
Qed.

(** X6: when the external prices are known, the directory answers, and
    every asset of the directory has an anchor, [loadAssets] is resolved and
    the assets are the native asset followed by one entry for each asset of
    the directory, in its order, whatever the assets were before; the build
    id of the directory is recorded. *)
Theorem X6_loadAssets_lists_directory (w : world) (s : state)
    (p : ExternalPrices) (d : directory_t) :
  externalPrices (_meta (doc s)) = Some p ->
  initializeIssuerOrgs w = Answer d ->
  forallb (has_anchor d) (directory_assets d) = true ->
  exists s',
    loadAssets w s = (Resolved tt, s')
    /\ assets (doc s') = native_asset (USD_XLM p) :: listed_assets d
    /\ directory s' = Some d
    /\ build_id (_meta (doc s')) = Some (buildID d)
    /\ externalPrices (_meta (doc s')) = Some p
    /\ pairs (doc s') = pairs (doc s).
Proof.
  intros Hp Hd Ha. pose proof (loadAssets_run w s) as H.
  rewrite Hp, Hd, Ha in H.
  destruct H as (s' & Hrun & Hassets & Hdir & Hmeta & Hpairs).
  exists s'. rewrite Hmeta. cbn [set_build_id build_id externalPrices].
  repeat split; assumption.
Qed.

(** X7: [loadAssets] is rejected in three cases and resolved otherwise:
    the external prices were never assigned, the directory cannot be
    initialised (with the error of the request), or an asset of the
    directory has a domain without anchor. *)
Theorem X7_loadAssets_outcome (w : world) (s : state) :
  fst (loadAssets w s)
  = match externalPrices (_meta (doc s)) with
    | None => Rejected (TypeError "Cannot read properties of undefined")
    | Some _ =>
        match initializeIssuerOrgs w with
        | Failure e => Rejected e
        | Answer d =>
            if forallb (has_anchor d) (directory_assets d) then Resolved tt
            else Rejected
                   (TypeError "Cannot read properties of undefined (reading 'website')")
        end
    end.
Proof.
  pose proof (loadAssets_run w s) as H.
  destruct (externalPrices (_meta (doc s))) as [p |]; [| exact H].
  destruct (initializeIssuerOrgs w) as [d | e]; [| exact H].
  destruct (forallb (has_anchor d) (directory_assets d)); [| exact H].
  destruct H as (s' & -> & _). reflexivity.
Qed.

(** The directory of the examples: the native asset, then USD. *)
Lemma X6_example_directory :
  exists s',
    loadAssets (example_world quoted [listed_pair])
      (snd (phase1 (example_world quoted [listed_pair])
              (initial_state (example_world quoted [listed_pair]))))
    = (Resolved tt, s')
    /\ map (fun asset => asset !! "id") (assets (doc s'))
       = [Some (VStr "XLM-native"); Some (VStr "USD-example.com")].
Proof.
  edestruct (X6_loadAssets_lists_directory (example_world quoted [listed_pair])
               (snd (phase1 (example_world quoted [listed_pair])
                       (initial_state (example_world quoted [listed_pair])))))
    as (s' & Hrun & Hassets & _).
  - vm_compute. reflexivity.
  - reflexivity.
  - reflexivity.
  - exists s'. split; [exact Hrun |]. rewrite Hassets. reflexivity.
Defined.

(** ** Rounding *)

Lemma pow10_pos (p : nat) : (0 < pow10 p)%Z.
Proof. unfold pow10. apply Z.pow_pos_nonneg; lia. Qed.

Lemma pow10_Q_pos (p : nat) : (0 < inject_Z (pow10 p))%Q.
Proof.
  change 0%Q with (inject_Z 0). rewrite <- Zlt_Qlt. apply pow10_pos.
Qed.

Lemma round_Q_eq (p : nat) (q : Q) :
  (round_Q p q
   == inject_Z (Qfloor (q * inject_Z (pow10 p) + (1 # 2))) / inject_Z (pow10 p))%Q.
Proof. unfold round_Q. apply Qred_correct. Qed.

(** Rounding keeps the order. *)
Lemma round_Q_le (p : nat) (a b : Q) :
  (a <= b)%Q -> (round_Q p a <= round_Q p b)%Q.
Proof.
  intros H. rewrite !round_Q_eq.
  pose proof (pow10_Q_pos p) as Hp.
  apply Qmult_le_compat_r; [| apply Qlt_le_weak, Qinv_lt_0_compat, Hp].
  rewrite <- Zle_Qle. apply Qfloor_resp_le.
  apply Qplus_le_l. apply Qmult_le_compat_r; [exact H | apply Qlt_le_weak, Hp].
Qed.

Lemma Qfloor_half (z : Z) : Qfloor (inject_Z z + (1 # 2)) = z.
Proof.
  apply Z.le_antisymm.
  - apply Z.lt_succ_r. rewrite Zlt_Qlt.
    apply Qle_lt_trans with (inject_Z z + (1 # 2))%Q; [apply Qfloor_le |].
    unfold Z.succ. rewrite inject_Z_plus.
    apply Qplus_lt_r. reflexivity.
  - rewrite <- (Qfloor_Z z) at 1. apply Qfloor_resp_le.
    rewrite <- (Qplus_0_r (inject_Z z)) at 1.
    apply Qplus_le_r. discriminate.
Qed.

(** Rounding to [p] decimals leaves a number with [p] decimals as it is. *)
Lemma round_Q_exact (p : nat) (q : Q) (z : Z) :
  (q * inject_Z (pow10 p) == inject_Z z)%Q -> (round_Q p q == q)%Q.
Proof.
  intros H. rewrite round_Q_eq.
  rewrite (Qfloor_comp _ (inject_Z z + (1 # 2))) by (rewrite H; reflexivity).
  rewrite Qfloor_half, <- H.
  field. intros H0. pose proof (pow10_Q_pos p) as Hp.
  rewrite H0 in Hp. discriminate.
Qed.

Lemma Number7_units (u : decimal7) :
  (Qred (Z.of_N u # 10000000) * inject_Z (pow10 7) == inject_Z (Z.of_N u))%Q.
Proof.
  rewrite Qred_correct. unfold pow10.
  change (10 ^ Z.of_nat 7)%Z with 10000000%Z.
  unfold Qeq, Qmult, inject_Z. cbn [Qnum Qden]. lia.
Qed.

(** [_.round(x, 7)] leaves a number of Horizon as it is. *)
Lemma _round_Number7 (u : decimal7) : _round (Number7 u) 7 = Number7 u.
Proof.
  unfold Number7, _round, lift1. f_equal. unfold round_Q.
  apply Qred_complete.
  transitivity (round_Q 7 (Qred (Z.of_N u # 10000000)));
    [symmetry; apply round_Q_eq |].
  transitivity (Qred (Z.of_N u # 10000000));
    [apply (round_Q_exact 7 _ (Z.of_N u)), Number7_units | apply Qred_correct].
Qed.

Lemma Qred_inject_Z (z : Z) : Qred (inject_Z z) = inject_Z z.
Proof.
  unfold Qred, inject_Z.
  pose proof (Z.ggcd_gcd z 1) as Hg.
  pose proof (Z.ggcd_correct_divisors z 1) as Hd.
  destruct (Z.ggcd z 1) as (g & aa & bb). simpl in Hg, Hd.
  rewrite Z.gcd_1_r in Hg. subst g. destruct Hd as [Ha Hb].
  rewrite Z.mul_1_l in Ha, Hb. subst aa bb. reflexivity.
Qed.

(** [_.round(x)] is a whole number. *)
Lemma round_Q_0 (q : Q) : round_Q 0 q = inject_Z (Qfloor (q + (1 # 2))).
Proof.
  unfold round_Q. rewrite <- (Qred_inject_Z (Qfloor (q + (1 # 2)))).
  apply Qred_complete.
  change (inject_Z (pow10 0)) with 1%Q.
  rewrite (Qfloor_comp (q * 1 + (1 # 2)) (q + (1 # 2))) by ring.
  field.
Qed.

(** ** The order book of a pair *)

Lemma pair_bid_first (res : orderbook) (o : offer) (rest : list offer) :
  bids res = o :: rest -> pair_bid res = Number7 (price o).
Proof. intros H. unfold pair_bid. rewrite H. apply _round_Number7. Qed.

Lemma pair_ask_first (res : orderbook) (o : offer) (rest : list offer) :
  asks res = o :: rest -> pair_ask res = Number7 (price o).
Proof. intros H. unfold pair_ask. rewrite H. apply _round_Number7. Qed.

Lemma Number7_le (u v : decimal7) :
  (u <= v)%N -> (Qred (Z.of_N u # 10000000) <= Qred (Z.of_N v # 10000000))%Q.
Proof.
  intros H. apply Qred_le. unfold Qle. cbn [Qnum Qden].
  apply Z.mul_le_mono_nonneg_r; lia.
Qed.

Lemma Number7_nonneg (u : decimal7) : (0 <= Qred (Z.of_N u # 10000000))%Q.
Proof.
  rewrite Qred_correct. unfold Qle. cbn [Qnum Qden]. lia.
Qed.

Lemma Number7_pos (u : decimal7) :
  (0 < u)%N -> (0 < Qred (Z.of_N u # 10000000))%Q.
Proof.
  intros H. rewrite Qred_correct. unfold Qlt. cbn [Qnum Qden]. lia.
Qed.

Lemma round_Q_Number7 (u : decimal7) :
  (round_Q 7 (Qred (Z.of_N u # 10000000)) == Qred (Z.of_N u # 10000000))%Q.
Proof. apply (round_Q_exact 7 _ (Z.of_N u)), Number7_units. Qed.

(** X8: for an order book whose best bid is not above its best ask, the
    bid and the ask of the pair are the prices of Horizon as they are, and
    the price of the pair lies between them. *)
Theorem X8_price_between_bid_and_ask (counterNative : bool) (res : orderbook)
    (bid ask : offer) (other_bids other_asks : list offer) :
  bids res = bid :: other_bids ->
  asks res = ask :: other_asks ->
  (price bid <= price ask)%N ->
  pair_bid res = Number7 (price bid)
  /\ pair_ask res = Number7 (price ask)
  /\ nle (pair_bid res) (pair_price counterNative res) = true
  /\ nle (pair_price counterNative res) (pair_ask res) = true.
Proof.
  intros Hb Ha Hle.
  pose proof (pair_bid_first res bid other_bids Hb) as Ebid.
  pose proof (pair_ask_first res ask other_asks Ha) as Eask.
  split; [exact Ebid |]. split; [exact Eask |].
  pose proof (Number7_le _ _ Hle) as Hq.
  unfold pair_price.
  destruct (ngt (pair_spread res) (Fin 0.4%Q) && counterNative)%bool;
    rewrite Ebid, Eask; unfold Number7; cbn [nle nadd ndiv lift2 _round lift1].
  - split; apply Qle_bool_iff; [apply Qle_refl | exact Hq].
  - change (Qeq_bool 2 0) with false. cbv iota. cbn [nle _round lift1].
    pose proof (round_Q_Number7 (price bid)) as RB.
    pose proof (round_Q_Number7 (price ask)) as RA.
    set (B := Qred (Z.of_N (price bid) # 10000000)) in *.
    set (A := Qred (Z.of_N (price ask) # 10000000)) in *.
    split; apply Qle_bool_iff.
    + apply Qle_trans with (round_Q 7 B); [rewrite RB; apply Qle_refl |].
      apply round_Q_le. apply Qle_shift_div_l; [reflexivity |].
      assert (E : (B * 2 == B + B)%Q) by ring. rewrite E.
      apply Qplus_le_r. exact Hq.
    + apply Qle_trans with (round_Q 7 A); [| rewrite RA; apply Qle_refl].
      apply round_Q_le. apply Qle_shift_div_r; [reflexivity |].
      assert (E : (A * 2 == A + A)%Q) by ring. rewrite E.
      apply Qplus_le_l. exact Hq.
Qed.

(** The order book of the examples: bid 1, ask 1.01. *)
Lemma X8_example_book :
  pair_bid example_book = Fin 1%Q
  /\ pair_ask example_book = Fin (101 # 100)%Q
  /\ nle (pair_bid example_book) (pair_price true example_book) = true
  /\ nle (pair_price true example_book) (pair_ask example_book) = true.
Proof.
  apply (X8_price_between_bid_and_ask true example_book
           {| price := 10000000; amount := 5000000000 |}
           {| price := 10100000; amount := 3000000000 |}
           [ {| price := 8000000; amount := 70000000 |} ]
           [ {| price := 12000000; amount := 10000000000 |} ]).
  - reflexivity.
  - reflexivity.
  - vm_compute. discriminate.
Defined.

(** X9: for an order book whose best bid is not above its best ask, and
    whose best ask is positive, the spread of the pair is a number between 0
    and 1. *)
Theorem X9_spread_range (res : orderbook)
    (bid ask : offer) (other_bids other_asks : list offer) :
  bids res = bid :: other_bids ->
  asks res = ask :: other_asks ->
  (price bid <= price ask)%N ->
  (0 < price ask)%N ->
  exists spread,
    pair_spread res = Fin spread /\ (0 <= spread)%Q /\ (spread <= 1)%Q.
Proof.
  intros Hb Ha Hle Hpos.
  unfold pair_spread.
  rewrite (pair_bid_first res bid other_bids Hb),
    (pair_ask_first res ask other_asks Ha).
  pose proof (Number7_le _ _ Hle) as Hq.
  pose proof (Number7_nonneg (price bid)) as HB.
  pose proof (Number7_pos _ Hpos) as HA.
  unfold Number7.
  set (B := Qred (Z.of_N (price bid) # 10000000)) in *.
  set (A := Qred (Z.of_N (price ask) # 10000000)) in *.
  cbn [ndiv].
  assert (Qeq_bool A 0 = false) as ->.
  { apply not_true_iff_false. intros H. apply Qeq_bool_iff in H.
    rewrite H in HA. discriminate. }
  cbn [nsub lift2 _round lift1].
  eexists. split; [reflexivity |]. split.
  - apply Qle_trans with (round_Q 4 0);
      [rewrite (round_Q_exact 4 0 0) by reflexivity; apply Qle_refl |].
    apply round_Q_le.
    apply (Qplus_le_l _ _ (B / A)). ring_simplify.
    apply Qle_shift_div_r; [exact HA |]. rewrite Qmult_1_l. exact Hq.
  - apply Qle_trans with (round_Q 4 1);
      [| rewrite (round_Q_exact 4 1 10000) by reflexivity; apply Qle_refl].
    apply round_Q_le.
    apply (Qplus_le_l _ _ (B / A)). ring_simplify.
    rewrite <- (Qplus_0_l 1) at 1. apply Qplus_le_l.
    apply Qle_shift_div_l; [exact HA |]. rewrite Qmult_0_l. exact HB.
Qed.

(** The spread of the order book of the examples. *)
Lemma X9_example_book :
  exists spread,
    pair_spread example_book = Fin spread /\ (0 <= spread)%Q /\ (spread <= 1)%Q.
Proof.
  apply (X9_spread_range example_book
           {| price := 10000000; amount := 5000000000 |}
           {| price := 10100000; amount := 3000000000 |}
           [ {| price := 8000000; amount := 70000000 |} ]
           [ {| price := 12000000; amount := 10000000000 |} ]).
  - reflexivity.
  - reflexivity.
  - vm_compute. discriminate.
  - reflexivity.
Defined.

(** The amounts of the offers that satisfy [in_band] add up to no more than
    the amounts of all the offers. *)
Lemma band_sum_le (in_band : offer -> bool) (offers : list offer) :
  exists x y,
    band_sum in_band offers = Fin x
    /\ total (map (fun o => Number7 (amount o)) offers) = Fin y
    /\ (0 <= x)%Q /\ (x <= y)%Q.
Proof.
  unfold band_sum.
  induction offers as [|o rest (x & y & Hx & Hy & H0 & Hle)].
  - exists 0%Q, 0%Q. repeat split; apply Qle_refl.
  - pose proof (Number7_nonneg (amount o)) as Ho.
    cbn [List.filter map]. rewrite total_cons, Hy.
    destruct (in_band o).
    + cbn [map]. rewrite total_cons, Hx. unfold Number7. cbn [nadd lift2].
      eexists _, _. split; [reflexivity |]. split; [reflexivity |]. split.
      * apply Qle_trans with (0 + 0)%Q; [apply Qle_refl |].
        apply Qplus_le_compat; assumption.
      * apply Qplus_le_r. exact Hle.
    + rewrite Hx. unfold Number7. cbn [nadd lift2].
      eexists _, _. split; [reflexivity |]. split; [reflexivity |]. split.
      * exact H0.
      * apply Qle_trans with (0 + y)%Q; [rewrite Qplus_0_l; exact Hle |].
        apply Qplus_le_l. exact Ho.
Qed.

Lemma Math_min_Fin (a b : Q) :
  exists m, Math_min (Fin a) (Fin b) = Fin m
            /\ (m <= a)%Q /\ (m <= b)%Q /\ (m == a \/ m == b)%Q.
Proof.
  unfold Math_min. destruct (Qle_bool a b) eqn:E.
  - exists a. apply Qle_bool_iff in E.
    repeat split; [apply Qle_refl | exact E | left; reflexivity].
  - exists b. repeat split; [| apply Qle_refl | right; reflexivity].
    apply Qlt_le_weak, Qnot_le_lt. intros H. apply Qle_bool_iff in H. congruence.
Qed.

(** X10: [depth10Amount] is a whole number, not negative, and not above the
    rounded sum of the amounts of all the bids, nor of all the asks: offers
    on one side alone cannot raise it. *)
Theorem X10_depth_within_each_side (counterNative : bool) (res : orderbook) :
  exists d : Z,
    depth10Amount counterNative res = Fin (inject_Z d)
    /\ (0 <= d)%Z
    /\ nle (depth10Amount counterNative res)
         (_round (total (map (fun o => Number7 (amount o)) (bids res))) 0)
       = true
    /\ nle (depth10Amount counterNative res)
         (_round (total (map (fun o => Number7 (amount o)) (asks res))) 0)
       = true.
Proof.
  rewrite depth10Amount_bands.
  destruct (band_sum_le
              (within_10_percent_below (pair_price counterNative res))
              (bids res)) as (xb & yb & -> & -> & Hb0 & Hb).
  destruct (band_sum_le
              (within_10_percent_above (pair_price counterNative res))
              (asks res)) as (xa & ya & -> & -> & Ha0 & Ha).
  destruct (Math_min_Fin xb xa) as (m & -> & Hmb & Hma & Hm).
  cbn [_round lift1 nle]. rewrite round_Q_0.
  exists (Qfloor (m + (1 # 2))). split; [reflexivity |]. split; [| split].
  - change 0%Z with (Qfloor 0). apply Qfloor_resp_le.
    apply Qle_trans with (0 + 0)%Q; [apply Qle_refl |].
    apply Qplus_le_compat; [| discriminate].
    destruct Hm as [-> | ->]; assumption.
  - rewrite <- round_Q_0. apply Qle_bool_iff, round_Q_le.
    apply Qle_trans with xb; assumption.
  - rewrite <- round_Q_0. apply Qle_bool_iff, round_Q_le.
    apply Qle_trans with xa; assumption.
Qed.

(** ** Resolved runs *)

Lemma ensures_ret {A} (I : state -> Prop) (a : A) (Q : A -> state -> Prop) :
  (forall s, I s -> Q a s) -> ensures I (ret a) Q.
Proof. intros H s Hs. exists a, s. split; [reflexivity | auto]. Qed.

Lemma ensures_bind {A B} (I : state -> Prop) (m : M A) (k : A -> M B)
    (Q : A -> state -> Prop) (R : B -> state -> Prop) :
  ensures I m Q -> (forall a, ensures (Q a) (k a) R) -> ensures I (bind m k) R.
Proof.
  intros Hm Hk s Hs. destruct (Hm s Hs) as (a & s1 & E1 & Ha).
  destruct (Hk a s1 Ha) as (b & s2 & E2 & Hb).
  exists b, s2. split; [| exact Hb].
  rewrite (bind_resolved _ _ _ _ _ E1). exact E2.
Qed.

Lemma ensures_modify (I : state -> Prop) (f : state -> state)
    (Q : unit -> state -> Prop) :
  (forall s, I s -> Q tt (f s)) -> ensures I (modify f) Q.
Proof. intros H s Hs. exists tt, (f s). split; [reflexivity | auto]. Qed.

Lemma ensures_request {A} (I : state -> Prop) (r : response A) (a : A)
    (Q : A -> state -> Prop) :
  r = Answer a -> (forall s, I s -> Q a s) -> ensures I (request r) Q.
Proof. intros -> H s Hs. exists a, s. split; [reflexivity | auto]. Qed.

Lemma ensures_catch_log {A} (I : state -> Prop) (message : string) (m : M A)
    (Q : A -> state -> Prop) :
  ensures I m Q -> ensures I (catch_log message m) Q.
Proof.
  intros Hm s Hs. destruct (Hm s Hs) as (a & s' & E & Ha).
  exists a, s'. split; [| exact Ha]. unfold catch_log. rewrite E. reflexivity.
Qed.

Lemma Promise_all_resolved {A} (l : list A) :
  Promise_all (map Resolved l) = Resolved l.
Proof. induction l as [|a l IH]; simpl; [| rewrite IH]; reflexivity. Qed.

Lemma run_all_ensures {A} (I : state -> Prop) (tasks : list (M A)) :
  Forall (fun task => ensures I task (fun _ => I)) tasks ->
  forall s, I s ->
    exists l s', run_all tasks s = (map Resolved l, s') /\ I s'.
Proof.
  induction 1 as [|task rest Htask _ IH]; intros s Hs.
  - exists [], s. split; [reflexivity | exact Hs].
  - destruct (Htask s Hs) as (a & s1 & E1 & H1).
    destruct (IH s1 H1) as (l & s2 & E2 & H2).
    exists (a :: l), s2. split; [| exact H2].
    simpl. rewrite E1, E2. reflexivity.
Qed.

Lemma ensures_all {A} (I : state -> Prop) (tasks : list (M A)) :
  Forall (fun task => ensures I task (fun _ => I)) tasks ->
  ensures I (Promise_all_M tasks) (fun _ => I).
Proof.
  intros H s Hs. destruct (run_all_ensures I tasks H s Hs) as (l & s' & E & H').
  exists l, s'. split; [| exact H'].
  unfold Promise_all_M. rewrite E, Promise_all_resolved. reflexivity.
Qed.

(** ** The handlers of phase 3 *)

Lemma pair_legs_alter (f : object -> object) (k : nat)
    (ps : list (string * pair)) :
  pair_legs
    (alter (fun sp => (fst sp, mkPair (baseBuying (snd sp))
                                 (counterSelling (snd sp))
                                 (f (fields (snd sp))))) k ps)
  = pair_legs ps.
Proof.
  unfold pair_legs. revert k.
  induction ps as [|sp rest IH]; intros [|k]; cbn [alter list_alter map];
    try reflexivity.
  fold (alter (fun sp => (fst sp, mkPair (baseBuying (snd sp))
                                    (counterSelling (snd sp))
                                    (f (fields (snd sp))))) k rest).
  rewrite IH. reflexivity.
Qed.

Lemma asset_ids_alter (f : object -> object) (i : nat) (l : list object) :
  (forall asset, f asset !! "id" = asset !! "id") ->
  asset_ids (alter f i l) = asset_ids l.
Proof.
  intros Hf. unfold asset_ids. revert i.
  induction l as [|a rest IH]; intros [|i]; cbn [alter list_alter map];
    try reflexivity.
  - rewrite Hf. reflexivity.
  - fold (alter f i rest). rewrite IH. reflexivity.
Qed.

Lemma ready_update_pair (m : meta) (dp : list (string * (leg * leg)))
    (ids : list (option value)) (k : nat) (f : object -> object) :
  ensures (ready m dp ids) (update_pair k f) (fun _ => ready m dp ids).
Proof.
  apply ensures_modify. intros s (Hp & Hd & Hi).
  repeat split; [exact Hp | | exact Hi].
  cbn. rewrite pair_legs_alter. exact Hd.
Qed.

Lemma ready_update_asset (m : meta) (dp : list (string * (leg * leg)))
    (ids : list (option value)) (i : nat) (f : object -> object) :
  (forall asset, f asset !! "id" = asset !! "id") ->
  ensures (ready m dp ids) (update_asset i f) (fun _ => ready m dp ids).
Proof.
  intros Hf. apply ensures_modify. intros s (Hp & Hd & Hi).
  repeat split; [exact Hp | exact Hd |].
  cbn. rewrite asset_ids_alter by exact Hf. exact Hi.
Qed.

Lemma ready_read_pair (m : meta) (dp : list (string * (leg * leg)))
    (ids : list (option value)) (k : nat) :
  k < length dp ->
  ensures (ready m dp ids) (read_pair k) (fun _ => ready m dp ids).
Proof.
  intros Hk s Hs. unfold read_pair, bind, get.
  destruct (pairs (doc s) !! k) as [sp |] eqn:E.
  - eexists _, s. split; [reflexivity | exact Hs].
  - exfalso. apply lookup_ge_None in E. destruct Hs as (_ & Hd & _).
    rewrite <- Hd in Hk. unfold pair_legs in Hk. rewrite length_map in Hk. lia.
Qed.

Lemma ready_read_externalPrices (m : meta)
    (dp : list (string * (leg * leg))) (ids : list (option value)) :
  externalPrices m <> None ->
  ensures (ready m dp ids) read_externalPrices (fun _ => ready m dp ids).
Proof.
  intros Hm s Hs. unfold read_externalPrices, bind, get.
  destruct Hs as (Hp & Hd & Hi). rewrite Hp.
  destruct (externalPrices m) as [p |]; [| contradiction].
  exists p, s. split; [reflexivity |]. repeat split; assumption.
Qed.

Lemma copy_field_other (k k' : string) (source target : object) :
  k <> k' -> copy_field k source target !! k' = target !! k'.
Proof.
  intros H. unfold copy_field. destruct (source !! k).
  - apply lookup_insert_ne. exact H.
  - apply lookup_delete_ne. exact H.
Qed.

Lemma trades_asset_fields_id (niceRound : number -> number) (baseNative : bool)
    (pairSlug : string) (res : orderbook) (records : list trade_record)
    (prices : ExternalPrices) (pair_fields asset : object) :
  trades_asset_fields niceRound baseNative pairSlug res records prices
    pair_fields asset !! "id"
  = asset !! "id".
Proof.
  unfold trades_asset_fields. cbv zeta.
  repeat (first [ rewrite lookup_insert_ne by discriminate
                | rewrite copy_field_other by discriminate ]).
  reflexivity.
Qed.

Section Phase3Resolved.
Variable niceRound : number -> number.
Variable m : meta.
Hypothesis prices_known : externalPrices m <> None.
Variable dp : list (string * (leg * leg)).
Variable ids : list (option value).

Lemma ready_trades_handler (k : nat) (pairSlug : string) (pr : pair)
    (asset : option nat) (res : orderbook) (records : list trade_record) :
  k < length dp ->
  (isNative (baseBuying pr) || isNative (counterSelling pr) = true ->
   asset <> None) ->
  ensures (ready m dp ids)
    (trades_handler niceRound k pairSlug pr asset res records)
    (fun _ => ready m dp ids).
Proof using prices_known.
  intros Hk Hasset. unfold trades_handler.
  eapply ensures_bind; [apply ready_read_externalPrices, prices_known |].
  intros prices.
  destruct (isNative (baseBuying pr) || isNative (counterSelling pr))%bool;
    [| apply ensures_ret; auto].
  destruct asset as [i |]; [| exfalso; apply Hasset; reflexivity].
  eapply ensures_bind; [apply ready_update_pair |]. intros ?.
  eapply ensures_bind; [apply ready_read_pair, Hk |]. intros pair_fields.
  eapply ensures_bind;
    [apply ready_update_asset; intros ?; apply trades_asset_fields_id |].
  intros ?. apply ensures_modify. intros s H. exact H.
Qed.

Lemma ready_pair_requests (w : world) (k : nat) (pairSlug : string) (pr : pair)
    (asset : option nat) (res : orderbook) (records : list trade_record) :
  k < length dp ->
  (isNative (baseBuying pr) || isNative (counterSelling pr) = true ->
   asset <> None) ->
  orderbook_call w (baseBuying pr) (counterSelling pr) = Answer res ->
  tradeAggregation_call w (baseBuying pr) (counterSelling pr) = Answer records ->
  ensures (ready m dp ids)
    (pair_requests niceRound w k pairSlug pr asset)
    (fun _ => ready m dp ids).
Proof using prices_known.
  intros Hk Hasset Hres Hrecords. unfold pair_requests.
  apply ensures_catch_log.
  eapply ensures_bind; [apply (ensures_request _ _ res (fun _ => ready m dp ids) Hres); auto |].
  intros res'. cbv beta.
  eapply ensures_bind; [apply ready_read_pair, Hk |]. intros pair_fields.
  destruct (orderbook_fields (isNative (counterSelling pr)) res' pair_fields);
    [| apply ensures_ret; auto].
  eapply ensures_bind; [apply ready_update_pair |]. intros ?.
  apply ensures_catch_log.
  eapply ensures_bind; [apply (ensures_request _ _ records (fun _ => ready m dp ids) Hrecords); auto |].
  intros records'. apply ready_trades_handler; assumption.
Qed.
End Phase3Resolved.

Lemma pair_legs_copy (d : directory_t) :
  pair_legs (directory_pairs_copy (Some d)) = directory_pairs d.
Proof.
  unfold pair_legs, directory_pairs_copy. rewrite map_map.
  rewrite <- (map_id (directory_pairs d)) at 2.
  apply map_ext. intros (slug & b & c). reflexivity.
Qed.

Section Phase3Started.
Variable m : meta.
Variable dp : list (string * (leg * leg)).
Variable ids : list (option value).
Variable assets0 : list object.

Lemma ready_lookup_asset (pairSlug : string) (pr : pair) :
  ~ dangling (baseBuying pr, counterSelling pr) assets0 ->
  ensures (ready_finds m dp ids assets0) (lookup_asset pairSlug pr)
    (fun found s =>
       ready_finds m dp ids assets0 s
       /\ (isNative (baseBuying pr) || isNative (counterSelling pr) = true ->
           found <> None)).
Proof.
  intros Hnd s ((Hp & Hd & Hi) & Hfinds).
  unfold lookup_asset, bind, get, update_asset, modify, throw, ret.
  assert (Hslug : forall i st,
            st = set_doc (set_assets
                   (alter (<["topTradePairSlug" := VStr pairSlug]>) i)) s ->
            ready_finds m dp ids assets0 st).
  { intros i st ->. split; [repeat split; [exact Hp | exact Hd |] |].
    - cbn. rewrite asset_ids_alter; [exact Hi |].
      intros a. apply lookup_insert_ne. discriminate.
    - intros l. cbn. rewrite _find_alter; [apply Hfinds |].
      intros a. apply matches_leg_slug. }
  unfold dangling in Hnd. cbn [fst snd] in Hnd.
  destruct (isNative (baseBuying pr)) eqn:Eb.
  - destruct (_find (matches_leg (counterSelling pr)) (assets (doc s)))
      as [i |] eqn:Ef.
    + eexists _, _. split; [reflexivity |]. split; [eapply Hslug; reflexivity |].
      discriminate.
    + exfalso. apply Hnd. left. rewrite <- Hfinds. auto.
  - destruct (isNative (counterSelling pr)) eqn:Ec.
    + destruct (_find (matches_leg (baseBuying pr)) (assets (doc s)))
        as [i |] eqn:Ef.
      * eexists _, _. split; [reflexivity |].
        split; [eapply Hslug; reflexivity |]. discriminate.
      * exfalso. apply Hnd. right. rewrite <- Hfinds. auto.
    + eexists _, s. split; [reflexivity |].
      split; [split; [repeat split |]; assumption | discriminate].
Qed.

Lemma ready_map_pairs (l : list (string * pair)) (k : nat) :
  (forall sp, In sp l ->
     ~ dangling (baseBuying (snd sp), counterSelling (snd sp)) assets0) ->
  ensures (ready_finds m dp ids assets0) (map_pairs k l)
    (fun started s =>
       ready_finds m dp ids assets0 s
       /\ Forall (fun t =>
                    match t with
                    | (k', pairSlug, pr, asset) =>
                        k' < k + length l
                        /\ In (pairSlug, pr) l
                        /\ (isNative (baseBuying pr)
                            || isNative (counterSelling pr) = true ->
                            asset <> None)
                    end) started).
Proof.
  revert k. induction l as [|sp rest IH]; intros k Hl.
  - apply ensures_ret. intros s Hs. split; [exact Hs | constructor].
  - cbn [map_pairs].
    eapply ensures_bind.
    { apply (ready_lookup_asset (fst sp) (snd sp)). apply Hl. left. reflexivity. }
    intros asset s (Hs & Hasset).
    destruct (IH (S k) (fun sp' H => Hl sp' (or_intror H)) s Hs)
      as (others & s' & E & Hs' & Hothers).
    eexists _, s'. split.
    { rewrite (bind_resolved _ _ _ _ _ E). reflexivity. }
    split; [exact Hs' |]. constructor.
    + split; [simpl; lia |]. split; [left; destruct sp; reflexivity | exact Hasset].
    + eapply Forall_impl; [exact Hothers |].
      intros [[[k' slug] pr] a] (H1 & H2 & H3).
      split; [simpl; lia |]. split; [right; exact H2 | exact H3].
Qed.
End Phase3Started.

Lemma phase3_resolves (niceRound : number -> number) (w : world) (s : state)
    (d : directory_t) :
  directory s = Some d ->
  externalPrices (_meta (doc s)) <> None ->
  assets (doc s) <> [] ->
  (forall pairSlug legs, In (pairSlug, legs) (directory_pairs d) ->
     served w (assets (doc s)) legs) ->
  exists s',
    phase3 niceRound w s = (Resolved tt, s')
    /\ ready (_meta (doc s)) (directory_pairs d) (asset_ids (assets (doc s))) s'.
Proof.
  intros Hd Hp Hassets Hserved.
  set (ids := asset_ids (assets (doc s))).
  unfold phase3, bind, StepLogger_log, modify, get.
  cbn -[map_pairs Promise_all_M]. rewrite Hd.
  assert (Hlegs : forall pairSlug pr,
            In (pairSlug, pr) (directory_pairs_copy (Some d)) ->
            In (pairSlug, (baseBuying pr, counterSelling pr)) (directory_pairs d)).
  { intros pairSlug pr Hin. rewrite <- pair_legs_copy. unfold pair_legs.
    apply (in_map (fun sp => (fst sp, (baseBuying (snd sp), counterSelling (snd sp))))
             _ _ Hin). }
  match goal with
  | |- context [map_pairs 0 ?l ?st] =>
      destruct (ready_map_pairs (_meta (doc s)) (directory_pairs d) ids
                  (assets (doc s)) l 0)
        with (s := st) as (started & s1 & -> & Hs1 & Hstarted)
  end.
  { intros [pairSlug pr] Hin. apply (Hserved pairSlug), Hlegs, Hin. }
  { split; [repeat split |]; try reflexivity. apply pair_legs_copy. }
  destruct Hs1 as [Hs1 _].
  match goal with
  | |- context [Promise_all_M ?tasks s1] =>
      destruct (ensures_all (ready (_meta (doc s)) (directory_pairs d) ids) tasks)
        with (s := s1) as (l & s2 & -> & Hs2)
  end.
  { apply Forall_map. eapply Forall_impl; [exact Hstarted |].
    intros [[[k pairSlug] pr] asset] (Hk & Hin & Hasset).
    destruct (Hserved pairSlug _ (Hlegs _ _ Hin))
      as (_ & (res & Hres) & (records & Hrecords)).
    apply (ready_pair_requests niceRound (_meta (doc s)) Hp (directory_pairs d)
             ids w k pairSlug pr asset res records); try assumption.
    rewrite <- pair_legs_copy. unfold pair_legs. rewrite length_map.
    simpl in Hk. exact Hk. }
  { exact Hs1. }
  cbn -[update_asset].
  destruct Hs2 as (Hp2 & Hd2 & Hi2).
  destruct (assets (doc s2)) as [|native rest] eqn:Ea.
  { exfalso. apply Hassets. unfold ids, asset_ids in Hi2.
    destruct (assets (doc s)); [reflexivity | discriminate]. }
  eexists. split; [reflexivity |].
  repeat split; [exact Hp2 | exact Hd2 |].
  cbn. rewrite ?Ea. cbn.
  rewrite !lookup_insert_ne by discriminate.
  exact Hi2.
Qed.

(** X11: when the external prices are known, there is at least one asset,
    and every pair of the directory has legs that the constructor of
    [StellarSdk.Asset] accepts and is served (its asset is listed and
    Horizon answers the two requests), phase 3 is resolved; it leaves
    [ticker._meta] as it was, the pairs are those of the directory, and the
    assets are the same, in the same order. *)
Theorem X11_phase3_resolves (niceRound : number -> number)
    (isValidEd25519PublicKey : string -> bool) (w : world)
    (s : state) (d : directory_t) :
  directory s = Some d ->
  externalPrices (_meta (doc s)) <> None ->
  assets (doc s) <> [] ->
  (forall pairSlug legs, In (pairSlug, legs) (directory_pairs d) ->
     Asset_accepts isValidEd25519PublicKey (fst legs) = true
     /\ Asset_accepts isValidEd25519PublicKey (snd legs) = true
     /\ served w (assets (doc s)) legs) ->
  exists s',
    phase3 niceRound w s = (Resolved tt, s')
    /\ _meta (doc s') = _meta (doc s)
    /\ pair_legs (pairs (doc s')) = directory_pairs d
    /\ asset_ids (assets (doc s')) = asset_ids (assets (doc s)).
Proof.
  intros Hd Hp Hassets Hserved.
  destruct (phase3_resolves niceRound w s d Hd Hp Hassets)
    as (s' & Hrun & Hmeta & Hlegs & Hids).
  { intros pairSlug legs Hin. apply (Hserved pairSlug legs Hin). }
  exists s'. repeat split; assumption.
Qed.

(** The world of the examples: phase 3 is resolved. *)
Lemma X11_example_world :
  exists s',
    phase3 (fun x => x) (example_world quoted [listed_pair])
      (snd (loadAssets (example_world quoted [listed_pair])
              (snd (phase1 (example_world quoted [listed_pair])
                      (initial_state (example_world quoted [listed_pair]))))))
    = (Resolved tt, s')
    /\ asset_ids (assets (doc s'))
       = [Some (VStr "XLM-native"); Some (VStr "USD-example.com")].
Proof.
  edestruct (X11_phase3_resolves (fun x => x)
               (fun issuer => String.eqb issuer example_issuer)
               (example_world quoted [listed_pair])
               (snd (loadAssets (example_world quoted [listed_pair])
                       (snd (phase1 (example_world quoted [listed_pair])
                               (initial_state
                                  (example_world quoted [listed_pair])))))))
    as (s' & Hrun & _ & _ & Hids).
  - vm_compute. reflexivity.
  - intros H.
    apply (f_equal (fun o : option ExternalPrices =>
                      match o with Some _ => true | None => false end)) in H.
    vm_compute in H. discriminate.
  - intros H. apply (f_equal (@length object)) in H.
    vm_compute in H. discriminate.
  - intros pairSlug legs [[= <- <-] | []].
    split; [reflexivity |]. split; [reflexivity |].
    split; [| split; eexists; reflexivity].
    intros [[H _] | (_ & _ & H)]; vm_compute in H; discriminate.
  - exists s'. split; [exact Hrun |]. rewrite Hids. vm_compute. reflexivity.
Defined.

(** ** The order of phase 4 *)


Lemma StronglySorted_map {A B} (f : A -> B) (P : A -> Prop)
    (R : A -> A -> Prop) (R' : B -> B -> Prop) (l : list A) :
  (forall a b, P a -> P b -> R a b -> R' (f a) (f b)) ->
  Forall P l -> StronglySorted R l -> StronglySorted R' (map f l).
Proof.
  intros Hf HP Hs. induction Hs as [|a rest _ IH Ha]; simpl; [constructor |].
  apply Forall_cons in HP. destruct HP as [Pa Prest].
  constructor; [apply IH, Prest |].
  rewrite List.Forall_forall in Ha, Prest |- *.
  intros b Hb. apply in_map_iff in Hb. destruct Hb as (x & <- & Hx).
  apply Hf; auto.
Qed.

(** Rounding keeps the order of scores. *)
Lemma round_R_le (p : nat) (x y : R) :
  (x <= y)%R -> (round_R p x <= round_R p y)%R.
Proof.
  intros H. unfold round_R.
  assert (Hpos : (0 < IZR (pow10 p))%R) by (apply IZR_lt, pow10_pos).
  apply Rmult_le_compat_r; [apply Rlt_le, Rinv_0_lt_compat, Hpos |].
  apply IZR_le, Zfloor_le.
  apply Rplus_le_compat_r, Rmult_le_compat_r; [apply Rlt_le, Hpos | exact H].
Qed.

Lemma by_score_gt_finite (a b : object) (x y : R) :
  to_real (a !! "activityScore") = Fin x ->
  to_real (b !! "activityScore") = Fin y ->
  by_score_gt a b = false <-> (y <= x)%R.
Proof.
  intros Ha Hb. unfold by_score_gt. rewrite Ha, Hb. cbn [rsub lift2 positive_r].
  destruct (Rlt_dec 0 (y - x)); split; intros H; try reflexivity;
    try discriminate; lra.
Qed.

(** X12: phase 4 neither drops nor duplicates an asset: its result is a
    permutation of the assets, each with its rounded score and otherwise
    unchanged. *)
Theorem X12_phase4_keeps_every_asset (assets : list object) :
  Permutation (phase4_assets assets) (map scored assets)
  /\ Permutation (asset_ids (phase4_assets assets)) (asset_ids assets)
  /\ length (phase4_assets assets) = length assets.
Proof.
  pose proof (phase4_assets_Permutation assets) as H.
  split; [exact H |]. split.
  - unfold asset_ids. rewrite H, map_map.
    erewrite map_ext; [reflexivity |]. intros a. apply scored_id.
  - rewrite (Permutation_length H). apply length_map.
Qed.

(** X13: when every score is a number, the assets are in descending order
    of their rounded scores after phase 4: the score of an asset is no less
    than the score of every asset after it. *)
Theorem X13_phase4_descending (assets : list object) :
  Forall (fun asset => exists r, score asset = Fin r) assets ->
  StronglySorted score_ge (phase4_assets assets).
Proof.
  intros Hfinite. unfold phase4_assets.
  set (P := fun a : object => exists r, to_real (a !! "activityScore") = Fin r).
  assert (HP : Forall P (map assign_score assets)).
  { rewrite List.Forall_forall in Hfinite |- *. intros a Ha.
    apply in_map_iff in Ha. destruct Ha as (x & <- & Hx).
    destruct (Hfinite x Hx) as (r & Hr). exists r.
    rewrite to_real_score. exact Hr. }
  apply (StronglySorted_map round_score P (fun a b => by_score_gt a b = false)).
  - intros a b (x & Hx) (y & Hy) Hab.
    apply (by_score_gt_finite a b x y Hx Hy) in Hab.
    exists (round_R 3 x), (round_R 3 y).
    unfold round_score. rewrite !lookup_insert_eq, Hx, Hy.
    repeat split. apply round_R_le, Hab.
  - rewrite List.Forall_forall in HP |- *. intros a Ha.
    apply HP. apply Array_sort_In in Ha. exact Ha.
  - apply (Array_sort_StronglySorted by_score_gt P).
    + intros a b (x & Hx) (y & Hy) Hab.
      apply (by_score_gt_finite b a y x Hy Hx).
      destruct (Rle_dec x y) as [Hle | Hnle]; [exact Hle |].
      assert (by_score_gt a b = false); [| congruence].
      apply (by_score_gt_finite a b x y Hx Hy). lra.
    + intros a b c (x & Hx) (y & Hy) (z & Hz) Hab Hbc.
      apply (by_score_gt_finite a b x y Hx Hy) in Hab.
      apply (by_score_gt_finite b c y z Hy Hz) in Hbc.
      apply (by_score_gt_finite a c x z Hx Hz). lra.
    + exact HP.
Qed.

(** An asset without a price before the native asset. *)
Lemma X13_native_and_unpriced :
  StronglySorted score_ge
    (phase4_assets [unpriced_asset; native_asset (Fin 0.0101%Q)]).
Proof.
  apply X13_phase4_descending.
  repeat constructor.
  - exists 0%R. apply score_unpriced; reflexivity.
  - exists 100%R. apply score_native. reflexivity.
Defined.

Lemma filter_of_map {A B} (f : A -> B) (q : B -> bool) (l : list A) :
  List.filter q (map f l) = map f (List.filter (fun x => q (f x)) l).
Proof.
  induction l as [|x rest IH]; [reflexivity |].
  cbn [map List.filter]. rewrite IH. destruct (q (f x)); reflexivity.
Qed.

(** X14: the sort of phase 4 is stable: when every score is a number,
    assets with equal scores keep their relative order, wherever they stand
    among the others.  The assets are chosen by their ids. *)
Theorem X14_phase4_is_stable (selected : option value -> bool)
    (assets : list object) :
  Forall (fun asset => exists r, score asset = Fin r) assets ->
  (forall a b, In a assets -> In b assets ->
     selected (a !! "id") = true -> selected (b !! "id") = true ->
     score a = score b) ->
  List.filter (fun asset => selected (asset !! "id")) (phase4_assets assets)
  = map scored (List.filter (fun asset => selected (asset !! "id")) assets).
Proof.
  intros Hfinite Hequal. unfold phase4_assets.
  rewrite (filter_of_map round_score
             (fun asset : object => selected (asset !! "id"))).
  rewrite (List.filter_ext
             (fun asset : object => selected (round_score asset !! "id"))
             (fun asset : object => selected (asset !! "id")))
    by (intros a; unfold round_score;
        rewrite lookup_insert_ne by discriminate; reflexivity).
  rewrite Array_sort_filter.
  - rewrite (filter_of_map assign_score
               (fun asset : object => selected (asset !! "id"))).
    rewrite (List.filter_ext
               (fun asset : object => selected (assign_score asset !! "id"))
               (fun asset : object => selected (asset !! "id")))
      by (intros a; unfold assign_score;
          rewrite lookup_insert_ne by discriminate; reflexivity).
    rewrite map_map. reflexivity.
  - intros a' b' Ha' Hb'.
    apply in_map_iff in Ha'. destruct Ha' as (a & <- & Ha).
    apply in_map_iff in Hb'. destruct Hb' as (b & <- & Hb).
    unfold assign_score at 1 2. rewrite !lookup_insert_ne by discriminate.
    intros Sa Sb. unfold by_score_gt. rewrite !to_real_score.
    rewrite (Hequal a b Ha Hb Sa Sb).
    rewrite List.Forall_forall in Hfinite.
    destruct (Hfinite b Hb) as (r & ->).
    cbn [rsub lift2 positive_r].
    destruct (Rlt_dec 0 (r - r)); [lra | reflexivity].
Qed.

(** Two assets without a price around the native asset: the sort moves the
    native asset to the front and keeps the order of the other two. *)
Lemma X14_ties_keep_their_order :
  List.filter (fun asset => negb (is_native_id asset))
    (phase4_assets
       [unpriced_asset; native_asset (Fin 0.0101%Q); unpriced_asset'])
  = [scored unpriced_asset; scored unpriced_asset'].
Proof.
  pose proof (X14_phase4_is_stable
                (fun id => match id with
                           | Some (VStr id) => negb (String.eqb id "XLM-native")
                           | _ => true
                           end)
                [unpriced_asset; native_asset (Fin 0.0101%Q); unpriced_asset'])
    as H.
  assert (Hn : score (native_asset (Fin 0.0101%Q)) = Fin 100%R)
    by (apply score_native; reflexivity).
  assert (Hu : score unpriced_asset = Fin 0%R)
    by (apply score_unpriced; reflexivity).
  assert (Hu' : score unpriced_asset' = Fin 0%R)
    by (apply score_unpriced; reflexivity).
  erewrite List.filter_ext; [rewrite H |].
  - reflexivity.
  - repeat constructor; eexists; eassumption.
  - intros a b [<- | [<- | [<- | []]]] [<- | [<- | [<- | []]]] Sa Sb;
      try discriminate; congruence.
  - intros a. unfold is_native_id.
    destruct (a !! "id") as [[| | id |] |]; reflexivity.
Defined.

(** ** The score of a market *)

Lemma ln_ratio_ge_1 (base x : R) :
  (1 < base)%R -> (base <= x)%R -> (0 <= ln x / ln base - 1)%R.
Proof.
  intros Hb Hx. pose proof (ln_positive base Hb) as Hln.
  assert (ln base <= ln x)%R.
  { destruct (Req_dec base x) as [-> | Hne]; [lra |].
    apply Rlt_le, ln_increasing; lra. }
  assert (1 <= ln x / ln base)%R; [| lra].
  apply (Rmult_le_reg_r (ln base)); [exact Hln |].
  unfold Rdiv. rewrite Rmult_assoc, Rinv_l by lra. lra.
Qed.

(** X15: the score of a market whose metrics are numbers that are not
    negative and whose spread is at most 1 is a number that is not negative;
    it is 0 when the spread is 1. *)
Theorem X15_market_score_is_not_negative (asset : object)
    (numBids numAsks records volume depth trades spread : R) :
  to_real (asset !! "numBids") = Fin numBids ->
  to_real (asset !! "numAsks") = Fin numAsks ->
  to_real (asset !! "_numTradeRecords24h") = Fin records ->
  to_real (asset !! "volume24h_USD") = Fin volume ->
  to_real (asset !! "depth10_USD") = Fin depth ->
  to_real (asset !! "numTrades24h") = Fin trades ->
  to_real (asset !! "spread") = Fin spread ->
  (0 <= numBids)%R -> (0 <= numAsks)%R -> (0 <= records)%R ->
  (0 <= volume)%R -> (0 <= depth)%R -> (0 <= trades)%R ->
  (spread <= 1)%R ->
  exists r,
    market_score asset = Fin r
    /\ (0 <= r)%R
    /\ (spread = 1%R -> r = 0%R).
Proof.
  intros Hb Ha Hr Hv Hd Ht Hs Pb Pa Pr Pv Pd Pt Hspread.
  rewrite (market_score_finite asset numBids numAsks records volume depth
             trades spread) by (assumption || lra).
  eexists. split; [reflexivity |].
  pose proof (ln_ratio_ge_1 2 (2 + depth) ltac:(lra) ltac:(lra)) as Ldepth.
  pose proof (ln_ratio_ge_1 4 (4 + volume) ltac:(lra) ltac:(lra)) as Lvolume.
  pose proof (ln_ratio_ge_1 4 (4 + trades) ltac:(lra) ltac:(lra)) as Ltrades.
  assert (M1 : (0 <= Rmin 12 records)%R) by (apply Rmin_glb; lra).
  assert (M2 : (0 <= Rmin 1 (volume / 100))%R) by (apply Rmin_glb; lra).
  assert (M3 : (0 <= Rmin 10 (depth / 10000))%R) by (apply Rmin_glb; lra).
  assert (M4 : (0 <= Rmin 7 (records / 8))%R) by (apply Rmin_glb; lra).
  split.
  - apply Rmult_le_pos; [apply pow_le; lra |].
    generalize dependent (ln (2 + depth) / ln 2 - 1)%R.
    generalize dependent (ln (4 + volume) / ln 4 - 1)%R.
    generalize dependent (ln (4 + trades) / ln 4 - 1)%R.
    generalize dependent (Rmin 12 records).
    generalize dependent (Rmin 1 (volume / 100)).
    generalize dependent (Rmin 10 (depth / 10000)).
    generalize dependent (Rmin 7 (records / 8)).
    intros. lra.
  - intros ->. replace (1 - 1)%R with 0%R by lra.
    rewrite pow_i by lia. apply Rmult_0_l.
Qed.

(** A market with a spread of 1. *)
Lemma X15_wide_spread_scores_nothing : market_score wide_asset = Fin 0%R.
Proof.
  destruct (X15_market_score_is_not_negative wide_asset 1 1 0 0 0 0 1)
    as (r & E & _ & H0);
    try lra;
    try (change (Fin (Q2R 0) = Fin 0%R :> rnumber);
         rewrite RMicromega.Q2R_0; reflexivity);
    try (change (Fin (Q2R 1) = Fin 1%R :> rnumber);
         rewrite RMicromega.Q2R_1; reflexivity).
  rewrite E, (H0 eq_refl). reflexivity.
Defined.

(** ** Runs that are settled *)

Lemma settles_ret {A} (a : A) : settles (ret a).
Proof. intros s. discriminate. Qed.

Lemma settles_throw {A} (e : error) : settles (@throw A e).
Proof. intros s. discriminate. Qed.

Lemma settles_modify (f : state -> state) : settles (modify f).
Proof. intros s. discriminate. Qed.

Lemma settles_get : settles get.
Proof. intros s. discriminate. Qed.

Lemma settles_request {A} (r : response A) : settles (request r).
Proof. intros s. destruct r; discriminate. Qed.

Lemma settles_bind {A B} (m : M A) (k : A -> M B) :
  settles m -> (forall a, settles (k a)) -> settles (bind m k).
Proof.
  intros Hm Hk s. unfold bind. specialize (Hm s).
  destruct (m s) as [[a | e |] s'];
    [apply Hk | discriminate | exfalso; apply Hm; reflexivity].
Qed.

Lemma settles_catch_log {A} (message : string) (m : M A) :
  settles m -> settles (catch_log message m).
Proof.
  intros Hm s. unfold catch_log. specialize (Hm s).
  destruct (m s) as [[a | e |] s']; [discriminate | discriminate | exact Hm].
Qed.

Lemma Promise_all_settles {A} (ps : list (promise A)) :
  Forall (fun p => p <> Pending) ps -> Promise_all ps <> Pending.
Proof.
  induction 1 as [|p rest Hp _ IH]; simpl; [discriminate |].
  destruct p as [a | e |]; [| discriminate | contradiction].
  destruct (Promise_all rest); [discriminate | discriminate | contradiction].
Qed.

Lemma run_all_settles {A} (tasks : list (M A)) (s : state) :
  Forall settles tasks -> Forall (fun p => p <> Pending) (fst (run_all tasks s)).
Proof.
  intros H. revert s. induction H as [|task rest Htask _ IH]; intros s; simpl.
  - constructor.
  - specialize (Htask s). destruct (task s) as [p s1].
    specialize (IH s1). destruct (run_all rest s1) as [ps s2].
    constructor; assumption.
Qed.

Lemma settles_all {A} (tasks : list (M A)) :
  Forall settles tasks -> settles (Promise_all_M tasks).
Proof.
  intros H s. unfold Promise_all_M.
  pose proof (run_all_settles tasks s H) as Hs.
  destruct (run_all tasks s) as [ps s']. apply Promise_all_settles, Hs.
Qed.

Lemma settles_each {A} (l : list A) (body : A -> M unit) :
  (forall x, settles (body x)) -> settles (each l body).
Proof.
  intros H. induction l as [|x rest IH]; simpl.
  - apply settles_ret.
  - apply settles_bind; [apply H | intros _; exact IH].
Qed.

Ltac settle :=
  repeat first
    [ apply settles_bind; [| intros ?]
    | apply settles_catch_log
    | apply settles_ret | apply settles_throw | apply settles_modify
    | apply settles_get | apply settles_request
    | match goal with
      | |- settles (match ?x with _ => _ end) => destruct x
      | |- settles (if ?b then _ else _) => destruct b
      end ].

Lemma settles_loadAssets (w : world) : settles (loadAssets w).
Proof.
  unfold loadAssets, StepLogger_log, read_externalPrices.
  settle. apply settles_each. intros entry. settle.
Qed.

Lemma settles_lookup_asset (pairSlug : string) (p : pair) :
  settles (lookup_asset pairSlug p).
Proof. unfold lookup_asset, update_asset. settle. Qed.

Lemma settles_map_pairs (l : list (string * pair)) (k : nat) :
  settles (map_pairs k l).
Proof.
  revert k. induction l as [|sp rest IH]; intros k; simpl.
  - apply settles_ret.
  - apply settles_bind; [apply settles_lookup_asset | intros asset].
    apply settles_bind; [apply IH | intros others; apply settles_ret].
Qed.

Lemma settles_pair_requests (niceRound : number -> number) (w : world)
    (k : nat) (pairSlug : string) (p : pair) (asset : option nat) :
  settles (pair_requests niceRound w k pairSlug p asset).
Proof.
  unfold pair_requests, trades_handler, read_pair, read_externalPrices,
    update_pair, update_asset.
  settle.
Qed.

Lemma settles_phase3 (niceRound : number -> number) (w : world) :
  settles (phase3 niceRound w).
Proof.
  unfold phase3, StepLogger_log.
  apply settles_bind; [apply settles_modify | intros _].
  apply settles_bind; [apply settles_modify | intros _].
  apply settles_bind; [apply settles_modify | intros _].
  apply settles_bind; [apply settles_get | intros s].
  apply settles_bind; [apply settles_map_pairs | intros started].
  apply settles_bind.
  - apply settles_all. apply Forall_map. apply Forall_forall.
    intros [[[k pairSlug] p] asset] _. apply settles_pair_requests.
  - intros _. unfold update_asset. settle.
Qed.

Lemma settles_phase4 : settles phase4.
Proof. unfold phase4, StepLogger_log. settle. Qed.

Lemma bind_pending {A B} (m : M A) (k : A -> M B) (s : state) :
  (forall a, settles (k a)) ->
  fst (bind m k s) = Pending <-> fst (m s) = Pending.
Proof.
  intros Hk. unfold bind. destruct (m s) as [[a | e |] s'] eqn:E; simpl.
  - split; [intros H; exfalso; exact (Hk a s' H) | discriminate].
  - split; discriminate.
  - split; reflexivity.
Qed.

Section NeverEnds.
Variable niceRound : number -> number.
Variable hideCMCKey : string -> string.
Variable JSON_stringify : json -> string.

(** X16: the only run that never ends is the one in which the Horizon
    root answers and the promise of the quote request is never settled;
    the promise of [tickerGenerator] is never rejected, so that every other
    run ends with an output. *)
Theorem X16_run_ends_unless_retry_hangs (w : world) :
  (tickerGenerator niceRound hideCMCKey JSON_stringify w = Pending
   <-> (exists main, horizonMain w = Answer main)
       /\ fst (coinmarketcapReqeust w 0 (initial_state w)) = Pending)
  /\ forall e,
       tickerGenerator niceRound hideCMCKey JSON_stringify w <> Rejected e.
Proof.
  split;
    [| intros e; unfold tickerGenerator;
       destruct (tickerDataGenerator niceRound JSON_stringify w (initial_state w))
         as [[t | e' |] s]; discriminate].
  assert (H : tickerGenerator niceRound hideCMCKey JSON_stringify w = Pending
              <-> fst (phase1 w (initial_state w)) = Pending).
  { unfold tickerGenerator.
    rewrite <- (bind_pending (phase1 w)
                  (fun _ => loadAssets w >> phase3 niceRound w >> phase4
                            >> let* s := get in
                               ret (JSON_stringify (JTicker (doc s))))).
    - fold (tickerDataGenerator niceRound JSON_stringify w).
      destruct (tickerDataGenerator niceRound JSON_stringify w (initial_state w))
        as [[t | e |] s]; simpl; split; (discriminate || reflexivity).
    - intros _.
      apply settles_bind; [apply settles_loadAssets | intros _].
      apply settles_bind; [apply settles_phase3 | intros _].
      apply settles_bind; [apply settles_phase4 | intros _].
      apply settles_bind; [apply settles_get | intros s; apply settles_ret]. }
  rewrite H, phase1_outcome.
  destruct (horizonMain w) as [main | e].
  - destruct (fst (coinmarketcapReqeust w 0 (initial_state w))) as [j | e |].
    + split; [| intros [_ H']; discriminate].
      unfold quote_handler.
      destruct (cmc_data j) as [[[| | change] |] |]; discriminate.
    + split; [discriminate | intros [_ H']; discriminate].
    + split; [| reflexivity]. intros _. split; [exists main |]; reflexivity.
  - split; [discriminate |]. intros [[main Hm] _]. discriminate.
Qed.
End NeverEnds.

(** ** Requests of phase 3 that fail *)

Lemma Promise_all_rejected {A} (ps : list (promise A)) :
  Exists (fun p => is_rejected p = true) ps ->
  is_rejected (Promise_all ps) = true.
Proof.
  induction 1 as [p rest Hp | p rest _ IH]; simpl.
  - destruct p; try discriminate. reflexivity.
  - destruct p as [a | e |]; [| reflexivity |];
      destruct (Promise_all rest); try discriminate; reflexivity.
Qed.

Lemma run_all_rejected {A} (tasks : list (M A)) (s : state) :
  Exists (fun task => forall s, is_rejected (fst (task s)) = true) tasks ->
  Exists (fun p => is_rejected p = true) (fst (run_all tasks s)).
Proof.
  intros H. revert s. induction H as [task rest Htask | task rest _ IH];
    intros s; simpl.
  - specialize (Htask s). destruct (task s) as [p s1].
    destruct (run_all rest s1) as [ps s2]. left. exact Htask.
  - destruct (task s) as [p s1]. specialize (IH s1).
    destruct (run_all rest s1) as [ps s2]. right. exact IH.
Qed.

Lemma map_pairs_started (l : list (string * pair)) (k : nat) (s s' : state)
    (started : list (nat * string * pair * option nat)) :
  map_pairs k l s = (Resolved started, s') ->
  map (fun t => match t with (_, pairSlug, p, _) => (pairSlug, p) end) started
  = l.
Proof.
  revert k s started. induction l as [|sp rest IH]; intros k s started.
  - simpl. intros [= <- <-]. reflexivity.
  - simpl. unfold bind at 1.
    destruct (lookup_asset (fst sp) (snd sp) s) as [[asset | e |] s1];
      try discriminate.
    unfold bind at 1.
    destruct (map_pairs (S k) rest s1) as [[others | e |] s2] eqn:E;
      try discriminate.
    intros [= <- <-]. simpl. rewrite (IH _ _ _ E). destruct sp. reflexivity.
Qed.

Lemma pair_requests_orderbook_failure (niceRound : number -> number)
    (w : world) (k : nat) (pairSlug : string) (p : pair) (asset : option nat)
    (e : error) (s : state) :
  orderbook_call w (baseBuying p) (counterSelling p) = Failure e ->
  pair_requests niceRound w k pairSlug p asset s
  = (Rejected e,
     emit (Log ("Phase 3: request fails for pair: [object Object]; slug: "
                ++ pairSlug)) s).
Proof.
  intros H. unfold pair_requests, catch_log, bind, request, await.
  rewrite H. reflexivity.
Qed.

(** X17: phase 3 is all or nothing: when the request for the order book
    of one pair of the directory fails, phase 3 is rejected. *)
Theorem X17_failed_order_book_rejects_phase3 (niceRound : number -> number)
    (w : world) (s : state) (d : directory_t) (pairSlug : string)
    (legs : leg * leg) (e : error) :
  directory s = Some d ->
  In (pairSlug, legs) (directory_pairs d) ->
  orderbook_call w (fst legs) (snd legs) = Failure e ->
  is_rejected (fst (phase3 niceRound w s)) = true.
Proof.
  intros Hd Hin He.
  unfold phase3, bind, StepLogger_log, modify, get.
  cbn -[map_pairs Promise_all_M]. rewrite Hd.
  match goal with
  | |- context [map_pairs 0 ?l ?st] =>
      pose proof (settles_map_pairs l 0 st) as Hsettles;
      pose proof (map_pairs_started l 0 st) as Hstarted;
      destruct (map_pairs 0 l st) as [[started | e' |] s1]
  end; [| reflexivity | exfalso; apply Hsettles; reflexivity].
  specialize (Hstarted s1 started eq_refl).
  unfold Promise_all_M.
  match goal with
  | |- context [run_all ?tasks s1] =>
      pose proof (run_all_rejected tasks s1) as Hr;
      destruct (run_all tasks s1) as [ps s2]
  end.
  simpl in Hr.
  assert (Hps : is_rejected (Promise_all ps) = true).
  { apply Promise_all_rejected, Hr. apply List.Exists_exists.
    assert (Hin' : In (pairSlug, mkPair (fst legs) (snd legs) ∅)
                     (directory_pairs_copy (Some d))).
    { apply (in_map (fun entry => (fst entry,
                                   mkPair (fst (snd entry)) (snd (snd entry)) ∅))
               _ _ Hin). }
    rewrite <- Hstarted in Hin'. apply in_map_iff in Hin'.
    destruct Hin' as ([[[k slug] p] asset] & [= -> ->] & Ht).
    eexists. split.
    - apply (in_map (fun t => match t with
                              | (k, pairSlug, p, asset) =>
                                  pair_requests niceRound w k pairSlug p asset
                              end) _ _ Ht).
    - intros st. cbv beta iota.
      rewrite (pair_requests_orderbook_failure niceRound w k pairSlug
                 (mkPair (fst legs) (snd legs) ∅) asset e st He).
      reflexivity. }
  destruct (Promise_all ps); try discriminate. reflexivity.
Qed.

(** Horizon does not serve the order books. *)
Lemma X17_order_books_down :
  is_rejected
    (fst (phase3 (fun x => x) order_books_down
            (snd (loadAssets order_books_down
                    (snd (phase1 order_books_down
                            (initial_state order_books_down)))))))
  = true.
Proof.
  eapply (X17_failed_order_book_rejects_phase3 (fun x => x) order_books_down
            _ _ (fst listed_pair) (snd listed_pair)).
  - vm_compute. reflexivity.
  - left. reflexivity.
  - reflexivity.
Defined.

(** ** A run that succeeds *)

Lemma matches_leg_native (l : leg) (USD_XLM : number) :
  matches_leg l (native_asset USD_XLM)
  = (String.eqb "XLM" (code l)
     && match issuer l with None => true | Some _ => false end)%bool.
Proof.
  unfold matches_leg, native_asset.
  rewrite (lookup_insert_ne _ "id" "code") by discriminate.
  rewrite lookup_insert_eq.
  do 2 rewrite (lookup_insert_ne _ _ "issuer") by discriminate.
  rewrite lookup_insert_eq.
  destruct (issuer l); reflexivity.
Qed.

Lemma matches_leg_entry (l : leg) (website id : string) (a : directory_asset) :
  matches_leg l (directory_entry website id a)
  = (String.eqb (asset_code a) (code l)
     && match issuer l with
        | Some i => String.eqb i (asset_issuer a)
        | None => false
        end)%bool.
Proof.
  unfold matches_leg, directory_entry.
  rewrite (lookup_insert_ne _ "id" "code") by discriminate.
  rewrite lookup_insert_eq.
  do 2 rewrite (lookup_insert_ne _ _ "issuer") by discriminate.
  rewrite lookup_insert_eq.
  destruct (issuer l); reflexivity.
Qed.

Lemma _find_existsb {A B} (f : A -> B) (p : B -> bool) (q : A -> bool)
    (l : list A) :
  (forall x, q x = p (f x)) ->
  existsb q l = true -> _find p (map f l) <> None.
Proof.
  intros Hq. induction l as [|x rest IH]; simpl; [discriminate |].
  rewrite Hq. destruct (p (f x)); [discriminate |]. simpl. intros H.
  destruct (_find p (map f rest)); [discriminate | exact (IH H)].
Qed.

Lemma leg_listed_found (d : directory_t) (l : leg) (USD_XLM : number) :
  leg_listed d l = true ->
  _find (matches_leg l) (native_asset USD_XLM :: listed_assets d) <> None.
Proof.
  unfold leg_listed. intros H. cbn [_find].
  rewrite matches_leg_native.
  destruct (issuer l) as [i |] eqn:Ei.
  - rewrite andb_false_r.
    assert (Hf : _find (matches_leg l) (listed_assets d) <> None).
    { unfold listed_assets. eapply _find_existsb; [| exact H].
      intros entry. cbv beta. rewrite matches_leg_entry, Ei. reflexivity. }
    destruct (_find (matches_leg l) (listed_assets d)); [discriminate | exact Hf].
  - rewrite H. discriminate.
Qed.

Lemma pair_listed_not_dangling (d : directory_t) (legs : leg * leg)
    (USD_XLM : number) :
  pair_listed d legs = true ->
  ~ dangling legs (native_asset USD_XLM :: listed_assets d).
Proof.
  unfold pair_listed, dangling. intros H [[Hn Hf] | (Hn & Hc & Hf)].
  - rewrite Hn in H. exact (leg_listed_found d _ USD_XLM H Hf).
  - rewrite Hn, Hc in H. exact (leg_listed_found d _ USD_XLM H Hf).
Qed.

Lemma asset_ids_listed (d : directory_t) (USD_XLM : number) :
  asset_ids (native_asset USD_XLM :: listed_assets d)
  = Some (VStr "XLM-native")
    :: map (fun entry => Some (VStr (fst entry))) (directory_assets d).
Proof.
  unfold asset_ids, listed_assets. cbn [map]. rewrite map_map. reflexivity.
Qed.

Lemma phase4_run (s : state) :
  exists s',
    phase4 s = (Resolved tt, s')
    /\ _meta (doc s') = _meta (doc s)
    /\ assets (doc s') = phase4_assets (assets (doc s))
    /\ pairs (doc s') = pairs (doc s).
Proof. eexists. split; [reflexivity |]. repeat split; reflexivity. Qed.

Section Success.
Variable niceRound : number -> number.
Variable hideCMCKey : string -> string.
Variable JSON_stringify : json -> string.

(** X18: when the Horizon root answers, the quote request is resolved with
    a body that the handler of phase 1 can read, the directory answers with
    an anchor for every asset, and every pair of the directory has legs that
    the constructor of [StellarSdk.Asset] accepts, its asset listed and its
    two requests answered, the
    generator is resolved with both files; the assets of the ticker are
    those of the directory and the native asset, the pairs are those of
    the directory, and the price of 24 hours ago is defined. *)
Theorem X18_ticker_is_generated (isValidEd25519PublicKey : string -> bool)
    (w : world) (main : horizon_main) (j : cmc_json) (d : directory_t) :
  horizonMain w = Answer main ->
  fst (coinmarketcapReqeust w 0 (initial_state w)) = Resolved j ->
  quote_handler j = Resolved tt ->
  initializeIssuerOrgs w = Answer d ->
  forallb (has_anchor d) (directory_assets d) = true ->
  (forall pairSlug legs, In (pairSlug, legs) (directory_pairs d) ->
     Asset_accepts isValidEd25519PublicKey (fst legs) = true
     /\ Asset_accepts isValidEd25519PublicKey (snd legs) = true
     /\ pair_listed d legs = true
     /\ (exists res, orderbook_call w (fst legs) (snd legs) = Answer res)
     /\ (exists records,
           tradeAggregation_call w (fst legs) (snd legs) = Answer records)) ->
  exists t out p,
    tickerGenerator niceRound hideCMCKey JSON_stringify w = Resolved out
    /\ files out !! "v1/ticker.json" = Some (JSON_stringify (JTicker t))
    /\ files out !! "v1/ticker-state.json"
       = Some (JSON_stringify (JState "Ticker successfully generated" None))
    /\ Permutation (asset_ids (assets t))
         (Some (VStr "XLM-native")
          :: map (fun entry => Some (VStr (fst entry))) (directory_assets d))
    /\ pair_legs (pairs t) = directory_pairs d
    /\ horizon (_meta t) = Some main
    /\ build_id (_meta t) = Some (buildID d)
    /\ externalPrices (_meta t) = Some p
    /\ USD_XLM_24hAgo p = Some (quote_24hAgo (USD_XLM p) j).
Proof.
  intros Hmain Hj Hquote Hd Hanchors Hpairs.
  (* phase 1 *)
  pose proof (phase1_outcome w (initial_state w)) as H1.
  rewrite Hmain, Hj, Hquote in H1.
  destruct (phase1 w (initial_state w)) as [r1 s1] eqn:E1. simpl in H1. subst r1.
  destruct (phase1_leaves_prices w _ _ E1)
    as (main' & j' & p & Hmain' & Hj' & Hhorizon & _ & Hp & _ & _ & _ & H24 & _).
  rewrite Hmain in Hmain'. injection Hmain' as <-.
  rewrite Hj in Hj'. injection Hj' as <-.
  (* phase 2 *)
  pose proof (loadAssets_run w s1) as H2. rewrite Hp, Hd, Hanchors in H2.
  destruct H2 as (s2 & E2 & Hassets2 & Hdir2 & Hmeta2 & _).
  (* phase 3 *)
  destruct (phase3_resolves niceRound w s2 d) as (s3 & E3 & Hmeta3 & Hlegs3 & Hids3).
  { exact Hdir2. }
  { rewrite Hmeta2. cbn. rewrite Hp. discriminate. }
  { rewrite Hassets2. discriminate. }
  { intros pairSlug legs Hin.
    destruct (Hpairs pairSlug legs Hin) as (_ & _ & Hlisted & Hres & Hrecords).
    split; [| split; assumption].
    rewrite Hassets2. apply pair_listed_not_dangling, Hlisted. }
  (* phase 4 *)
  destruct (phase4_run s3) as (s4 & E4 & Hmeta4 & Hassets4 & Hpairs4).
  exists (doc s4). eexists. exists p. split.
  { unfold tickerGenerator, tickerDataGenerator.
    rewrite (bind_resolved _ _ _ _ _ E1), (bind_resolved _ _ _ _ _ E2),
      (bind_resolved _ _ _ _ _ E3), (bind_resolved _ _ _ _ _ E4).
    reflexivity. }
  cbn [files].
  split; [apply lookup_insert_eq |].
  split; [rewrite lookup_insert_ne by discriminate; apply lookup_insert_eq |].
  split.
  { rewrite Hassets4, <- (asset_ids_listed d (USD_XLM p)), <- Hassets2, <- Hids3.
    unfold asset_ids.
    etransitivity;
      [apply (Permutation_map (fun a : object => a !! "id")),
         phase4_assets_Permutation |].
    rewrite map_map.
    erewrite map_ext; [reflexivity |]. intros a. apply scored_id. }
  rewrite Hpairs4, Hmeta4, Hmeta3, Hmeta2.
  cbn [set_build_id horizon build_id externalPrices].
  repeat split; assumption.
Qed.
End Success.

(** The world of the examples: the ticker is generated. *)
Lemma X18_example_world :
  exists out,
    tickerGenerator (fun x => x) (fun x => x) (fun _ => "{}")
      (example_world quoted [listed_pair])
    = Resolved out
    /\ files out !! "v1/ticker.json" = Some "{}".
Proof.
  edestruct (X18_ticker_is_generated (fun x => x) (fun x => x) (fun _ => "{}")
               (fun issuer => String.eqb issuer example_issuer)
               (example_world quoted [listed_pair]))
    as (t & out & p & Hout & Hfile & _).
  - reflexivity.
  - vm_compute. reflexivity.
  - reflexivity.
  - reflexivity.
  - reflexivity.
  - intros pairSlug legs [[= <- <-] | []].
    do 3 (split; [reflexivity |]). split; eexists; reflexivity.
  - exists out. split; [exact Hout | exact Hfile].
Defined.

(** ** The median of three, by strings *)

Section MiddleOfThree.
Context {A : Type} (gt : A -> A -> bool).
Hypothesis gt_asym : forall x y, gt x y = true -> gt y x = false.

Lemma middle_of_sorted (a b c : A) :
  exists lo hi,
    Permutation [lo; nth 1 (Array_sort gt [a; b; c]) a; hi] [a; b; c]
    /\ gt lo (nth 1 (Array_sort gt [a; b; c]) a) = false
    /\ gt (nth 1 (Array_sort gt [a; b; c]) a) hi = false.
Proof using gt_asym.
  unfold Array_sort. simpl.
  destruct (gt b c) eqn:Hbc; simpl.
  - destruct (gt a c) eqn:Hac; simpl.
    + destruct (gt a b) eqn:Hab; simpl.
      * exists c, a. split; [| auto].
        symmetry. exact (Permutation_rev [a; b; c]).
      * exists c, b. split; [| auto].
        apply perm_trans with [a; c; b]; [apply perm_swap |].
        apply perm_skip, perm_swap.
    + exists a, b. split; [apply perm_skip, perm_swap | auto].
  - destruct (gt a b) eqn:Hab; simpl.
    + destruct (gt a c) eqn:Hac; simpl.
      * exists b, a. split; [| auto].
        apply perm_trans with [b; a; c]; [apply perm_skip, perm_swap |].
        apply perm_swap.
      * exists b, c. split; [apply perm_swap | auto].
    + exists a, c. split; [reflexivity | auto].
Qed.
End MiddleOfThree.

(** X19: [medianOf3] returns one of its three arguments, the one that is
    in the middle when the three are ordered by their strings. *)
Theorem X19_medianOf3_is_the_middle_string (a b c : decimal7) :
  exists lo hi,
    Permutation [lo; medianOf3 a b c; hi] [a; b; c]
    /\ String.compare (ToString lo) (ToString (medianOf3 a b c)) <> Gt
    /\ String.compare (ToString (medianOf3 a b c)) (ToString hi) <> Gt.
Proof.
  destruct (middle_of_sorted SortCompare_gt SortCompare_gt_asym a b c)
    as (lo & hi & Hperm & Hlo & Hhi).
  exists lo, hi. fold (medianOf3 a b c) in Hperm, Hlo, Hhi.
  split; [exact Hperm |].
  unfold SortCompare_gt in Hlo, Hhi.
  split; intros E; [rewrite E in Hlo | rewrite E in Hhi]; discriminate.
Qed.

(** ** Pairs that yield nothing *)

(** X20: an order book with no bids or no asks leaves no trace: the
    requests of the pair are resolved and the state is unchanged, so that
    the pair has no price and its asset no [price_XLM]. *)
Theorem X20_empty_side_leaves_no_trace (niceRound : number -> number)
    (w : world) (k : nat) (pairSlug : string) (p : pair) (asset : option nat)
    (res : orderbook) (s : state) :
  orderbook_call w (baseBuying p) (counterSelling p) = Answer res ->
  bids res = [] \/ asks res = [] ->
  k < length (pairs (doc s)) ->
  pair_requests niceRound w k pairSlug p asset s = (Resolved tt, s).
Proof.
  intros Hres Hempty Hk.
  unfold pair_requests, catch_log, request, await, read_pair, get, bind.
  rewrite Hres. cbn [rp].
  destruct (pairs (doc s) !! k) as [sp |] eqn:E.
  - cbn [ret]. unfold orderbook_fields.
    destruct Hempty as [-> | ->]; cbn [length Nat.eqb orb].
    + reflexivity.
    + rewrite orb_true_r. reflexivity.
  - apply lookup_ge_None in E. lia.
Qed.

(** An order book without asks. *)
Lemma X20_book_without_asks :
  pair_requests (fun x => x) one_sided_world 0 (fst listed_pair)
    (mkPair (fst (snd listed_pair)) (snd (snd listed_pair)) ∅) (Some 1)
    (state_with_pair one_sided_world
       (fst listed_pair,
        mkPair (fst (snd listed_pair)) (snd (snd listed_pair)) ∅))
  = (Resolved tt,
     state_with_pair one_sided_world
       (fst listed_pair,
        mkPair (fst (snd listed_pair)) (snd (snd listed_pair)) ∅)).
Proof.
  apply (X20_empty_side_leaves_no_trace (fun x => x) one_sided_world 0
           (fst listed_pair) _ (Some 1) one_sided_book).
  - reflexivity.
  - right. reflexivity.
  - simpl. lia.
Defined.

(** X21: the requests of a pair without a native leg leave the assets and
    the two volume counters as they were, whatever Horizon answers. *)
Theorem X21_pair_without_XLM_leaves_assets (niceRound : number -> number)
    (w : world) (k : nat) (pairSlug : string) (p : pair) (asset : option nat)
    (s : state) :
  isNative (baseBuying p) = false ->
  isNative (counterSelling p) = false ->
  assets (doc (snd (pair_requests niceRound w k pairSlug p asset s)))
  = assets (doc s)
  /\ lumenVolumeXLM (snd (pair_requests niceRound w k pairSlug p asset s))
     = lumenVolumeXLM s
  /\ lumenVolumeUSD (snd (pair_requests niceRound w k pairSlug p asset s))
     = lumenVolumeUSD s.
Proof.
  intros Hb Hc.
  unfold pair_requests, trades_handler, catch_log, request, await,
    read_pair, read_externalPrices, update_pair, modify, get, throw, ret, bind.
  rewrite Hb, Hc. cbn [orb].
  destruct (orderbook_call w (baseBuying p) (counterSelling p)) as [res | e];
    cbn [rp]; [| repeat split; reflexivity].
  destruct (pairs (doc s) !! k) as [sp |]; [| repeat split; reflexivity].
  destruct (orderbook_fields false res (fields (snd sp))) as [fields' |];
    [| repeat split; reflexivity].
  destruct (tradeAggregation_call w (baseBuying p) (counterSelling p))
    as [records | e]; cbn [rp]; [| repeat split; reflexivity].
  cbn.
  destruct (externalPrices (_meta (doc s))); repeat split; reflexivity.
Qed.

(** A pair of two issued assets. *)
Lemma X21_cross_pair :
  assets (doc (snd (pair_requests (fun x => x)
                      (example_world quoted [listed_pair]) 0 "USD/EUR"
                      cross_pair None
                      (state_with_pair (example_world quoted [listed_pair])
                         ("USD/EUR", cross_pair)))))
  = [].
Proof.
  destruct (X21_pair_without_XLM_leaves_assets (fun x => x)
              (example_world quoted [listed_pair]) 0 "USD/EUR" cross_pair None
              (state_with_pair (example_world quoted [listed_pair])
                 ("USD/EUR", cross_pair)))
    as (H & _ & _).
  - reflexivity.
  - reflexivity.
  - rewrite H. reflexivity.
Defined.
